(** * course_gen: the pipeline orchestrator and its text parsers

    A shallow embedding of the Python sources
    [app/agents/base_agent.py], [app/agents/research_agent.py],
    [app/agents/structure_agent.py], [app/agents/content_agent.py],
    [app/agents/orchestrator.py], [app/agents/quality_agent.py],
    [app/models/course.py] and [app/routers/course_router.py], and the
    properties of the pipeline and of its parsers.

    - A Python [str] is a sequence of Unicode code points: a [list N].
    - A dictionary with a fixed set of keys is a record; [content_data],
      keyed by module title, is a [gmap].
    - A function that may raise returns a sum: [inl] is the value
      returned, [inr] the [str] of the exception.
    - The text-generation service is an oracle: the reply to the [k]-th
      invocation of an agent's chain, a text or an exception, is a
      function of [k] and of the template variables.  The invocations
      made are recorded next to the result.
    - The graph library is a loop over the nodes of the graph with a
      step limit; logging is left out. *)

From Stdlib Require Import NArith Ascii String DecimalString.
From stdpp Require Import base option list gmap.

Local Open Scope N_scope.

(** ** Python strings *)

Module PyStr.

Abbreviation str := (list N).

(** A literal: every ASCII character is its own code point. *)
Definition u (s : string) : str :=
  List.map N_of_ascii (list_ascii_of_string s).
Arguments u s%_string.

(** The line feed ["\n"] and the paragraph break ["\n\n"]. *)
Definition nl : str := [10].
Definition nlnl : str := [10; 10].

(** [str.isspace] for a single code point, as CPython's
    [_PyUnicode_IsWhitespace] has it. *)
Definition isspace (c : N) : bool :=
  ((9 <=? c) && (c <=? 13)) || ((28 <=? c) && (c <=? 32))
  || (c =? 133) || (c =? 160) || (c =? 5760)
  || ((8192 <=? c) && (c <=? 8202))
  || (c =? 8232) || (c =? 8233) || (c =? 8239) || (c =? 8287)
  || (c =? 12288).

Fixpoint lstrip (s : str) : str :=
  match s with
  | c :: s' => if isspace c then lstrip s' else s
  | [] => []
  end.

Definition rstrip (s : str) : str := rev (lstrip (rev s)).

(** [s.strip()] *)
Definition strip (s : str) : str := rstrip (lstrip s).

(** [s.startswith(p)] *)
Fixpoint startswith (s p : str) : bool :=
  match p, s with
  | [], _ => true
  | a :: p', b :: s' => (a =? b) && startswith s' p'
  | _ :: _, [] => false
  end.

(** [sub in s] *)
Fixpoint contains (s sub : str) : bool :=
  startswith s sub
  || match s with
     | [] => false
     | _ :: s' => contains s' sub
     end.

(** The optional [maxsplit] / [count] argument: [None] is unlimited. *)
Definition may (count : option nat) : bool :=
  match count with
  | Some O => false
  | _ => true
  end.

Definition used (count : option nat) : option nat :=
  match count with
  | Some n => Some (Nat.pred n)
  | None => None
  end.

(** [s.split(sep, maxsplit)] for a non-empty [sep]: a left-to-right scan
    for non-overlapping occurrences.  [skip] counts the characters of
    the separator just matched that are still to be passed over, [cur]
    is the piece being collected. *)
Fixpoint split_go (sep : str) (count : option nat) (skip : nat)
    (cur s : str) : list str :=
  match s with
  | [] => [cur]
  | c :: s' =>
      match skip with
      | S k => split_go sep count k cur s'
      | O =>
          if may count && startswith s sep
          then cur :: split_go sep (used count) (Nat.pred (length sep)) [] s'
          else split_go sep count O (cur ++ [c]) s'
      end
  end.

(** [s.split(sep)] *)
Definition split (s sep : str) : list str := split_go sep None O [] s.

(** [s.split(sep, n)] *)
Definition splitn (s sep : str) (n : nat) : list str :=
  split_go sep (Some n) O [] s.

(** [s.replace(old, new, count)] for a non-empty [old]. *)
Fixpoint replace_go (old new : str) (count : option nat) (skip : nat)
    (s : str) : str :=
  match s with
  | [] => []
  | c :: s' =>
      match skip with
      | S k => replace_go old new count k s'
      | O =>
          if may count && startswith s old
          then new ++ replace_go old new (used count) (Nat.pred (length old)) s'
          else c :: replace_go old new count O s'
      end
  end.

(** [s.replace(old, new)] *)
Definition replace (s old new : str) : str := replace_go old new None O s.

(** [s.replace(old, new, n)] *)
Definition replacen (s old new : str) (n : nat) : str :=
  replace_go old new (Some n) O s.

(** [sep.join(l)] *)
Fixpoint join (sep : str) (l : list str) : str :=
  match l with
  | [] => []
  | [x] => x
  | x :: l' => x ++ sep ++ join sep l'
  end.

(** Truthiness of a string: non-empty. *)
Definition truthy (s : str) : bool :=
  match s with
  | [] => false
  | _ :: _ => true
  end.

(** [[line.strip() for line in text.split("\n") if line.strip()]] *)
Definition stripped_lines (text : str) : list str :=
  List.map strip (List.filter (fun line => truthy (strip line)) (split text nl)).

End PyStr.

Import PyStr.

(** ** app/agents/base_agent.py *)

Module BaseAgent.

Inductive agent := AResearch | AStructure | AContent.

(** What awaiting the chain ([self.chain.ainvoke(inputs)]) does: it
    returns the text of the reply, or raises an exception whose [str]
    is [msg]. *)
Inductive response :=
  | Returns (text : str)
  | Raises (msg : str).

(** The generation service and the fixed prompts of the three agents.
    [chain a k inputs] is the reply to the [k]-th invocation (counted
    from 0 within one request) of agent [a]'s chain on the template
    variables [inputs]. *)
Record Backend := mkBackend {
  system_prompt : agent -> str;
  chain : agent -> nat -> list (str * str) -> response
}.

(** One invocation of a chain, as recorded for a request. *)
Record call := mkCall {
  who : agent;
  nth : nat
}.

(** [BaseAgent.run]: adds the [context] variable, invokes the chain and
    returns the reply text; an exception of the chain is re-raised. *)
Definition run (b : Backend) (a : agent) (k : nat)
    (inputs : list (str * str)) : response * list call :=
  (chain b a k (inputs ++ [(u "context", [])]), [mkCall a k]).

End BaseAgent.

Import BaseAgent.

(** ** app/agents/research_agent.py *)

Module ResearchAgent.

(** The dictionary built by [_parse_research_result]. *)
Record ResearchData := mkResearchData {
  summary : str;
  key_concepts : list str;
  resources : list str;
  insights : str
}.

(** The value of [current_section]. *)
Inductive section_name := Summary | KeyConcepts | Resources | Insights.

Definition initial : ResearchData := mkResearchData [] [] [] [].

(** The body of the loop over [sections]. *)
Definition parse_section (acc : ResearchData * option section_name)
    (section : str) : ResearchData * option section_name :=
  let '(d, current_section) := acc in
  if contains section (u "RESEARCH SUMMARY:") then
    (mkResearchData (strip (replace section (u "RESEARCH SUMMARY:") []))
       (key_concepts d) (resources d) (insights d), Some Summary)
  else if contains section (u "KEY CONCEPTS:") then
    let concepts_text := strip (replace section (u "KEY CONCEPTS:") []) in
    (mkResearchData (summary d) (stripped_lines concepts_text)
       (resources d) (insights d), Some KeyConcepts)
  else if contains section (u "RESOURCES:") then
    let resources_text := strip (replace section (u "RESOURCES:") []) in
    (mkResearchData (summary d) (key_concepts d)
       (stripped_lines resources_text) (insights d), Some Resources)
  else if contains section (u "INSIGHTS:") then
    (mkResearchData (summary d) (key_concepts d) (resources d)
       (strip (replace section (u "INSIGHTS:") [])), Some Insights)
  else
    match current_section with
    | Some Summary =>
        (mkResearchData (summary d ++ nl ++ section) (key_concepts d)
           (resources d) (insights d), current_section)
    | Some KeyConcepts =>
        (mkResearchData (summary d) (key_concepts d ++ stripped_lines section)
           (resources d) (insights d), current_section)
    | Some Resources =>
        (mkResearchData (summary d) (key_concepts d)
           (resources d ++ stripped_lines section) (insights d), current_section)
    | Some Insights =>
        (mkResearchData (summary d) (key_concepts d) (resources d)
           (insights d ++ nl ++ section), current_section)
    | None => (d, current_section)
    end.

Definition parse_sections (sections : list str) : ResearchData * option section_name :=
  fold_left parse_section sections (initial, None).

Definition _parse_research_result (result : str) : ResearchData :=
  fst (parse_sections (split result nlnl)).

(** What [research_topic] returns: the parsed dictionary, or the
    one-key dictionary [{"error": ...}] built by its exception handler. *)
Inductive ResearchDict :=
  | Parsed (d : ResearchData)
  | Failed (error : str).

(** [research_data.get("summary", "")] and its siblings. *)
Definition get_summary (rd : ResearchDict) : str :=
  match rd with Parsed d => summary d | Failed _ => [] end.
Definition get_key_concepts (rd : ResearchDict) : list str :=
  match rd with Parsed d => key_concepts d | Failed _ => [] end.
Definition get_resources (rd : ResearchDict) : list str :=
  match rd with Parsed d => resources d | Failed _ => [] end.
Definition get_insights (rd : ResearchDict) : str :=
  match rd with Parsed d => insights d | Failed _ => [] end.

(** ["resources" in research_data] *)
Definition has_resources (rd : ResearchDict) : bool :=
  match rd with Parsed _ => true | Failed _ => false end.

(** [research_topic]: every exception is caught inside and turned into
    the [{"error": ...}] dictionary, so the caller sees no exception. *)
Definition research_topic (b : Backend) (topic audience duration : str)
    : ResearchDict * list call :=
  let inputs := [(u "system_prompt", system_prompt b AResearch);
                 (u "topic", topic);
                 (u "audience", audience);
                 (u "duration", duration)] in
  match run b AResearch O inputs with
  | (Returns result, calls) => (Parsed (_parse_research_result result), calls)
  | (Raises e, calls) => (Failed (u "Research failed: " ++ e), calls)
  end.

End ResearchAgent.

(** ** app/agents/structure_agent.py *)

Module StructureAgent.

(** [{"title": ..., "content": ""}] *)
Record LessonSkeleton := mkLessonSkeleton {
  lesson_title : str;
  lesson_content : str
}.

(** [{"title": ..., "lessons": [...]}] *)
Record ModuleSkeleton := mkModuleSkeleton {
  module_title : str;
  module_lessons : list LessonSkeleton
}.

(** The dictionary built by [_parse_structure_result]. *)
Record CourseStructure := mkCourseStructure {
  course_title : str;
  course_description : str;
  modules : list ModuleSkeleton;
  rationale : str
}.

Definition initial : CourseStructure := mkCourseStructure [] [] [] [].

(** The body of [for i in range(1, len(lines))]: one line of a module
    block, appended to the module's lessons when it is a lesson line. *)
Definition parse_lesson_line (lessons : list LessonSkeleton) (line : str)
    : list LessonSkeleton :=
  let lesson_line := strip line in
  if startswith lesson_line (u "- Lesson ") || startswith lesson_line (u "- ") then
    let lesson_parts := splitn lesson_line (u ":") 1 in
    let lesson_title :=
      match lesson_parts with
      | _ :: part1 :: _ => strip part1
      | _ => strip (replacen lesson_line (u "- ") [] 1)
      end in
    lessons ++ [mkLessonSkeleton lesson_title []]
  else lessons.

(** The branch [section.startswith("MODULE ")]. *)
Definition parse_module (section : str) : ModuleSkeleton :=
  let lines := split section nl in
  let module_title := strip (List.hd [] lines) in
  mkModuleSkeleton module_title (fold_left parse_lesson_line (List.tl lines) []).

(** The body of the loop over [sections]. *)
Definition parse_section (d : CourseStructure) (section0 : str) : CourseStructure :=
  let section := strip section0 in
  if contains section (u "COURSE TITLE:") then
    mkCourseStructure (strip (replace section (u "COURSE TITLE:") []))
      (course_description d) (modules d) (rationale d)
  else if contains section (u "COURSE DESCRIPTION:") then
    mkCourseStructure (course_title d)
      (strip (replace section (u "COURSE DESCRIPTION:") []))
      (modules d) (rationale d)
  else if contains section (u "RATIONALE:") then
    mkCourseStructure (course_title d) (course_description d) (modules d)
      (strip (replace section (u "RATIONALE:") []))
  else if startswith section (u "MODULE ") then
    mkCourseStructure (course_title d) (course_description d)
      (modules d ++ [parse_module section]) (rationale d)
  else d.

Definition _parse_structure_result (result : str) : CourseStructure :=
  fold_left parse_section (split result nlnl) initial.

(** [create_structure]: the reply is parsed; an exception of the chain
    is logged and re-raised. *)
Definition create_structure (b : Backend) (topic : str)
    (research_data : ResearchAgent.ResearchDict) (audience duration : str)
    : (CourseStructure + str) * list call :=
  let research_summary := ResearchAgent.get_summary research_data in
  let key_concepts_list := ResearchAgent.get_key_concepts research_data in
  let key_concepts :=
    join nl (List.map (fun concept => u "- " ++ concept) key_concepts_list) in
  let inputs := [(u "system_prompt", system_prompt b AStructure);
                 (u "topic", topic);
                 (u "audience", audience);
                 (u "duration", duration);
                 (u "research_summary", research_summary);
                 (u "key_concepts", key_concepts)] in
  match run b AStructure O inputs with
  | (Returns result, calls) => (inl (_parse_structure_result result), calls)
  | (Raises e, calls) => (inr e, calls)
  end.

End StructureAgent.

(** ** app/agents/content_agent.py *)

Module ContentAgent.

(** The dictionary [{"content": ..., "resources": ...}]. *)
Record ContentDict := mkContentDict {
  content : str;
  resources : list str
}.

Definition _parse_content_result (result : str) : ContentDict :=
  if contains result (u "CONTENT:") && contains result (u "RESOURCES:") then
    let parts := split result (u "RESOURCES:") in
    match parts with
    | p0 :: p1 :: _ =>
        {| content := strip (replace p0 (u "CONTENT:") []);
           resources := stripped_lines (strip p1) |}
    | _ => {| content := []; resources := [] |}
    end
  else
    {| content := result; resources := [] |}.

Definition _format_list (items : list str) : str :=
  join nl (List.map (fun item => u "- " ++ item) items).

(** The indentation of the lines of the [research_info] f-string. *)
Definition indent : str := u "        ".

(** [str(e)] of the [AttributeError] raised by [research_data.get] when
    [research_data] is [None]. *)
Definition none_has_no_get : str :=
  u "'NoneType' object has no attribute 'get'".

(** The [research_info] f-string. *)
Definition research_info (rd : ResearchAgent.ResearchDict) : str :=
  nl ++ indent ++ u "Summary:" ++ nl
  ++ indent ++ ResearchAgent.get_summary rd ++ nl
  ++ indent ++ nl
  ++ indent ++ u "Key Concepts:" ++ nl
  ++ indent ++ _format_list (ResearchAgent.get_key_concepts rd) ++ nl
  ++ indent ++ nl
  ++ indent ++ u "Insights:" ++ nl
  ++ indent ++ ResearchAgent.get_insights rd ++ nl
  ++ indent.

(** The [inputs] dictionary of [generate_lesson_content]. *)
Definition lesson_inputs (b : Backend)
    (course_title course_description module_title lesson_title : str)
    (rd : ResearchAgent.ResearchDict) (audience duration : str)
    : list (str * str) :=
  [(u "system_prompt", system_prompt b AContent);
   (u "course_title", course_title);
   (u "course_description", course_description);
   (u "module_title", module_title);
   (u "lesson_title", lesson_title);
   (u "audience", audience);
   (u "duration", duration);
   (u "research_info", research_info rd)].

(** [generate_lesson_content]: nothing is caught here, an exception goes
    to the caller.  [k] is the number of earlier invocations of this
    agent's chain in the request. *)
Definition generate_lesson_content (b : Backend) (k : nat)
    (course_title course_description module_title lesson_title : str)
    (research_data : option ResearchAgent.ResearchDict)
    (audience duration : str) : (ContentDict + str) * list call :=
  match research_data with
  | None => (inr none_has_no_get, [])
  | Some rd =>
      let inputs :=
        lesson_inputs b course_title course_description module_title
          lesson_title rd audience duration in
      match run b AContent k inputs with
      | (Returns result, calls) => (inl (_parse_content_result result), calls)
      | (Raises e, calls) => (inr e, calls)
      end
  end.

End ContentAgent.

(** ** app/models/course.py *)

Module Models.

Record Lesson := mkLesson {
  title : str;
  content : str;
  resources : list str
}.

(** The class [Module] of the source. *)
Record CourseModule := mkCourseModule {
  module_title : str;
  lessons : list Lesson
}.

Record CourseResponse := mkCourseResponse {
  course_title : str;
  description : str;
  modules : list CourseModule;
  references : list str
}.

End Models.

(** ** langgraph: [StateGraph] and the loop that runs it

    A graph has one function per node, returning the node's update of
    the state, an edge function that chooses the successor from the
    updated state (a plain edge ignores the state), and an entry point.
    The run stops at [END]; after [recursion_limit] steps without
    reaching it the library raises [GraphRecursionError]. *)

Module LangGraph.

Section Graph.

Context {State Node Log : Type}.

Inductive target :=
  | Goto (n : Node)
  | END.

Record StateGraph := mkStateGraph {
  action : Node -> State -> State * list Log;
  next : Node -> State -> target;
  entry_point : Node
}.

(** One executed node: what it returned, what it logged and the state
    once its update was applied. *)
Record step := mkStep {
  ran : Node;
  returned : State;
  logged : list Log;
  state_after : State
}.

Fixpoint loop (update : State -> State -> State) (g : StateGraph)
    (limit : nat) (n : Node) (st : State) : list step * option State :=
  match limit with
  | O => ([], None)
  | S limit' =>
      let '(ret, log) := action g n st in
      let st' := update st ret in
      let s := mkStep n ret log st' in
      match next g n st' with
      | END => ([s], Some st')
      | Goto m =>
          let '(trace, result) := loop update g limit' m st' in
          (s :: trace, result)
      end
  end.

Definition recursion_limit : nat := 25.

(** [app.ainvoke(initial_state)]: [None] stands for the raised
    [GraphRecursionError]. *)
Definition ainvoke (update : State -> State -> State) (g : StateGraph)
    (initial_state : State) : list step * option State :=
  loop update g recursion_limit (entry_point g) initial_state.

End Graph.

Arguments target : clear implicits.
Arguments StateGraph : clear implicits.
Arguments step : clear implicits.

End LangGraph.

(** ** app/agents/orchestrator.py *)

Module Orchestrator.

Import LangGraph.

(** A lesson dictionary [{"title", "content", "resources"}] of
    [content_data] and of [final_course]. *)
Record LessonDict := mkLessonDict {
  title : str;
  content : str;
  resources : list str
}.

(** [{"title": ..., "lessons": [...]}] *)
Record ModuleDict := mkModuleDict {
  module_title : str;
  lessons : list LessonDict
}.

(** The [final_course] dictionary. *)
Record CourseDict := mkCourseDict {
  course_title : str;
  description : str;
  modules : list ModuleDict;
  references : list str
}.

Record AgentState := mkAgentState {
  brief : str;
  target_audience : option str;
  course_duration : option str;
  research_data : option ResearchAgent.ResearchDict;
  course_structure : option StructureAgent.CourseStructure;
  content_data : option (gmap str (list LessonDict));
  final_course : option CourseDict;
  error : option str
}.

(** [x or ""] for an optional string. *)
Definition or_empty (x : option str) : str :=
  match x with
  | Some s => s
  | None => []
  end.

(** Truthiness of an optional string: set and non-empty. *)
Definition truthy_str (x : option str) : bool :=
  match x with
  | Some s => truthy s
  | None => false
  end.

(** Truthiness of an optional dictionary: set and non-empty. *)
Definition truthy_dict {V : Type} (x : option (gmap str V)) : bool :=
  match x with
  | Some m => negb (bool_decide (m = ∅))
  | None => false
  end.

(** [research_course_topic].  [research_topic] catches every exception
    itself, so the handler of this function is never entered. *)
Definition research_course_topic (b : Backend) (state : AgentState)
    : AgentState * list call :=
  let '(research_data, calls) :=
    ResearchAgent.research_topic b (brief state)
      (or_empty (target_audience state)) (or_empty (course_duration state)) in
  (mkAgentState (brief state) (target_audience state) (course_duration state)
     (Some research_data) None None None None, calls).

(** [create_course_structure].  The research dictionary has at least one
    key whenever it is set, so [not state.research_data] is [None]. *)
Definition create_course_structure (b : Backend) (state : AgentState)
    : AgentState * list call :=
  match research_data state with
  | None =>
      (mkAgentState (brief state) (target_audience state) (course_duration state)
         None None None None
         (Some (u "No research data available for creating course structure")), [])
  | Some rd =>
      match StructureAgent.create_structure b (brief state) rd
              (or_empty (target_audience state))
              (or_empty (course_duration state)) with
      | (inl course_structure, calls) =>
          (mkAgentState (brief state) (target_audience state)
             (course_duration state) (research_data state)
             (Some course_structure) None None None, calls)
      | (inr e, calls) =>
          (mkAgentState (brief state) (target_audience state)
             (course_duration state) (research_data state)
             None None None
             (Some (u "Structure creation error: " ++ e)), calls)
      end
  end.

(** The lesson dictionary appended for one lesson: the parsed reply, or
    the diagnostic entry of the inner exception handler. *)
Definition lesson_entry (lesson_title : str)
    (r : ContentAgent.ContentDict + str) : LessonDict :=
  match r with
  | inl lesson_content =>
      mkLessonDict lesson_title (ContentAgent.content lesson_content)
        (ContentAgent.resources lesson_content)
  | inr e =>
      mkLessonDict lesson_title (u "Error generating content: " ++ e) []
  end.

(** The state of the fan-out: the [content_data] dictionary being
    filled, the number of invocations of the content chain so far, and
    the invocations recorded. *)
Definition fanout : Type := gmap str (list LessonDict) * nat * list call.

(** The body of [for lesson in module.get("lessons", [])]. *)
Definition lesson_step (b : Backend) (state : AgentState)
    (course_title course_description module_title : str)
    (acc : fanout) (lesson : StructureAgent.LessonSkeleton) : fanout :=
  let '(content_data, k, log) := acc in
  let lesson_title := StructureAgent.lesson_title lesson in
  let '(r, calls) :=
    ContentAgent.generate_lesson_content b k course_title course_description
      module_title lesson_title (research_data state)
      (or_empty (target_audience state)) (or_empty (course_duration state)) in
  (alter (fun entries => entries ++ [lesson_entry lesson_title r])
     module_title content_data,
   (k + length calls)%nat, log ++ calls).

(** The body of [for module in modules]. *)
Definition module_step (b : Backend) (state : AgentState)
    (course_title course_description : str)
    (acc : fanout) (module : StructureAgent.ModuleSkeleton) : fanout :=
  let '(content_data, k, log) := acc in
  let module_title := StructureAgent.module_title module in
  fold_left (lesson_step b state course_title course_description module_title)
    (StructureAgent.module_lessons module)
    (<[module_title := []]> content_data, k, log).

(** [generate_course_content].  The course structure has four keys
    whenever it is set, so [not state.course_structure] is [None];
    nothing outside the inner handler raises. *)
Definition generate_course_content (b : Backend) (state : AgentState)
    : AgentState * list call :=
  match course_structure state with
  | None =>
      (mkAgentState (brief state) (target_audience state) (course_duration state)
         (research_data state) None None None
         (Some (u "No course structure available for generating content")), [])
  | Some cs =>
      let course_title := StructureAgent.course_title cs in
      let course_description := StructureAgent.course_description cs in
      let modules := StructureAgent.modules cs in
      let '(content_data, _, log) :=
        fold_left (module_step b state course_title course_description)
          modules (∅, O, []) in
      (mkAgentState (brief state) (target_audience state) (course_duration state)
         (research_data state) (course_structure state)
         (Some content_data) None None, log)
  end.

(** [state.content_data.get(module_title, [])] *)
Definition get_lessons (content_data : gmap str (list LessonDict))
    (module_title : str) : list LessonDict :=
  default [] (content_data !! module_title).

(** The lesson dictionary rebuilt from [lesson_data]. *)
Definition copy_lesson (lesson_data : LessonDict) : LessonDict :=
  mkLessonDict (title lesson_data) (content lesson_data) (resources lesson_data).

(** The body of [for module_structure in modules_structure]. *)
Definition finalize_module (content_data : gmap str (list LessonDict))
    (module_structure : StructureAgent.ModuleSkeleton) : ModuleDict :=
  let module_title := StructureAgent.module_title module_structure in
  let lesson_content_list := get_lessons content_data module_title in
  mkModuleDict module_title (List.map copy_lesson lesson_content_list).

(** The references gathered by [finalize_course]. *)
Definition gather_references (rd : option ResearchAgent.ResearchDict) : list str :=
  match rd with
  | Some d =>
      if ResearchAgent.has_resources d then ResearchAgent.get_resources d else []
  | None => []
  end.

(** [finalize_course].  Nothing in its body raises. *)
Definition finalize_course (state : AgentState) : AgentState * list call :=
  match course_structure state with
  | None =>
      (mkAgentState (brief state) (target_audience state) (course_duration state)
         (research_data state) None None None
         (Some (u "Missing course structure for finalizing the course")), [])
  | Some cs =>
      if negb (truthy_dict (content_data state)) then
        (mkAgentState (brief state) (target_audience state) (course_duration state)
           (research_data state) (course_structure state) None None
           (Some (u "Missing content data for finalizing the course")), [])
      else
        let cd := default ∅ (content_data state) in
        let final_course :=
          mkCourseDict (StructureAgent.course_title cs)
            (StructureAgent.course_description cs)
            (List.map (finalize_module cd) (StructureAgent.modules cs))
            (gather_references (research_data state)) in
        (mkAgentState (brief state) (target_audience state) (course_duration state)
           (research_data state) (course_structure state) (content_data state)
           (Some final_course) None, [])
  end.

(** The two strings [should_end] returns. *)
Inductive route := route_end | route_continue.

(** [should_end]: a [final_course] dictionary has four keys, so it is
    truthy whenever it is set. *)
Definition should_end (state : AgentState) : route :=
  if truthy_str (error state) then route_end
  else if bool_decide (is_Some (final_course state)) then route_end
  else route_continue.

Inductive node := Research | Structure | Content | Finalize.

Definition build_course_generation_graph (b : Backend)
    : StateGraph AgentState node call :=
  {| action n :=
       match n with
       | Research => research_course_topic b
       | Structure => create_course_structure b
       | Content => generate_course_content b
       | Finalize => finalize_course
       end;
     next n state :=
       match n with
       | Research => Goto Structure
       | Structure => Goto Content
       | Content => Goto Finalize
       | Finalize =>
           match should_end state with
           | route_end => END
           | route_continue => Goto Finalize
           end
       end;
     entry_point := Research |}.

(** How the library applies the [AgentState] a node returns to the
    state of the graph.  Releases differ: the returned object replaces
    every field ([WriteAll]), or only the fields that were given to its
    constructor are written and the others keep their value
    ([WriteSet]).  Every constructor call of this file passes a field
    either a fresh value or the value the incoming state has, so under
    [WriteSet] a field that comes back [None] keeps the old value. *)
Inductive update_policy := WriteAll | WriteSet.

Definition keep {A : Type} (old new : option A) : option A :=
  match new with
  | Some _ => new
  | None => old
  end.

Definition apply_update (p : update_policy) (old new : AgentState) : AgentState :=
  match p with
  | WriteAll => new
  | WriteSet =>
      mkAgentState (brief new)
        (keep (target_audience old) (target_audience new))
        (keep (course_duration old) (course_duration new))
        (keep (research_data old) (research_data new))
        (keep (course_structure old) (course_structure new))
        (keep (content_data old) (content_data new))
        (keep (final_course old) (final_course new))
        (keep (error old) (error new))
  end.

(** [str(e)] of the library's [GraphRecursionError]. *)
Definition recursion_error : str :=
  u "Recursion limit of 25 reached without hitting a stop condition.".

Definition to_lesson (lesson_data : LessonDict) : Models.Lesson :=
  Models.mkLesson (title lesson_data) (content lesson_data) (resources lesson_data).

Definition to_module (module_data : ModuleDict) : Models.CourseModule :=
  Models.mkCourseModule (module_title module_data)
    (List.map to_lesson (lessons module_data)).

(** The conversion of [final_course_data] at the end of
    [generate_course]. *)
Definition to_course_response (final_course_data : CourseDict) : Models.CourseResponse :=
  Models.mkCourseResponse (course_title final_course_data)
    (description final_course_data)
    (List.map to_module (modules final_course_data))
    (references final_course_data).

(** What is done with the last state of the graph. *)
Definition inspect_result (result : AgentState) : Models.CourseResponse + str :=
  if truthy_str (error result) then
    inr (u "Course generation failed: " ++ or_empty (error result))
  else
    match final_course result with
    | None => inr (u "Course generation failed: No final course data available")
    | Some final_course_data => inl (to_course_response final_course_data)
    end.

(** [generate_course]: the result ([inl]) or the [str] of the exception
    raised ([inr]), with the nodes that ran. *)
Definition generate_course (p : update_policy) (b : Backend) (brief : str)
    (target_audience course_duration : option str)
    : (Models.CourseResponse + str) * list (step AgentState node call) :=
  let initial_state :=
    mkAgentState brief target_audience course_duration None None None None None in
  let workflow := build_course_generation_graph b in
  match ainvoke (apply_update p) workflow initial_state with
  | (trace, None) => (inr recursion_error, trace)
  | (trace, Some result) => (inspect_result result, trace)
  end.

End Orchestrator.

(** ** app/routers/course_router.py *)

Module CourseRouter.

(** The reply of the endpoint: the course with status 200, or an
    [HTTPException] with its status code and detail. *)
Inductive http_reply :=
  | Ok200 (course : Models.CourseResponse)
  | HTTPException (status_code : nat) (detail : str).

Definition create_course (p : Orchestrator.update_policy) (b : Backend)
    (brief : str) (target_audience course_duration : option str) : http_reply :=
  match fst (Orchestrator.generate_course p b brief target_audience course_duration) with
  | inl course => Ok200 course
  | inr e => HTTPException 500 (u "Failed to generate course: " ++ e)
  end.

End CourseRouter.

(** ** app/agents/quality_agent.py *)

Module QualityAgent.

(** The chain of the quality agent and its fixed prompt: [chain q k
    inputs] is the reply to the [k]-th invocation (counted from 0 within
    one review of a course) on the template variables [inputs]. *)
Record Service := mkService {
  system_prompt : str;
  chain : nat -> list (str * str) -> response
}.

(** [BaseAgent.run] on this agent's chain; an invocation is recorded by
    its number. *)
Definition run (q : Service) (k : nat) (inputs : list (str * str))
    : response * list nat :=
  (chain q k (inputs ++ [(u "context", [])]), [k]).

(** A lesson dictionary [{"title", "content", "resources"}]. *)
Record LessonDict := mkLessonDict {
  title : str;
  content : str;
  resources : list str
}.

(** The dictionary under the key ["quality_review"]. *)
Record QualityReview := mkQualityReview {
  module_review : str;
  improvements : str;
  revised_content_notes : str
}.

(** A module dictionary [{"title", "lessons"}], with the key
    ["quality_review"] once a review was added. *)
Record ModuleDict := mkModuleDict {
  module_title : str;
  lessons : list LessonDict;
  quality_review : option QualityReview
}.

(** [str(n)] *)
Definition str_of_nat (n : nat) : str :=
  u (NilEmpty.string_of_uint (Nat.to_uint n)).

Definition _format_list (items : list str) : str :=
  join nl (List.map (fun item => u "- " ++ item) items).

(** The indentation of the lines of the [lessons_content] f-string. *)
Definition indent : str := u "            ".

(** What the body of [for i, lesson in enumerate(...)] adds to
    [lessons_content]. *)
Definition lesson_text (i : nat) (lesson : LessonDict) : str :=
  nl ++ indent ++ u "Lesson " ++ str_of_nat (i + 1) ++ u ": " ++ title lesson ++ nl
  ++ indent ++ nl
  ++ indent ++ u "Content:" ++ nl
  ++ indent ++ content lesson ++ nl
  ++ indent ++ nl
  ++ indent ++ u "Resources:" ++ nl
  ++ indent ++ _format_list (resources lesson) ++ nl
  ++ indent ++ nl
  ++ indent ++ u "---" ++ nl
  ++ indent.

Definition lessons_content (lessons : list LessonDict) : str :=
  concat (imap lesson_text lessons).

(** The [inputs] dictionary of [review_module]. *)
Definition review_inputs (q : Service) (course_title course_description : str)
    (module : ModuleDict) (audience duration : str) : list (str * str) :=
  [(u "system_prompt", system_prompt q);
   (u "course_title", course_title);
   (u "course_description", course_description);
   (u "module_title", module_title module);
   (u "lessons_content", lessons_content (lessons module));
   (u "audience", audience);
   (u "duration", duration)].

(** [l[i]]: the element, or the [str] of the [IndexError]. *)
Definition index (l : list str) (i : nat) : str + str :=
  match l !! i with
  | Some x => inl x
  | None => inr (u "list index out of range")
  end.

(** [result.split(first)[1].split(second)[0].strip()] *)
Definition between (result first second : str) : str + str :=
  match index (split result first) 1 with
  | inl after =>
      match index (split after second) 0 with
      | inl text => inl (strip text)
      | inr e => inr e
      end
  | inr e => inr e
  end.

(** [_parse_review_result]: the copy of the module, with the key
    ["quality_review"] set when the reply has a revised-content
    section. *)
Definition _parse_review_result (result : str) (original_module : ModuleDict)
    : ModuleDict + str :=
  let module := original_module in
  if contains result (u "REVISED CONTENT:") then
    let parts := split result (u "REVISED CONTENT:") in
    match parts with
    | _ :: part1 :: _ =>
        let revised_content := strip part1 in
        match (if contains result (u "MODULE REVIEW:")
               then between result (u "MODULE REVIEW:") (u "IMPROVEMENTS:")
               else inl []) with
        | inl module_review =>
            match (if contains result (u "IMPROVEMENTS:")
                   then between result (u "IMPROVEMENTS:") (u "LESSON REVIEWS:")
                   else inl []) with
            | inl improvements =>
                inl (mkModuleDict (module_title module) (lessons module)
                       (Some (mkQualityReview module_review improvements
                                revised_content)))
            | inr e => inr e
            end
        | inr e => inr e
        end
    | _ => inl module
    end
  else inl module.

(** [review_module]: nothing is caught, an exception of the chain goes
    to the caller. *)
Definition review_module (q : Service) (k : nat)
    (course_title course_description : str) (module : ModuleDict)
    (audience duration : str) : (ModuleDict + str) * list nat :=
  let inputs :=
    review_inputs q course_title course_description module audience duration in
  match run q k inputs with
  | (Returns result, calls) => (_parse_review_result result module, calls)
  | (Raises e, calls) => (inr e, calls)
  end.

(** The dictionary [review_course] builds from a [Module]. *)
Definition to_dict (lesson : Models.Lesson) : LessonDict :=
  mkLessonDict (Models.title lesson) (Models.content lesson)
    (Models.resources lesson).

Definition module_dict (module : Models.CourseModule) : ModuleDict :=
  mkModuleDict (Models.module_title module)
    (List.map to_dict (Models.lessons module)) None.

(** The [Module] it builds from the reviewed dictionary. *)
Definition to_lesson (lesson : LessonDict) : Models.Lesson :=
  Models.mkLesson (title lesson) (content lesson) (resources lesson).

Definition to_module (improved_module_dict : ModuleDict) : Models.CourseModule :=
  Models.mkCourseModule (module_title improved_module_dict)
    (List.map to_lesson (lessons improved_module_dict)).

(** The loop [for module in course.modules], begun after [k]
    invocations: the improved modules, or the exception that left the
    loop. *)
Fixpoint review_modules (q : Service) (course_title description : str)
    (audience duration : str) (modules : list Models.CourseModule) (k : nat)
    : (list Models.CourseModule + str) * list nat :=
  match modules with
  | [] => (inl [], [])
  | module :: modules' =>
      match review_module q k course_title description (module_dict module)
              audience duration with
      | (inl improved_module_dict, calls) =>
          match review_modules q course_title description audience duration
                  modules' (k + length calls) with
          | (inl improved_modules, calls') =>
              (inl (to_module improved_module_dict :: improved_modules),
               calls ++ calls')
          | (inr e, calls') => (inr e, calls ++ calls')
          end
      | (inr e, calls) => (inr e, calls)
      end
  end.

Definition review_course (q : Service) (course : Models.CourseResponse)
    (audience duration : str) : (Models.CourseResponse + str) * list nat :=
  match review_modules q (Models.course_title course) (Models.description course)
          audience duration (Models.modules course) 0 with
  | (inl improved_modules, calls) =>
      (inl (Models.mkCourseResponse (Models.course_title course)
              (Models.description course) improved_modules
              (Models.references course)), calls)
  | (inr e, calls) => (inr e, calls)
  end.

End QualityAgent.

(** * The vocabulary of the properties *)

(** ** Occurrences in a text *)

Module Text.

(** [sub] occurs in [s] as a contiguous run of characters. *)
Definition occurs_in (sub s : str) : Prop :=
  ∃ a b : str, s = a ++ sub ++ b.

End Text.

Import Text.

(** ** Research texts: blocks and fields *)

Module ResearchSpec.

Import ResearchAgent.

(** The field a section name stands for has its default value. *)
Definition is_default (k : section_name) (d : ResearchData) : Prop :=
  match k with
  | Summary => summary d = []
  | KeyConcepts => key_concepts d = []
  | Resources => resources d = []
  | Insights => insights d = []
  end.

(** The header that opens a section. *)
Definition header (k : section_name) : str :=
  match k with
  | Summary => u "RESEARCH SUMMARY:"
  | KeyConcepts => u "KEY CONCEPTS:"
  | Resources => u "RESOURCES:"
  | Insights => u "INSIGHTS:"
  end.

(** The header a block is filed under: the four headers are tested in
    this order and the first one contained in the block wins. *)
Definition classify (section : str) : option section_name :=
  if contains section (u "RESEARCH SUMMARY:") then Some Summary
  else if contains section (u "KEY CONCEPTS:") then Some KeyConcepts
  else if contains section (u "RESOURCES:") then Some Resources
  else if contains section (u "INSIGHTS:") then Some Insights
  else None.

(** A block with the header of [k] removed, trimmed. *)
Definition body (k : section_name) (section : str) : str :=
  strip (replace section (header k) []).

(** The value of the field of [k]: a text or a list of lines. *)
Definition view (k : section_name) (d : ResearchData) : str + list str :=
  match k with
  | Summary => inl (summary d)
  | KeyConcepts => inr (key_concepts d)
  | Resources => inr (resources d)
  | Insights => inl (insights d)
  end.

(** What a block with the header of [k] puts into the field. *)
Definition opened (k : section_name) (section : str) : str + list str :=
  match k with
  | Summary | Insights => inl (body k section)
  | KeyConcepts | Resources => inr (stripped_lines (body k section))
  end.

(** What a headerless block adds to the field of the open section. *)
Definition extended (v : str + list str) (section : str) : str + list str :=
  match v with
  | inl text => inl (text ++ nl ++ section)
  | inr lines => inr (lines ++ stripped_lines section)
  end.

(** The field after the block [blk] of [k] followed by the headerless
    blocks [conts]. *)
Definition accumulated (k : section_name) (blk : str) (conts : list str)
    : str + list str :=
  match k with
  | Summary | Insights =>
      inl (body k blk ++ concat (List.map (fun c => nl ++ c) conts))
  | KeyConcepts | Resources =>
      inr (stripped_lines (body k blk) ++ concat (List.map stripped_lines conts))
  end.

End ResearchSpec.

(** ** Structure texts: the parser as the specification words it *)

Module StructureSpec.

Import StructureAgent.

(** A trimmed block that opens a module: it begins with ["MODULE "] and
    contains none of the three markers tested before. *)
Definition is_module_block (blk : str) : bool :=
  negb (contains blk (u "COURSE TITLE:"))
  && negb (contains blk (u "COURSE DESCRIPTION:"))
  && negb (contains blk (u "RATIONALE:"))
  && startswith blk (u "MODULE ").

(** A trimmed line that is a lesson. *)
Definition is_lesson_line (line : str) : bool := startswith line (u "- ").

(** The text after the first colon of a line, if it has a colon. *)
Fixpoint after_first_colon (line : str) : option str :=
  match line with
  | [] => None
  | c :: rest => if c =? 58 then Some rest else after_first_colon rest
  end.

(** The title of a lesson line: the text after its first colon, else
    the line without its leading ["- "]; trimmed. *)
Definition lesson_title_of (line : str) : str :=
  match after_first_colon line with
  | Some rest => strip rest
  | None => strip (drop 2 line)
  end.

(** The module of a block: its first line, trimmed, is the title; the
    lesson lines among the others are its lessons, in order. *)
Definition module_of (blk : str) : ModuleSkeleton :=
  let lines := split blk nl in
  mkModuleSkeleton (strip (List.hd [] lines))
    (List.map (fun line => mkLessonSkeleton (lesson_title_of line) [])
       (List.filter is_lesson_line (List.map strip (List.tl lines)))).

(** The modules of a text: those of its module blocks, in order. *)
Definition modules_of (text : str) : list ModuleSkeleton :=
  List.map module_of
    (List.filter is_module_block (List.map strip (split text nlnl))).

End StructureSpec.

(** ** The steps and the states of a request *)

Module Run.

Import Orchestrator LangGraph.

Section Loop.

Context {State Node Log : Type}.
Variable update : State → State → State.
Variable g : StateGraph State Node Log.

(** The step a node makes from a state. *)
Definition step_of (n : Node) (st : State) : step State Node Log :=
  mkStep n (action g n st).1 (action g n st).2 (update st (action g n st).1).

End Loop.

Section Request.

Variable p : update_policy.
Variable b : Backend.
Variable brief : str.
Variables target_audience course_duration : option str.

(** The graph and the first state of the request. *)
Definition workflow : StateGraph AgentState node call :=
  build_course_generation_graph b.

Definition initial_state : AgentState :=
  mkAgentState brief target_audience course_duration None None None None None.

(** The four steps of a request. *)
Definition step1 : step AgentState node call :=
  step_of (apply_update p) workflow Research initial_state.
Definition step2 : step AgentState node call :=
  step_of (apply_update p) workflow Structure (state_after step1).
Definition step3 : step AgentState node call :=
  step_of (apply_update p) workflow Content (state_after step2).
Definition step4 : step AgentState node call :=
  step_of (apply_update p) workflow Finalize (state_after step3).

(** What the research agent returned for this request. *)
Definition rd1 : ResearchAgent.ResearchDict :=
  (ResearchAgent.research_topic b brief (or_empty target_audience)
     (or_empty course_duration)).1.

(** What the structure agent did for this request. *)
Definition structure1 : StructureAgent.CourseStructure + str :=
  (StructureAgent.create_structure b brief rd1 (or_empty target_audience)
     (or_empty course_duration)).1.

(** The state with the fields known so far and, possibly, an error. *)
Definition known (cs : option StructureAgent.CourseStructure)
    (cd : option (gmap str (list LessonDict))) (fc : option CourseDict)
    (e : option str) : AgentState :=
  mkAgentState brief target_audience course_duration (Some rd1) cs cd fc e.

(** The fan-out over the modules of [cs] from a state. *)
Definition fanout_of (state : AgentState) (cs : StructureAgent.CourseStructure)
    : fanout :=
  fold_left
    (module_step b state (StructureAgent.course_title cs)
       (StructureAgent.course_description cs))
    (StructureAgent.modules cs) (∅, O, []).

(** The course assembled from a structure and the content of its
    fan-out. *)
Definition assembled (cs : StructureAgent.CourseStructure)
    (cd : gmap str (list LessonDict)) : CourseDict :=
  mkCourseDict (StructureAgent.course_title cs)
    (StructureAgent.course_description cs)
    (List.map (finalize_module cd) (StructureAgent.modules cs))
    (gather_references (Some rd1)).

(** The reply of the content chain to the call made for a lesson, the
    [k]-th call of the fan-out. *)
Definition reply_for (cs : StructureAgent.CourseStructure)
    (m : StructureAgent.ModuleSkeleton)
    (lesson : StructureAgent.LessonSkeleton) (k : nat) : response :=
  (run b AContent k
     (ContentAgent.lesson_inputs b
        (StructureAgent.course_title cs) (StructureAgent.course_description cs)
        (StructureAgent.module_title m) (StructureAgent.lesson_title lesson)
        rd1 (or_empty target_audience) (or_empty course_duration))).1.

End Request.

(** The messages of the prerequisite checks. *)
Definition no_structure_for_content : str :=
  u "No course structure available for generating content".
Definition no_structure_for_finalize : str :=
  u "Missing course structure for finalizing the course".
Definition no_content_for_finalize : str :=
  u "Missing content data for finalizing the course".

(** The stages that ran, with the chains each invoked and the error of
    the state each left. *)
Definition summary_of (trace : list (step AgentState node call))
    : list (node * list call * option str) :=
  List.map (fun s => (ran s, logged s, error (state_after s))) trace.

(** What the entry of a lesson must be, given the reply to its call. *)
Definition entry_matches (lesson : StructureAgent.LessonSkeleton)
    (reply : response) (entry : Models.Lesson) : Prop :=
  Models.title entry = StructureAgent.lesson_title lesson
  ∧ match reply with
    | Returns text =>
        Models.content entry
        = ContentAgent.content (ContentAgent._parse_content_result text)
        ∧ Models.resources entry
          = ContentAgent.resources (ContentAgent._parse_content_result text)
    | Raises msg =>
        Models.content entry = u "Error generating content: " ++ msg
        ∧ Models.content entry ≠ []
        ∧ Models.resources entry = []
    end.

(** A state on which the run ends: it has a truthy [error] or a
    [final_course]. *)
Definition settled (state : AgentState) : Prop :=
  truthy_str (error state) = true ∨ is_Some (final_course state).

(** The public course with the fields of a course dictionary: the same
    title, description and references, and for each module, in order,
    the module with the same title and, for each of its lessons, in
    order, the lesson with the same title, content and resources. *)
Definition public_course (final_course_data : CourseDict) : Models.CourseResponse :=
  Models.mkCourseResponse (course_title final_course_data)
    (description final_course_data)
    (List.map
       (fun m =>
          Models.mkCourseModule (module_title m)
            (List.map (fun l => Models.mkLesson (title l) (content l) (resources l))
               (lessons m)))
       (modules final_course_data))
    (references final_course_data).

End Run.

(** ** The entries of the fan-out *)

Module Entries.

Import Orchestrator.

Section Content.

Variable b : Backend.
Variable state : AgentState.
Variable cs : StructureAgent.CourseStructure.

(** The number of chain invocations one lesson makes: one, or none when
    [research_data] is unset and the call fails before it. *)
Definition calls_per_lesson : nat :=
  match research_data state with
  | Some _ => 1
  | None => 0
  end.

(** What the generation call for a lesson gives, made after [k]
    invocations of the content chain. *)
Definition lesson_result (module_title : str) (k : nat)
    (lesson : StructureAgent.LessonSkeleton) : ContentAgent.ContentDict + str :=
  (ContentAgent.generate_lesson_content b k
     (StructureAgent.course_title cs) (StructureAgent.course_description cs)
     module_title (StructureAgent.lesson_title lesson) (research_data state)
     (or_empty (target_audience state)) (or_empty (course_duration state))).1.

(** The entries of the lessons of a module whose fan-out begins after
    [k] invocations: one per lesson, in order, each made from the
    result of its own call. *)
Definition module_entries (k : nat) (m : StructureAgent.ModuleSkeleton)
    : list LessonDict :=
  imap (fun j lesson =>
          lesson_entry (StructureAgent.lesson_title lesson)
            (lesson_result (StructureAgent.module_title m)
               (k + j * calls_per_lesson) lesson))
    (StructureAgent.module_lessons m).

(** The number of lessons of a list of modules. *)
Definition lessons_in (modules : list StructureAgent.ModuleSkeleton) : nat :=
  length (concat (List.map StructureAgent.module_lessons modules)).

(** The dictionary after the fan-out over [modules], begun after [k]
    invocations with the dictionary [cd]. *)
Fixpoint filled (modules : list StructureAgent.ModuleSkeleton) (k : nat)
    (cd : gmap str (list LessonDict)) : gmap str (list LessonDict) :=
  match modules with
  | [] => cd
  | m :: modules' =>
      filled modules'
        (k + length (StructureAgent.module_lessons m) * calls_per_lesson)
        (<[StructureAgent.module_title m := module_entries k m]> cd)
  end.

End Content.

End Entries.

(** ** Sample texts, services and states *)

Module Samples.

Import Orchestrator.

(** The text of the parsing example. *)
Definition hello_text : str :=
  u "CONTENT:" ++ nl ++ u "Hello" ++ nlnl ++ u "RESOURCES:" ++ nl ++ u "A" ++ nl ++ u "B".

(** A text with the summary and the resources only. *)
Definition two_headers : str :=
  u "RESEARCH SUMMARY:" ++ nl ++ u "S" ++ nlnl ++ u "RESOURCES:" ++ nl ++ u "r1".

(** All four headers, each on a line of its own, with no blank line
    between the parts. *)
Definition single_block : str :=
  u "RESEARCH SUMMARY:" ++ nl ++ u "S" ++ nl
  ++ u "KEY CONCEPTS:" ++ nl ++ u "a" ++ nl
  ++ u "RESOURCES:" ++ nl ++ u "b" ++ nl
  ++ u "INSIGHTS:" ++ nl ++ u "c".

(** The headers in another order, with headerless blocks. *)
Definition shuffled : str :=
  u "INSIGHTS:" ++ nl ++ u "I" ++ nlnl
  ++ u "RESEARCH SUMMARY:" ++ nl ++ u "S" ++ nlnl
  ++ u "more" ++ nlnl
  ++ u "KEY CONCEPTS:" ++ nl ++ u " a " ++ nlnl
  ++ u "b" ++ nlnl
  ++ u "RESOURCES:" ++ nl ++ u "r".

(** One block whose first line begins with ["MODULE "] and names a
    rationale in its title. *)
Definition rationale_module : str :=
  u "MODULE 1: RATIONALE: why" ++ nl ++ u "- Lesson 1.1: A".

(** A course structure without modules, as the Content stage leaves it:
    [content_data] is the empty dictionary. *)
Definition no_modules : AgentState :=
  mkAgentState (u "brief") None None
    (Some (ResearchAgent.Parsed ResearchAgent.initial))
    (Some (StructureAgent.mkCourseStructure (u "T") (u "D") [] []))
    (Some ∅) None None.

(** A structure of two modules with content for the first only. *)
Definition half_filled : AgentState :=
  mkAgentState (u "brief") None None
    (Some (ResearchAgent.Parsed
             (ResearchAgent.mkResearchData (u "S") [] [u "r1"; u "r2"] [])))
    (Some (StructureAgent.mkCourseStructure (u "T") (u "D")
             [StructureAgent.mkModuleSkeleton (u "MODULE 1: A")
                [StructureAgent.mkLessonSkeleton (u "L1") []];
              StructureAgent.mkModuleSkeleton (u "MODULE 2: B")
                [StructureAgent.mkLessonSkeleton (u "L2") []]] []))
    (Some {[ u "MODULE 1: A" := [mkLessonDict (u "L1") (u "text") [u "x"]] ]})
    None None.

(** Replies of the three chains. *)
Definition structure_reply : str :=
  u "COURSE TITLE:" ++ nl ++ u "T" ++ nlnl
  ++ u "MODULE 1: A" ++ nl ++ u "- Lesson 1.1: L1".

Definition content_reply : str :=
  u "CONTENT:" ++ nl ++ u "Hello" ++ nlnl ++ u "RESOURCES:" ++ nl ++ u "A".

Definition research_reply : str :=
  u "RESEARCH SUMMARY:" ++ nl ++ u "S" ++ nlnl ++ u "RESOURCES:" ++ nl ++ u "r1".

(** The research chain raises, the other two answer. *)
Definition research_fails : Backend :=
  mkBackend (fun _ => [])
    (fun a _ _ =>
       match a with
       | AResearch => Raises (u "boom")
       | AStructure => Returns structure_reply
       | AContent => Returns content_reply
       end).

(** The structure chain raises, the other two answer. *)
Definition structure_fails : Backend :=
  mkBackend (fun _ => [])
    (fun a _ _ =>
       match a with
       | AResearch => Returns research_reply
       | AStructure => Raises (u "boom")
       | AContent => Returns content_reply
       end).

(** Two modules with their own titles; the call for the second lesson
    of the first raises. *)
Definition second_lesson_fails : Backend :=
  mkBackend (fun _ => [])
    (fun a k _ =>
       match a with
       | AResearch => Returns research_reply
       | AStructure =>
           Returns (u "MODULE 1: A" ++ nl ++ u "- Lesson 1.1: L1" ++ nl
                    ++ u "- Lesson 1.2: L2" ++ nlnl
                    ++ u "MODULE 2: B" ++ nl ++ u "- Lesson 2.1: L3")
       | AContent =>
           if Nat.eqb k 1 then Raises (u "bad") else Returns content_reply
       end).

(** The structure of [second_lesson_fails]. *)
Definition module_a : StructureAgent.ModuleSkeleton :=
  StructureAgent.mkModuleSkeleton (u "MODULE 1: A")
    [StructureAgent.mkLessonSkeleton (u "L1") [];
     StructureAgent.mkLessonSkeleton (u "L2") []].

Definition module_b : StructureAgent.ModuleSkeleton :=
  StructureAgent.mkModuleSkeleton (u "MODULE 2: B")
    [StructureAgent.mkLessonSkeleton (u "L3") []].

Definition two_modules : StructureAgent.CourseStructure :=
  StructureAgent.mkCourseStructure [] [] [module_a; module_b] [].

(** Two modules with the same title; the call for the lesson of the
    second raises, the call for the lesson of the first returns. *)
Definition twin_titles : Backend :=
  mkBackend (fun _ => [])
    (fun a k _ =>
       match a with
       | AResearch => Returns research_reply
       | AStructure =>
           Returns (u "MODULE X" ++ nl ++ u "- a" ++ nlnl
                    ++ u "MODULE X" ++ nl ++ u "- b")
       | AContent =>
           if Nat.eqb k 1 then Raises (u "bad") else Returns content_reply
       end).

(** A state with the structure of [twin_titles]. *)
Definition twins : AgentState :=
  mkAgentState (u "brief") None None
    (Some (ResearchAgent.Parsed ResearchAgent.initial))
    (Some (StructureAgent.mkCourseStructure [] []
             [StructureAgent.mkModuleSkeleton (u "MODULE X")
                [StructureAgent.mkLessonSkeleton (u "a") []];
              StructureAgent.mkModuleSkeleton (u "MODULE X")
                [StructureAgent.mkLessonSkeleton (u "b") []]] []))
    None None None.

End Samples.

(** ** Well-formed pieces of a reply *)

Module Shape.

(** No white space at either end. *)
Definition trimmed (s : str) : bool :=
  match s with
  | [] => true
  | c :: _ => negb (isspace c)
  end
  && match last s with
     | None => true
     | Some c => negb (isspace c)
     end.

(** [sub] does not occur in [s]. *)
Definition free_of (sub s : str) : bool := negb (contains s sub).

(** No line feed in [s]. *)
Definition single_line (s : str) : bool := free_of nl s.

(** No occurrence of the separator [sep] begins inside [s] when [s] is
    followed by [sep]: [sep] does not occur in [s] and does not straddle
    the end of [s]. *)
Definition closed_for (sep s : str) : bool :=
  free_of sep (s ++ removelast sep).

(** A piece that stands in a blank-line-separated block: no blank line
    begins in it. *)
Definition block_safe (s : str) : bool := closed_for nlnl s.

End Shape.

(** ** Replies in the format the prompts ask for *)

Module Replies.

Import Shape.

(** The reply the content prompt asks for: the body under [CONTENT:],
    a blank line, the resources under [RESOURCES:], one per line. *)
Definition content_reply_of (body : str) (items : list str) : str :=
  u "CONTENT:" ++ nl ++ body ++ nlnl ++ u "RESOURCES:" ++ nl ++ join nl items.

(** A lesson body that can stand in such a reply. *)
Definition content_body_ok (body : str) : bool :=
  trimmed body && free_of (u "CONTENT:") body && free_of (u "RESOURCES:") body.

(** A line of a list: not empty, trimmed, on one line. *)
Definition list_line_ok (x : str) : bool :=
  truthy x && trimmed x && single_line x.

(** A resource line of such a reply. *)
Definition content_resource_ok (x : str) : bool :=
  list_line_ok x && free_of (u "RESOURCES:") x.

(** The four headers of the research prompt do not occur in [x]. *)
Definition research_header_free (x : str) : bool :=
  free_of (u "RESEARCH SUMMARY:") x && free_of (u "KEY CONCEPTS:") x
  && free_of (u "RESOURCES:") x && free_of (u "INSIGHTS:") x.

(** A summary or the insights: some text without a blank line. *)
Definition research_prose_ok (x : str) : bool :=
  truthy x && trimmed x && free_of nlnl x && research_header_free x.

(** A key concept or a resource. *)
Definition research_line_ok (x : str) : bool :=
  list_line_ok x && research_header_free x.

(** The reply the research prompt asks for: four blocks with their
    headers, separated by blank lines. *)
Definition research_reply_of (summary : str) (key_concepts resources : list str)
    (insights : str) : str :=
  join nlnl
    [u "RESEARCH SUMMARY:" ++ nl ++ summary;
     u "KEY CONCEPTS:" ++ nl ++ join nl key_concepts;
     u "RESOURCES:" ++ nl ++ join nl resources;
     u "INSIGHTS:" ++ nl ++ insights].

(** Some text without a blank line, as a block body. *)
Definition prose_ok (x : str) : bool :=
  truthy x && trimmed x && free_of nlnl x.

(** A course title, a course description and a rationale that can stand
    under their markers: the markers tested up to their own do not
    occur in them. *)
Definition course_title_ok (x : str) : bool :=
  prose_ok x && free_of (u "COURSE TITLE:") x.

Definition course_description_ok (x : str) : bool :=
  prose_ok x && free_of (u "COURSE TITLE:") x
  && free_of (u "COURSE DESCRIPTION:") x.

(** None of the three markers of the structure prompt occurs in [x]. *)
Definition structure_marker_free (x : str) : bool :=
  free_of (u "COURSE TITLE:") x && free_of (u "COURSE DESCRIPTION:") x
  && free_of (u "RATIONALE:") x.

Definition rationale_ok (x : str) : bool :=
  prose_ok x && structure_marker_free x.

(** A lesson line: a dash, the label, a colon and the title. *)
Definition lesson_line (l : str * str) : str :=
  u "- " ++ l.1 ++ u ": " ++ l.2.

(** A module block: the header line and one line per lesson. *)
Definition module_block (m : str * list (str * str)) : str :=
  join nl (m.1 :: List.map lesson_line m.2).

(** The label of a lesson has no colon, its title is a line of a list,
    and no marker occurs in the line. *)
Definition lesson_ok (l : str * str) : bool :=
  free_of (u ":") l.1 && single_line l.1 && list_line_ok l.2
  && structure_marker_free (lesson_line l).

(** The header of a module is one trimmed line that begins with
    ["MODULE "] and holds no marker; its lessons are well formed. *)
Definition module_ok (m : str * list (str * str)) : bool :=
  startswith m.1 (u "MODULE ") && trimmed m.1 && single_line m.1
  && structure_marker_free m.1 && forallb lesson_ok m.2.

(** The module a block stands for. *)
Definition skeleton_of (m : str * list (str * str)) : StructureAgent.ModuleSkeleton :=
  StructureAgent.mkModuleSkeleton m.1
    (List.map (fun l => StructureAgent.mkLessonSkeleton l.2 []) m.2).

(** The reply the structure prompt asks for. *)
Definition structure_reply_of (title description : str)
    (modules : list (str * list (str * str))) (rationale : str) : str :=
  join nlnl
    ([u "COURSE TITLE:" ++ nl ++ title;
      u "COURSE DESCRIPTION:" ++ nl ++ description]
     ++ List.map module_block modules
     ++ [u "RATIONALE:" ++ nl ++ rationale]).

End Replies.


(** ** Outlines and invocation logs *)

Module Outline.

Import Orchestrator.

(** The invocations of the content chain numbered [k], ..., [k + n - 1]. *)
Definition content_calls (k n : nat) : list call :=
  List.map (mkCall AContent) (seq k n).

(** The titles of the lessons of a list of entries. *)
Definition entry_titles (entries : list LessonDict) : list str :=
  List.map title entries.

(** The outline of a structure: its module titles, each with the titles
    of its lessons. *)
Definition structure_outline (cs : StructureAgent.CourseStructure)
    : list (str * list str) :=
  List.map
    (fun m => (StructureAgent.module_title m,
               List.map StructureAgent.lesson_title (StructureAgent.module_lessons m)))
    (StructureAgent.modules cs).

(** The outline of a returned course. *)
Definition course_outline (course : Models.CourseResponse)
    : list (str * list str) :=
  List.map
    (fun fm => (Models.module_title fm, List.map Models.title (Models.lessons fm)))
    (Models.modules course).

(** The course made from a structure, a content dictionary and a list
    of references: the title and the description of the structure, for
    each of its modules, in order, the module with the same title and
    the lessons found under that title in the dictionary (none when the
    title is no key), each with its title, content and resources, and
    the references. *)
Definition course_from (cs : StructureAgent.CourseStructure)
    (cd : gmap str (list LessonDict)) (refs : list str) : Models.CourseResponse :=
  Models.mkCourseResponse (StructureAgent.course_title cs)
    (StructureAgent.course_description cs)
    (List.map
       (fun m =>
          Models.mkCourseModule (StructureAgent.module_title m)
            (List.map (fun e => Models.mkLesson (title e) (content e) (resources e))
               (default [] (cd !! StructureAgent.module_title m))))
       (StructureAgent.modules cs))
    refs.

End Outline.

(** ** Review replies *)

Module Reviews.

Import Shape.

(** A section of a review: trimmed, and none of the four markers of the
    quality prompt occurs in it.  It may have blank lines. *)
Definition review_text_ok (x : str) : bool :=
  trimmed x && free_of (u "MODULE REVIEW:") x && free_of (u "IMPROVEMENTS:") x
  && free_of (u "LESSON REVIEWS:") x && free_of (u "REVISED CONTENT:") x.

(** The reply the quality prompt asks for. *)
Definition review_reply_of
    (module_review improvements lesson_reviews revised_content : str) : str :=
  u "MODULE REVIEW:" ++ nl ++ module_review ++ nlnl
  ++ u "IMPROVEMENTS:" ++ nl ++ improvements ++ nlnl
  ++ u "LESSON REVIEWS:" ++ nl ++ lesson_reviews ++ nlnl
  ++ u "REVISED CONTENT:" ++ nl ++ revised_content.

(** The template variables of the invocation that [review_course]
    makes for a module of a course. *)
Definition review_call (q : QualityAgent.Service) (course : Models.CourseResponse)
    (audience duration : str) (module : Models.CourseModule) : list (str * str) :=
  QualityAgent.review_inputs q (Models.course_title course)
    (Models.description course) (QualityAgent.module_dict module)
    audience duration
  ++ [(u "context", [])].

End Reviews.

(** ** A service that answers in the requested formats *)

Module Service.

Import Shape Replies.

(** The modules of the course made from the modules of a structure
    reply, when the reply to the [k]-th invocation of the content chain
    has the body [body k] and the resources [items k]: the lessons are
    numbered through the modules, from [k] on. *)
Fixpoint numbered_modules (body : nat → str) (items : nat → list str)
    (k : nat) (modules : list (str * list (str * str)))
    : list Models.CourseModule :=
  match modules with
  | [] => []
  | m :: modules' =>
      Models.mkCourseModule m.1
        (imap (fun j l => Models.mkLesson l.2 (body (k + j)%nat) (items (k + j)%nat))
           m.2)
      :: numbered_modules body items (k + length m.2) modules'
  end.

(** The parts of a research reply are well formed. *)
Definition research_parts_ok (summary : str) (key_concepts resources : list str)
    (insights : str) : Prop :=
  research_prose_ok summary = true
  ∧ key_concepts ≠ []
  ∧ Forall (fun x => research_line_ok x = true) key_concepts
  ∧ resources ≠ []
  ∧ Forall (fun x => research_line_ok x = true) resources
  ∧ research_prose_ok insights = true.

(** The parts of a structure reply are well formed, and it has modules,
    with distinct headers. *)
Definition structure_parts_ok (title description : str)
    (modules : list (str * list (str * str))) (rationale : str) : Prop :=
  course_title_ok title = true
  ∧ course_description_ok description = true
  ∧ Forall (fun m => module_ok m = true) modules
  ∧ rationale_ok rationale = true
  ∧ modules ≠ []
  ∧ NoDup (List.map fst modules).

(** The parts of a content reply are well formed. *)
Definition content_parts_ok (body : str) (items : list str) : Prop :=
  content_body_ok body = true
  ∧ Forall (fun x => content_resource_ok x = true) items.

(** A service whose three chains answer in the requested formats. *)
Definition answers_in_format (b : Backend)
    (summary : str) (key_concepts resources : list str) (insights : str)
    (title description : str) (modules : list (str * list (str * str)))
    (rationale : str) (body : nat → str) (items : nat → list str) : Prop :=
  (∀ inputs, chain b AResearch 0 inputs
             = Returns (research_reply_of summary key_concepts resources insights))
  ∧ (∀ inputs, chain b AStructure 0 inputs
               = Returns (structure_reply_of title description modules rationale))
  ∧ (∀ k inputs, chain b AContent k inputs
                 = Returns (content_reply_of (body k) (items k))).

(** A sample of such a service: two modules, three lessons. *)
Definition sample_modules : list (str * list (str * str)) :=
  [(u "MODULE 1: Basics",
    [(u "Lesson 1.1", u "What it is"); (u "Lesson 1.2", u "Who borrows")]);
   (u "MODULE 2: Practice", [(u "Lesson 2.1", u "Group lending")])].

Definition sample_items (k : nat) : list str := [u "Book A"; u "Site B"].

Definition sample_service : Backend :=
  mkBackend (fun _ => [])
    (fun a k _ =>
       match a with
       | AResearch =>
           Returns (research_reply_of (u "Small loans.") [u "Group lending"]
                      [u "World Bank report"] (u "Demand is growing."))
       | AStructure =>
           Returns (structure_reply_of (u "Microfinance") (u "How small loans work.")
                      sample_modules (u "From simple to applied."))
       | AContent => Returns (content_reply_of (u "Text.") (sample_items k))
       end).

End Service.
(** * Properties *)

(** ** Facts about the string operations *)

Module PyStrFacts.

(** The operations on some texts, as Python evaluates them. *)
Example split_blocks :
  split (u "a" ++ nlnl ++ u "b" ++ nlnl) nlnl = [u "a"; u "b"; []]
  ∧ split [] nlnl = [[]]
  ∧ split (nl ++ nl ++ nl) nlnl = [[]; nl].
Proof. by vm_compute. Qed.

Example split_once :
  splitn (u "- Lesson 1.1: A: B") (u ":") 1 = [u "- Lesson 1.1"; u " A: B"]
  ∧ splitn (u "- plain") (u ":") 1 = [u "- plain"].
Proof. by vm_compute. Qed.

Example replace_all_and_once :
  replace (u "aXbXc") (u "X") [] = u "abc"
  ∧ replace (u "aaa") (u "aa") (u "b") = u "ba"
  ∧ replacen (u "- a - b") (u "- ") [] 1 = u "a - b".
Proof. by vm_compute. Qed.

Example strip_both_ends :
  strip (u "  a b " ++ nl) = u "a b" ∧ strip (u " " ++ nl) = [].
Proof. by vm_compute. Qed.

Lemma startswith_true (s p : str) :
  startswith s p = true ↔ ∃ b : str, s = p ++ b.
Proof.
  revert s. induction p as [|a p IH]; intros s.
  - destruct s; simpl; (split; [intros _; by eexists | done]).
  - destruct s as [|c s]; simpl.
    + split; [done | intros [b Hb]; discriminate].
    + rewrite andb_true_iff, N.eqb_eq, IH. split.
      * intros [-> [b ->]]. by exists b.
      * intros [b Hb]. injection Hb as -> ->. split; [done | by exists b].
Qed.

Lemma contains_true (s sub : str) :
  contains s sub = true ↔ occurs_in sub s.
Proof.
  induction s as [|c s IH].
  - cbn [contains]. rewrite orb_false_r, startswith_true. split.
    + intros [b Hb]. by exists [], b.
    + intros (a & b & Hab). destruct a as [|x a]; [by exists b | discriminate].
  - cbn [contains]. rewrite orb_true_iff, startswith_true, IH. split.
    + intros [[b Hb] | (a & b & Hab)].
      * by exists [], b.
      * exists (c :: a), b. by rewrite Hab.
    + intros (a & b & Hab). destruct a as [|x a].
      * left. by exists b.
      * right. injection Hab as -> ->. by exists a, b.
Qed.

Lemma contains_false (s sub : str) :
  contains s sub = false ↔ ¬ occurs_in sub s.
Proof.
  rewrite <- contains_true. destruct (contains s sub); split; try done.
Qed.

Lemma occurs_in_trans (h p s : str) :
  occurs_in h p → occurs_in p s → occurs_in h s.
Proof.
  intros (a & b & ->) (a' & b' & ->).
  exists (a' ++ a), (b ++ b'). by rewrite <- !app_assoc.
Qed.

(** Every piece of a split is a contiguous part of the text. *)
Lemma split_go_pieces (sep : str) (count : option nat) (skip : nat)
    (cur s p : str) :
  skip = O ∨ cur = [] →
  p ∈ split_go sep count skip cur s → occurs_in p (cur ++ s).
Proof.
  revert count skip cur. induction s as [|c s IH]; intros count skip cur Hs Hp.
  - simpl in Hp. apply list_elem_of_singleton in Hp as ->.
    exists [], []. by rewrite app_nil_r.
  - destruct skip as [|k].
    + cbn [split_go] in Hp.
      destruct (may count && startswith (c :: s) sep).
      * apply elem_of_cons in Hp as [-> | Hp].
        -- by exists [], (c :: s).
        -- apply IH in Hp; [|by right]. simpl in Hp.
           destruct Hp as (a & b & ->). exists (cur ++ c :: a), b.
           by rewrite <- app_assoc.
      * apply IH in Hp; [|by left]. by rewrite <- app_assoc in Hp.
    + destruct Hs as [? | ->]; [done|]. cbn [split_go] in Hp.
      apply IH in Hp; [|by right]. simpl in *.
      destruct Hp as (a & b & ->). by exists (c :: a), b.
Qed.

Lemma split_pieces (s sep p : str) :
  p ∈ split s sep → occurs_in p s.
Proof. intros Hp. apply split_go_pieces in Hp; [done | by left]. Qed.

(** A marker absent from a text is absent from every piece of it. *)
Lemma absent_in_pieces (s sep h p : str) :
  contains s h = false → p ∈ split s sep → contains p h = false.
Proof.
  rewrite !contains_false. intros Hs Hp Hh. apply Hs.
  eapply occurs_in_trans; [done | by eapply split_pieces].
Qed.

End PyStrFacts.

Import PyStrFacts.

(** ** Content parsing *)

Module ContentParsing.

Import ContentAgent Samples.

(** C3: on ["CONTENT:\nHello\n\nRESOURCES:\nA\nB"] the parser gives
    content ["Hello"] and resources [["A"; "B"]]; and for every text in
    which the marker ["CONTENT:"] or the marker ["RESOURCES:"] does not
    occur, the whole text is the content and the resources are empty
    (the function is total: nothing is raised). *)
Theorem parse_content_result_spec :
  _parse_content_result hello_text = mkContentDict (u "Hello") [u "A"; u "B"]
  ∧ ∀ text : str,
      ¬ occurs_in (u "CONTENT:") text ∨ ¬ occurs_in (u "RESOURCES:") text →
      _parse_content_result text = mkContentDict text [].
Proof.
  split; [by vm_compute|].
  intros text H. unfold _parse_content_result.
  rewrite <- !contains_false in H.
  destruct H as [-> | ->]; [done | by rewrite andb_false_r].
Qed.

Lemma parse_content_result_spec_witness :
  _parse_content_result (u "Hello") = mkContentDict (u "Hello") [].
Proof.
  apply (proj2 parse_content_result_spec (u "Hello")).
  left. apply contains_false. vm_compute. reflexivity.
Defined.

End ContentParsing.

(** ** Research parsing *)

Module ResearchParsing.

Import ResearchAgent ResearchSpec Samples.

(** Case analysis on the header tests of one loop iteration. *)
Ltac header_cases section :=
  unfold parse_section;
  destruct (contains section (u "RESEARCH SUMMARY:")) eqn:?;
  [|destruct (contains section (u "KEY CONCEPTS:")) eqn:?;
    [|destruct (contains section (u "RESOURCES:")) eqn:?;
      [|destruct (contains section (u "INSIGHTS:")) eqn:?]]].

(** A block without the header of [k] neither fills the field of [k]
    nor makes [k] the current section. *)
Lemma parse_section_keeps_default (k : section_name) (d : ResearchData)
    (cur : option section_name) (section : str) :
  contains section (header k) = false →
  is_default k d → cur ≠ Some k →
  is_default k (parse_section (d, cur) section).1
  ∧ (parse_section (d, cur) section).2 ≠ Some k.
Proof.
  intros Hh Hd Hc. header_cases section;
    destruct k; simpl in *; try congruence; try done;
    destruct cur as [[]|]; simpl; try congruence; try done.
Qed.

Lemma parse_sections_keep_default (k : section_name) (sections : list str)
    (acc : ResearchData * option section_name) :
  (∀ section, section ∈ sections → contains section (header k) = false) →
  is_default k acc.1 → acc.2 ≠ Some k →
  is_default k (fold_left parse_section sections acc).1.
Proof.
  revert acc. induction sections as [|section sections IH]; intros [d cur] Hs Hd Hc.
  - exact Hd.
  - cbn [fold_left].
    assert (contains section (header k) = false) as Hh
      by (apply Hs, elem_of_cons; by left).
    destruct (parse_section_keeps_default k d cur section Hh Hd Hc) as [Hd' Hc'].
    destruct (parse_section (d, cur) section) as [d' cur'] eqn:E.
    apply IH; [|done|done]. intros s' Hs'. apply Hs, elem_of_cons. by right.
Qed.

Lemma missing_header_default (k : section_name) (text : str) :
  ¬ occurs_in (header k) text → is_default k (_parse_research_result text).
Proof.
  intros H. apply contains_false in H. unfold _parse_research_result, parse_sections.
  apply parse_sections_keep_default; [|by destruct k|done].
  intros section Hs. by eapply absent_in_pieces.
Qed.

(** C5: for every research text, each of the four headers that does not
    occur in it leaves its field at the default: the empty string for
    [summary] and [insights], the empty list for [key_concepts] and
    [resources].  The parser is a total function of the text: it raises
    on no input. *)
Theorem parse_research_result_defaults (text : str) :
  (¬ occurs_in (u "RESEARCH SUMMARY:") text →
     summary (_parse_research_result text) = [])
  ∧ (¬ occurs_in (u "KEY CONCEPTS:") text →
     key_concepts (_parse_research_result text) = [])
  ∧ (¬ occurs_in (u "RESOURCES:") text →
     resources (_parse_research_result text) = [])
  ∧ (¬ occurs_in (u "INSIGHTS:") text →
     insights (_parse_research_result text) = []).
Proof.
  repeat split; intros H.
  - by apply (missing_header_default Summary).
  - by apply (missing_header_default KeyConcepts).
  - by apply (missing_header_default Resources).
  - by apply (missing_header_default Insights).
Qed.

Lemma parse_research_result_defaults_witness :
  key_concepts (_parse_research_result two_headers) = []
  ∧ insights (_parse_research_result two_headers) = []
  ∧ summary (_parse_research_result (u "no header at all")) = []
  ∧ resources (_parse_research_result (u "no header at all")) = [].
Proof.
  split; [|split; [|split]].
  - apply (proj1 (proj2 (parse_research_result_defaults two_headers))).
    apply contains_false. vm_compute. reflexivity.
  - apply (proj2 (proj2 (proj2 (parse_research_result_defaults two_headers)))).
    apply contains_false. vm_compute. reflexivity.
  - apply (proj1 (parse_research_result_defaults (u "no header at all"))).
    apply contains_false. vm_compute. reflexivity.
  - apply (proj1 (proj2 (proj2 (parse_research_result_defaults (u "no header at all"))))).
    apply contains_false. vm_compute. reflexivity.
Defined.

(** *** Texts with the four headers *)

(** C6, as stated, fails: [single_block] contains the four headers, yet
    its [insights] are empty and its [key_concepts] do not have the line
    ["a"] that stands under the header, because the whole text is one
    block and the first header tested takes it. *)
Lemma four_headers_counterexample :
  (occurs_in (u "RESEARCH SUMMARY:") single_block
   ∧ occurs_in (u "KEY CONCEPTS:") single_block
   ∧ occurs_in (u "RESOURCES:") single_block
   ∧ occurs_in (u "INSIGHTS:") single_block)
  ∧ insights (_parse_research_result single_block) = []
  ∧ key_concepts (_parse_research_result single_block) = []
  ∧ resources (_parse_research_result single_block) = [].
Proof.
  split; [|by vm_compute].
  repeat split; apply contains_true; by vm_compute.
Qed.

Lemma parse_section_opens (k : section_name) (d : ResearchData)
    (cur : option section_name) (blk : str) :
  classify blk = Some k →
  view k (parse_section (d, cur) blk).1 = opened k blk
  ∧ (parse_section (d, cur) blk).2 = Some k.
Proof.
  unfold classify. header_cases blk; intros H; by simplify_eq.
Qed.

Lemma parse_section_extends (k : section_name) (d : ResearchData) (c : str) :
  classify c = None →
  view k (parse_section (d, Some k) c).1 = extended (view k d) c
  ∧ (parse_section (d, Some k) c).2 = Some k.
Proof.
  unfold classify. header_cases c; intros H; simplify_eq. by destruct k.
Qed.

Lemma parse_section_elsewhere (k : section_name) (d : ResearchData)
    (cur : option section_name) (section : str) :
  classify section ≠ Some k →
  cur ≠ Some k ∨ classify section ≠ None →
  view k (parse_section (d, cur) section).1 = view k d
  ∧ (parse_section (d, cur) section).2 ≠ Some k.
Proof.
  unfold classify. header_cases section; intros Hk Hc; simpl;
    try (by destruct k).
  destruct Hc as [Hc|]; [|done].
  destruct cur as [[]|]; destruct k; by simpl.
Qed.

Lemma fold_extends (k : section_name) (conts : list str)
    (acc : ResearchData * option section_name) :
  Forall (fun c => classify c = None) conts →
  acc.2 = Some k →
  view k (fold_left parse_section conts acc).1
    = fold_left extended conts (view k acc.1)
  ∧ (fold_left parse_section conts acc).2 = Some k.
Proof.
  revert acc. induction conts as [|c conts IH]; intros [d cur] Hn Hc.
  - done.
  - simpl in Hc. subst cur. inversion_clear Hn as [|? ? Hc Hn'].
    destruct (parse_section_extends k d c Hc) as [Hv Hs].
    cbn [fold_left]. destruct (IH _ Hn' Hs) as [IH1 IH2].
    by rewrite IH1, IH2, Hv.
Qed.

Lemma fold_elsewhere (k : section_name) (sections : list str)
    (acc : ResearchData * option section_name) :
  Forall (fun s => classify s ≠ Some k) sections →
  acc.2 ≠ Some k →
  view k (fold_left parse_section sections acc).1 = view k acc.1.
Proof.
  revert acc. induction sections as [|s sections IH]; intros [d cur] Hn Hc.
  - done.
  - inversion_clear Hn as [|? ? Hs Hn'].
    destruct (parse_section_elsewhere k d cur s Hs (or_introl Hc)) as [Hv Hk].
    cbn [fold_left]. by rewrite (IH _ Hn' Hk), Hv.
Qed.

Lemma fold_extended_accumulated (k : section_name) (blk : str) (conts : list str) :
  fold_left extended conts (opened k blk) = accumulated k blk conts.
Proof.
  assert (∀ (cs : list str) (t : str), fold_left extended cs (inl t)
            = inl (t ++ concat (List.map (fun c => nl ++ c) cs))) as Ht.
  { induction cs as [|c cs IH]; intros t;
      cbn [fold_left extended List.map concat].
    - by rewrite app_nil_r.
    - rewrite IH. by rewrite <- app_assoc. }
  assert (∀ (cs : list str) (l : list str), fold_left extended cs (inr l)
            = inr (l ++ concat (List.map stripped_lines cs))) as Hl.
  { induction cs as [|c cs IH]; intros l;
      cbn [fold_left extended List.map concat].
    - by rewrite app_nil_r.
    - rewrite IH. by rewrite <- app_assoc. }
  destruct k; simpl; by rewrite ?Ht, ?Hl.
Qed.

(** The field of [k] is decided by the last block filed under [k] and
    the headerless blocks that follow it directly. *)
Lemma parse_sections_field (k : section_name)
    (before : list str) (blk : str) (conts after : list str) :
  classify blk = Some k →
  Forall (fun c => classify c = None) conts →
  Forall (fun s => classify s ≠ Some k) after →
  head after ≫= classify ≠ None ∨ after = [] →
  view k (parse_sections (before ++ blk :: conts ++ after)).1
    = accumulated k blk conts.
Proof.
  intros Hb Hc Ha Hh. unfold parse_sections.
  rewrite fold_left_app. cbn [fold_left]. rewrite fold_left_app.
  destruct (fold_left parse_section before (initial, None)) as [d0 cur0].
  destruct (parse_section_opens k d0 cur0 blk Hb) as [Hv Hs].
  destruct (fold_extends k conts _ Hc Hs) as [Hv' Hs'].
  rewrite Hv, fold_extended_accumulated in Hv'.
  destruct after as [|a after].
  - done.
  - destruct Hh as [Hh|]; [|done]. simpl in Hh.
    inversion_clear Ha as [|? ? Ha1 Ha2]. cbn [fold_left].
    destruct (fold_left parse_section conts _) as [d1 cur1].
    destruct (parse_section_elsewhere k d1 cur1 a Ha1 (or_intror Hh)) as [Hv1 Hk1].
    by rewrite (fold_elsewhere k after _ Ha2 Hk1), Hv1.
Qed.

(** C6, amended: take any research text and any of the four headers
    [k].  Let [blk] be the last blank-line-separated block filed under
    [k] (the headers are tested in the order RESEARCH SUMMARY:, KEY
    CONCEPTS:, RESOURCES:, INSIGHTS: and the first one contained in a
    block wins), and [conts] the headerless blocks that follow it up to
    the next block with a header.  Then [summary] and [insights] are the
    block with the header removed and trimmed, followed by a newline and
    the text of each block of [conts]; they are non-empty exactly when
    that trimmed text is non-empty or [conts] is; [key_concepts] and
    [resources] are exactly the non-empty trimmed lines of the block
    with the header removed, followed by those of the blocks of
    [conts].  The four headers may come in any order. *)
Theorem parse_research_result_fields (text : str) (k : section_name)
    (before : list str) (blk : str) (conts after : list str) :
  split text nlnl = before ++ blk :: conts ++ after →
  classify blk = Some k →
  Forall (fun c => classify c = None) conts →
  Forall (fun s => classify s ≠ Some k) after →
  head after ≫= classify ≠ None ∨ after = [] →
  view k (_parse_research_result text) = accumulated k blk conts
  ∧ (∀ t : str, view k (_parse_research_result text) = inl t →
       t ≠ [] ↔ body k blk ≠ [] ∨ conts ≠ []).
Proof.
  intros Hsplit Hb Hc Ha Hh.
  assert (view k (_parse_research_result text) = accumulated k blk conts) as Hv.
  { unfold _parse_research_result. rewrite Hsplit.
    by apply parse_sections_field. }
  split; [done|]. intros t Ht. rewrite Hv in Ht.
  assert (t = body k blk ++ concat (List.map (fun c => nl ++ c) conts)) as ->.
  { destruct k; simpl in Ht; by simplify_eq. }
  destruct (body k blk) as [|x b]; [|by split; [left|]].
  destruct conts as [|c conts]; simpl.
  - split; [done | by intros [|]].
  - split; [by right | done].
Qed.

Lemma parse_research_result_fields_witness :
  view Summary (_parse_research_result shuffled)
    = inl (u "S" ++ nl ++ u "more")
  ∧ view KeyConcepts (_parse_research_result shuffled) = inr [u "a"; u "b"].
Proof.
  split.
  - apply (parse_research_result_fields shuffled Summary
             [u "INSIGHTS:" ++ nl ++ u "I"]
             (u "RESEARCH SUMMARY:" ++ nl ++ u "S")
             [u "more"]
             [u "KEY CONCEPTS:" ++ nl ++ u " a "; u "b";
              u "RESOURCES:" ++ nl ++ u "r"]).
    + vm_compute. reflexivity.
    + vm_compute. reflexivity.
    + repeat constructor.
    + repeat constructor; vm_compute; discriminate.
    + left. vm_compute. discriminate.
  - apply (parse_research_result_fields shuffled KeyConcepts
             [u "INSIGHTS:" ++ nl ++ u "I";
              u "RESEARCH SUMMARY:" ++ nl ++ u "S"; u "more"]
             (u "KEY CONCEPTS:" ++ nl ++ u " a ")
             [u "b"]
             [u "RESOURCES:" ++ nl ++ u "r"]).
    + vm_compute. reflexivity.
    + vm_compute. reflexivity.
    + repeat constructor.
    + repeat constructor; vm_compute; discriminate.
    + left. vm_compute. discriminate.
Defined.

End ResearchParsing.

(** ** Structure parsing *)

Module StructureParsing.

Import StructureAgent StructureSpec Samples.

(** C4, as stated, fails: [rationale_module] is a single block, its
    first line begins with ["MODULE "] and it has one lesson line, yet
    no module is parsed: the block contains ["RATIONALE:"], which is
    tested before the module prefix. *)
Lemma module_blocks_counterexample :
  split rationale_module nlnl = [rationale_module]
  ∧ startswith (List.hd [] (split rationale_module nl)) (u "MODULE ") = true
  ∧ List.tl (split rationale_module nl) = [u "- Lesson 1.1: A"]
  ∧ modules (_parse_structure_result rationale_module) = []
  ∧ rationale (_parse_structure_result rationale_module)
    = u "MODULE 1:  why" ++ nl ++ u "- Lesson 1.1: A".
Proof. by vm_compute. Qed.

(** *** The code does that *)

Lemma split_go_exhausted (sep cur s : str) :
  split_go sep (Some O) O cur s = [cur ++ s].
Proof.
  revert cur. induction s as [|c s IH]; intros cur; simpl.
  - by rewrite app_nil_r.
  - by rewrite IH, <- app_assoc.
Qed.

Lemma replace_go_exhausted (old new s : str) :
  replace_go old new (Some O) O s = s.
Proof. induction s as [|c s IH]; simpl; [done | by rewrite IH]. Qed.

Lemma split_colon_once (cur line : str) :
  split_go (u ":") (Some 1%nat) O cur line
  = match after_first_colon line with
    | Some rest => [cur ++ take (length line - S (length rest)) line; rest]
    | None => [cur ++ line]
    end.
Proof.
  revert cur. induction line as [|c line IH]; intros cur.
  - simpl. by rewrite app_nil_r.
  - cbn [split_go after_first_colon]. change (u ":") with [58].
    cbn [may startswith used Nat.pred length andb].
    rewrite (N.eqb_sym 58 c). destruct (c =? 58) eqn:E.
    + destruct line; simpl; rewrite ?split_go_exhausted, ?Nat.sub_diag;
        by rewrite ?app_nil_r.
    + simpl. rewrite IH. destruct (after_first_colon line) as [rest|] eqn:Er.
      * rewrite <- app_assoc. simpl.
        assert (length rest < length line)%nat as Hlen.
        { clear -Er. revert rest Er. induction line as [|x line IH]; intros rest Er.
          - done.
          - simpl in Er. destruct (x =? 58).
            + simplify_eq. simpl. lia.
            + apply IH in Er. simpl. lia. }
        replace (length line - length rest)%nat
          with (S (length line - S (length rest))) by lia.
        done.
      * by rewrite <- app_assoc.
Qed.

Lemma replace_dash_once (line : str) :
  startswith line (u "- ") = true →
  replacen line (u "- ") [] 1 = drop 2 line.
Proof.
  intros H. apply startswith_true in H as [rest ->].
  unfold replacen. change (u "- ") with [45; 32].
  cbn [app replace_go may andb].
  assert (startswith (45 :: 32 :: rest) [45; 32] = true) as ->
    by (apply startswith_true; by exists rest).
  cbn [used Nat.pred length app replace_go drop].
  apply replace_go_exhausted.
Qed.

Lemma lesson_prefixes (line : str) :
  startswith line (u "- Lesson ") || startswith line (u "- ")
  = is_lesson_line line.
Proof.
  unfold is_lesson_line.
  destruct (startswith line (u "- Lesson ")) eqn:E; [|done].
  apply startswith_true in E as [rest ->].
  symmetry. apply startswith_true. by exists (u "Lesson " ++ rest).
Qed.

Lemma parse_lesson_line_spec (lessons : list LessonSkeleton) (line : str) :
  parse_lesson_line lessons line
  = lessons ++ List.map (fun l => mkLessonSkeleton (lesson_title_of l) [])
                 (List.filter is_lesson_line [strip line]).
Proof.
  unfold parse_lesson_line. rewrite lesson_prefixes.
  cbn [List.filter List.map].
  destruct (is_lesson_line (strip line)) eqn:E; [|by rewrite app_nil_r].
  cbn [List.map]. unfold splitn, lesson_title_of. rewrite split_colon_once.
  destruct (after_first_colon (strip line)) eqn:Ea; [done|].
  by rewrite replace_dash_once.
Qed.

Lemma parse_lesson_lines_spec (lines : list str) (lessons : list LessonSkeleton) :
  fold_left parse_lesson_line lines lessons
  = lessons ++ List.map (fun l => mkLessonSkeleton (lesson_title_of l) [])
                 (List.filter is_lesson_line (List.map strip lines)).
Proof.
  revert lessons. induction lines as [|line lines IH]; intros lessons.
  - simpl. by rewrite app_nil_r.
  - cbn [fold_left]. rewrite IH, parse_lesson_line_spec. simpl.
    destruct (is_lesson_line (strip line)); simpl.
    + by rewrite <- app_assoc.
    + by rewrite app_nil_r.
Qed.

Lemma parse_module_spec (blk : str) : parse_module blk = module_of blk.
Proof. unfold parse_module, module_of. by rewrite parse_lesson_lines_spec. Qed.

Lemma parse_section_modules (d : CourseStructure) (section : str) :
  modules (parse_section d section)
  = modules d ++ List.map module_of (List.filter is_module_block [strip section]).
Proof.
  unfold parse_section, is_module_block. simpl.
  destruct (contains (strip section) (u "COURSE TITLE:")); simpl;
    [by rewrite app_nil_r|].
  destruct (contains (strip section) (u "COURSE DESCRIPTION:")); simpl;
    [by rewrite app_nil_r|].
  destruct (contains (strip section) (u "RATIONALE:")); simpl;
    [by rewrite app_nil_r|].
  destruct (startswith (strip section) (u "MODULE ")); simpl;
    [by rewrite parse_module_spec | by rewrite app_nil_r].
Qed.

Lemma parse_sections_modules (sections : list str) (d : CourseStructure) :
  modules (fold_left parse_section sections d)
  = modules d ++ List.map module_of
                   (List.filter is_module_block (List.map strip sections)).
Proof.
  revert d. induction sections as [|section sections IH]; intros d.
  - simpl. by rewrite app_nil_r.
  - cbn [fold_left]. rewrite IH, parse_section_modules. simpl.
    destruct (is_module_block (strip section)); simpl.
    + by rewrite <- app_assoc.
    + by rewrite app_nil_r.
Qed.

(** C4, amended: for every structure text, the modules parsed are, in
    encounter order, exactly those of the blank-line-separated blocks
    that, once trimmed, begin with ["MODULE "] and contain none of
    ["COURSE TITLE:"], ["COURSE DESCRIPTION:"] and ["RATIONALE:"]; so
    there are as many modules as such blocks.  The title of a module is
    the trimmed first line of its block (the [MODULE N:] prefix stays);
    its lessons are, in order, the later lines that begin with ["- "]
    once trimmed, so there are as many lessons as such lines; a lesson
    title is the trimmed text after the first colon of its line if the
    line has a colon, else the trimmed line without its leading ["- "]. *)
Theorem parse_structure_result_modules (text : str) :
  modules (_parse_structure_result text) = modules_of text
  ∧ length (modules (_parse_structure_result text))
    = length (List.filter is_module_block (List.map strip (split text nlnl)))
  ∧ Forall2 (fun m blk =>
       length (module_lessons m)
       = length (List.filter is_lesson_line
                   (List.map strip (List.tl (split blk nl)))))
      (modules (_parse_structure_result text))
      (List.filter is_module_block (List.map strip (split text nlnl))).
Proof.
  assert (modules (_parse_structure_result text) = modules_of text) as ->.
  { unfold _parse_structure_result. by rewrite parse_sections_modules. }
  unfold modules_of. split; [done|]. split; [by rewrite length_map|].
  induction (List.filter is_module_block _) as [|blk blks IH]; cbn [List.map].
  - constructor.
  - constructor; [|done].
    unfold module_of. cbn [module_lessons]. by rewrite length_map.
Qed.

End StructureParsing.

(** ** The Finalize stage *)

Module FinalizeStage.

Import Orchestrator LangGraph Run Samples.

Lemma finalize_course_settled (state : AgentState) :
  settled (finalize_course state).1.
Proof.
  unfold settled, finalize_course. destruct (course_structure state); [|by left].
  destruct (negb (truthy_dict (content_data state))); [by left | by right].
Qed.

Lemma should_end_settled (state : AgentState) :
  settled state → should_end state = route_end.
Proof.
  intros [Ht | Hf]; unfold should_end.
  - by rewrite Ht.
  - destruct (truthy_str (error state)); [done|]. by rewrite bool_decide_true.
Qed.

Lemma apply_update_settled (p : update_policy) (old new : AgentState) :
  settled new → settled (apply_update p old new).
Proof.
  destruct p; [done|]. intros [Ht | [fc Hf]]; unfold settled; simpl.
  - left. destruct (error new); [done | discriminate].
  - right. by rewrite Hf.
Qed.

(** After Finalize the graph goes to [END]. *)
Lemma finalize_then_end (p : update_policy) (b : Backend) (state : AgentState) :
  next (build_course_generation_graph b) Finalize
    (apply_update p state (finalize_course state).1) = END.
Proof.
  cbn [next build_course_generation_graph].
  by rewrite should_end_settled
    by apply apply_update_settled, finalize_course_settled.
Qed.

(** C9: for every input state, the state returned by [finalize_course]
    has a truthy [error] or a [final_course]; [should_end] answers
    ["end"] on it, and also on the state of the graph once the update
    is applied, so the edge from Finalize back to itself is never
    taken. *)
Theorem finalize_sets_error_or_final_course (p : update_policy)
    (b : Backend) (state : AgentState) :
  (truthy_str (error (finalize_course state).1) = true
   ∨ is_Some (final_course (finalize_course state).1))
  ∧ should_end (finalize_course state).1 = route_end
  ∧ should_end (apply_update p state (finalize_course state).1) = route_end
  ∧ next (build_course_generation_graph b) Finalize
      (apply_update p state (finalize_course state).1) = END.
Proof.
  pose proof (finalize_course_settled state) as Hset.
  split; [exact Hset|].
  split; [by apply should_end_settled|].
  split.
  - by apply should_end_settled, apply_update_settled.
  - cbn [next build_course_generation_graph].
    destruct (should_end (apply_update p state (finalize_course state).1)) eqn:E;
      [done|].
    by rewrite should_end_settled in E by by apply apply_update_settled.
Qed.

(** C7, as stated, fails: in [no_modules] both [course_structure] and
    [content_data] are set, yet [finalize_course] produces no
    [final_course] but the error of a missing [content_data]: the empty
    dictionary is falsy. *)
Lemma finalize_empty_content_counterexample :
  is_Some (course_structure no_modules)
  ∧ is_Some (content_data no_modules)
  ∧ final_course (finalize_course no_modules).1 = None
  ∧ error (finalize_course no_modules).1
    = Some (u "Missing content data for finalizing the course").
Proof.
  split; [by eexists|]. split; [by eexists|]. split; by vm_compute.
Qed.

Lemma copy_lessons_id (entries : list LessonDict) :
  List.map copy_lesson entries = entries.
Proof.
  induction entries as [|[] entries IH]; simpl; [done | by rewrite IH].
Qed.

Lemma finalize_course_ok (state : AgentState)
    (cs : StructureAgent.CourseStructure) (cd : gmap str (list LessonDict)) :
  course_structure state = Some cs →
  content_data state = Some cd →
  cd ≠ ∅ →
  finalize_course state
  = (mkAgentState (brief state) (target_audience state) (course_duration state)
       (research_data state) (Some cs) (Some cd)
       (Some (mkCourseDict (StructureAgent.course_title cs)
                (StructureAgent.course_description cs)
                (List.map (finalize_module cd) (StructureAgent.modules cs))
                (gather_references (research_data state)))) None, []).
Proof.
  intros Hcs Hcd Hne. unfold finalize_course. rewrite Hcs, Hcd. simpl.
  by rewrite bool_decide_false.
Qed.

Lemma finalize_course_empty (state : AgentState)
    (cs : StructureAgent.CourseStructure) :
  course_structure state = Some cs →
  content_data state = Some ∅ →
  finalize_course state
  = (mkAgentState (brief state) (target_audience state) (course_duration state)
       (research_data state) (Some cs) None None
       (Some (u "Missing content data for finalizing the course")), []).
Proof.
  intros Hcs Hcd. unfold finalize_course. rewrite Hcs, Hcd. simpl.
  by rewrite bool_decide_true.
Qed.

(** C7, amended: given a state in which [course_structure] is set and
    [content_data] is set and not empty, [finalize_course] sets no error
    and produces a [final_course] with the title and description of the
    structure, one module per module of [course_structure] in order,
    whose title is the module's and whose lessons are the entry of
    [content_data] under exactly that title, the empty list when there
    is none; its [references] are the resources of [research_data] when
    that is set and the empty list otherwise. *)
Theorem finalize_course_assembles (state : AgentState)
    (cs : StructureAgent.CourseStructure) (cd : gmap str (list LessonDict)) :
  course_structure state = Some cs →
  content_data state = Some cd →
  cd ≠ ∅ →
  ∃ fc : CourseDict,
    final_course (finalize_course state).1 = Some fc
    ∧ error (finalize_course state).1 = None
    ∧ course_title fc = StructureAgent.course_title cs
    ∧ description fc = StructureAgent.course_description cs
    ∧ Forall2 (fun m fm =>
         module_title fm = StructureAgent.module_title m
         ∧ lessons fm = default [] (cd !! StructureAgent.module_title m))
        (StructureAgent.modules cs) (modules fc)
    ∧ references fc
      = match research_data state with
        | Some rd => ResearchAgent.get_resources rd
        | None => []
        end.
Proof.
  intros Hcs Hcd Hne. rewrite (finalize_course_ok state cs cd Hcs Hcd Hne).
  eexists. split; [done|]. cbn [error course_title description modules references snd fst].
  repeat split.
  - induction (StructureAgent.modules cs) as [|m ms IH]; simpl; constructor; [|done].
    unfold finalize_module. simpl. by rewrite copy_lessons_id.
  - unfold gather_references. by destruct (research_data state) as [[]|].
Qed.

Lemma finalize_course_assembles_witness :
  ∃ fc : CourseDict,
    final_course (finalize_course half_filled).1 = Some fc
    ∧ error (finalize_course half_filled).1 = None
    ∧ course_title fc = u "T"
    ∧ description fc = u "D"
    ∧ Forall2 (fun m fm =>
         module_title fm = StructureAgent.module_title m
         ∧ lessons fm
           = default []
               (({[ u "MODULE 1: A" := [mkLessonDict (u "L1") (u "text") [u "x"]] ]}
                  : gmap str (list LessonDict))
                !! StructureAgent.module_title m))
        [StructureAgent.mkModuleSkeleton (u "MODULE 1: A")
           [StructureAgent.mkLessonSkeleton (u "L1") []];
         StructureAgent.mkModuleSkeleton (u "MODULE 2: B")
           [StructureAgent.mkLessonSkeleton (u "L2") []]]
        (modules fc)
    ∧ references fc = [u "r1"; u "r2"].
Proof.
  apply (finalize_course_assembles half_filled
           (StructureAgent.mkCourseStructure (u "T") (u "D")
             [StructureAgent.mkModuleSkeleton (u "MODULE 1: A")
                [StructureAgent.mkLessonSkeleton (u "L1") []];
              StructureAgent.mkModuleSkeleton (u "MODULE 2: B")
                [StructureAgent.mkLessonSkeleton (u "L2") []]] [])
           {[ u "MODULE 1: A" := [mkLessonDict (u "L1") (u "text") [u "x"]] ]}).
  - reflexivity.
  - reflexivity.
  - apply insert_non_empty.
Defined.

End FinalizeStage.

(** ** The run of the graph *)

Module GraphRun.

Import Orchestrator LangGraph Run.

Section Loop.

Context {State Node Log : Type}.
Variable update : State → State → State.
Variable g : StateGraph State Node Log.

Local Abbreviation step_of := (Run.step_of update g).

Lemma loop_goto (limit : nat) (n m : Node) (st : State) :
  next g n (state_after (step_of n st)) = Goto m →
  loop update g (S limit) n st
  = (step_of n st :: (loop update g limit m (state_after (step_of n st))).1,
     (loop update g limit m (state_after (step_of n st))).2).
Proof.
  unfold step_of. cbn [loop state_after].
  destruct (action g n st) as [ret log]. cbn [fst snd]. intros ->.
  by destruct (loop update g limit m (update st ret)).
Qed.

Lemma loop_end (limit : nat) (n : Node) (st : State) :
  next g n (state_after (step_of n st)) = END →
  loop update g (S limit) n st
  = ([step_of n st], Some (state_after (step_of n st))).
Proof.
  unfold step_of. cbn [loop state_after].
  destruct (action g n st) as [ret log]. cbn [fst snd]. by intros ->.
Qed.

End Loop.

Section Request.

Variable p : update_policy.
Variable b : Backend.
Variable brief : str.
Variables target_audience course_duration : option str.

Local Abbreviation workflow := (Run.workflow b).
Local Abbreviation initial_state :=
  (Run.initial_state brief target_audience course_duration).
Local Abbreviation step1 := (Run.step1 p b brief target_audience course_duration).
Local Abbreviation step2 := (Run.step2 p b brief target_audience course_duration).
Local Abbreviation step3 := (Run.step3 p b brief target_audience course_duration).
Local Abbreviation step4 := (Run.step4 p b brief target_audience course_duration).
Local Abbreviation rd1 := (Run.rd1 b brief target_audience course_duration).
Local Abbreviation structure1 :=
  (Run.structure1 b brief target_audience course_duration).
Local Abbreviation known := (Run.known b brief target_audience course_duration).
Local Abbreviation fanout_of := (Run.fanout_of b).
Local Abbreviation assembled :=
  (Run.assembled b brief target_audience course_duration).

(** Every request runs the four stage functions, each once, in order,
    and reaches [END]: the library raises nothing. *)
Lemma ainvoke_steps :
  ainvoke (apply_update p) workflow initial_state
  = ([step1; step2; step3; step4], Some (state_after step4)).
Proof.
  unfold ainvoke, recursion_limit. cbn [entry_point workflow build_course_generation_graph].
  rewrite (loop_goto _ _ _ Research Structure) by done.
  rewrite (loop_goto _ _ _ Structure Content) by done.
  rewrite (loop_goto _ _ _ Content Finalize) by done.
  rewrite loop_end; [done|].
  apply FinalizeStage.finalize_then_end.
Qed.

Lemma generate_course_steps :
  generate_course p b brief target_audience course_duration
  = (inspect_result (state_after step4), [step1; step2; step3; step4]).
Proof.
  unfold generate_course. fold initial_state. fold workflow.
  by rewrite ainvoke_steps.
Qed.

(** *** The states a request goes through *)

Lemma keep_same {A : Type} (x : option A) : keep x x = x.
Proof. by destruct x. Qed.

Lemma state1 : state_after step1 = known None None None None.
Proof.
  unfold step1, step_of, known, rd1. cbn [state_after action workflow
    build_course_generation_graph]. unfold research_course_topic.
  cbn [Orchestrator.brief Orchestrator.target_audience Orchestrator.course_duration initial_state].
  destruct (ResearchAgent.research_topic _ _ _ _) as [rd calls]. cbn [fst].
  destruct p; cbn; by rewrite ?keep_same.
Qed.

Lemma state2 :
  state_after step2
  = match structure1 with
    | inl cs => known (Some cs) None None None
    | inr e => known None None None (Some (u "Structure creation error: " ++ e))
    end.
Proof.
  unfold step2, step_of. rewrite state1. unfold structure1, known.
  cbn [state_after action workflow build_course_generation_graph].
  unfold create_course_structure.
  cbn [research_data Orchestrator.brief Orchestrator.target_audience Orchestrator.course_duration].
  destruct (StructureAgent.create_structure _ _ _ _ _) as [[cs | e] calls];
    cbn [fst]; destruct p; cbn; by rewrite ?keep_same.
Qed.

Lemma generate_course_content_some (state : AgentState)
    (cs : StructureAgent.CourseStructure) :
  course_structure state = Some cs →
  generate_course_content b state
  = (mkAgentState (Orchestrator.brief state) (Orchestrator.target_audience state)
       (Orchestrator.course_duration state) (research_data state) (Some cs)
       (Some (fanout_of state cs).1.1) None None,
     (fanout_of state cs).2).
Proof.
  intros Hcs. unfold generate_course_content, fanout_of. rewrite Hcs.
  by destruct (fold_left _ _ _) as [[cd k] log].
Qed.

Lemma state3 :
  state_after step3
  = match structure1 with
    | inl cs =>
        known (Some cs) (Some (fanout_of (known (Some cs) None None None) cs).1.1)
          None None
    | inr e => known None None None (Some no_structure_for_content)
    end
  ∧ (∀ e, structure1 = inr e → logged step3 = []).
Proof.
  unfold step3, step_of. rewrite state2.
  cbn [state_after logged action workflow build_course_generation_graph].
  destruct structure1 as [cs | e].
  - rewrite (generate_course_content_some _ cs) by done. split; [|done].
    cbn [fst]. unfold known. destruct p; cbn; by rewrite ?keep_same.
  - split; [|done]. unfold known. destruct p; cbn; by rewrite ?keep_same.
Qed.

Lemma state4 :
  match structure1 with
  | inl cs =>
      let cd := (fanout_of (known (Some cs) None None None) cs).1.1 in
      if bool_decide (cd = ∅) then
        error (state_after step4) = Some no_content_for_finalize
        ∧ final_course (state_after step4) = None
      else
        state_after step4 = known (Some cs) (Some cd) (Some (assembled cs cd)) None
  | inr e =>
      state_after step4 = known None None None (Some no_structure_for_finalize)
      ∧ logged step4 = []
  end.
Proof.
  unfold step4, step_of. rewrite (proj1 state3).
  cbn [state_after logged action workflow build_course_generation_graph].
  destruct structure1 as [cs | e].
  - cbn zeta. case_bool_decide as Hcd.
    + rewrite (FinalizeStage.finalize_course_empty _ cs) by (by cbn; rewrite ?Hcd).
      destruct p; by cbn.
    + rewrite (FinalizeStage.finalize_course_ok _ cs _) by done.
      unfold known, assembled. destruct p; cbn; by rewrite ?keep_same.
  - unfold known. split; [|done]. destruct p; cbn; by rewrite ?keep_same.
Qed.

(** The error of the last state, when set, is not the empty string. *)
Lemma last_error_truthy (e : str) :
  error (state_after step4) = Some e → truthy e = true.
Proof.
  pose proof state4 as H. destruct structure1 as [cs | e'].
  - cbn zeta in H. case_bool_decide.
    + destruct H as [-> _]. by intros [= <-].
    + rewrite H. discriminate.
  - destruct H as [-> _]. by intros [= <-].
Qed.

Lemma inspect_last_state :
  inspect_result (state_after step4)
  = match error (state_after step4) with
    | Some e => inr (u "Course generation failed: " ++ e)
    | None =>
        match final_course (state_after step4) with
        | None => inr (u "Course generation failed: No final course data available")
        | Some final_course_data => inl (to_course_response final_course_data)
        end
    end.
Proof.
  unfold inspect_result.
  destruct (error (state_after step4)) as [e|] eqn:E; [|done].
  cbn [truthy_str or_empty]. by rewrite (last_error_truthy e E).
Qed.

(** C8: every request reaches a terminal state [result], and what
    [generate_course] does is decided by that state.  If [error] is set
    in it, [generate_course] raises a failure whose message is ["Course
    generation failed: "] followed by that error; otherwise, if
    [final_course] is unset, it raises the failure with the generic
    message; otherwise it returns [final_course] converted to a
    [CourseResponse]: the public course with the same fields.  The
    decision is the same for every last state, also for one that no run
    of this graph ends in (an error that is the empty string counts as
    unset; no run ends with one).  The endpoint answers a returned
    course with it, and a raised failure with status 500 and the detail
    ["Failed to generate course: "] followed by the message of the
    failure. *)
Theorem generate_course_outcome :
  (∃ (result : AgentState) (trace : list (step AgentState node call)),
     ainvoke (apply_update p) (build_course_generation_graph b)
       (mkAgentState brief target_audience course_duration
          None None None None None)
     = (trace, Some result)
     ∧ error result ≠ Some []
     ∧ (generate_course p b brief target_audience course_duration).1
       = match error result with
         | Some e => inr (u "Course generation failed: " ++ e)
         | None =>
             match final_course result with
             | None =>
                 inr (u "Course generation failed: No final course data available")
             | Some final_course_data => inl (public_course final_course_data)
             end
         end)
  ∧ (∀ last : AgentState,
       inspect_result last
       = match error last with
         | Some (c :: e) => inr (u "Course generation failed: " ++ c :: e)
         | _ =>
             match final_course last with
             | None =>
                 inr (u "Course generation failed: No final course data available")
             | Some final_course_data => inl (public_course final_course_data)
             end
         end)
  ∧ CourseRouter.create_course p b brief target_audience course_duration
    = match (generate_course p b brief target_audience course_duration).1 with
      | inl course => CourseRouter.Ok200 course
      | inr message =>
          CourseRouter.HTTPException 500
            (u "Failed to generate course: " ++ message)
      end.
Proof.
  split; [|split; [|done]].
  - exists (state_after step4), [step1; step2; step3; step4].
    split; [apply ainvoke_steps|]. split.
    + intros E. by apply last_error_truthy in E.
    + rewrite generate_course_steps. cbn [fst]. rewrite inspect_last_state.
      destruct (error (state_after step4)); [done|].
      by destruct (final_course (state_after step4)).
  - intros last. unfold inspect_result.
    destruct (error last) as [[|c e]|]; cbn [truthy_str truthy or_empty];
      by destruct (final_course last).
Qed.

Lemma no_error_before_structure : error (state_after step1) = None.
Proof. by rewrite state1. Qed.

(** The edges between the stages are unconditional, so
    every request runs the four stage functions, each once, in order.
    Whenever a stage leaves a state with [error] set, every later stage
    function returns at its prerequisite check: it invokes no chain,
    leaves [error] set and populates none of [course_structure],
    [content_data] and [final_course]; and [generate_course] raises a
    failure. *)
Theorem error_stops_later_work :
  List.map ran (generate_course p b brief target_audience course_duration).2
  = [Research; Structure; Content; Finalize]
  ∧ (∀ (i j : nat) (si sj : step AgentState node call),
       (i < j)%nat →
       (generate_course p b brief target_audience course_duration).2 !! i = Some si →
       (generate_course p b brief target_audience course_duration).2 !! j = Some sj →
       is_Some (error (state_after si)) →
       logged sj = []
       ∧ is_Some (error (state_after sj))
       ∧ course_structure (state_after sj) = None
       ∧ content_data (state_after sj) = None
       ∧ final_course (state_after sj) = None)
  ∧ ((∃ s : step AgentState node call,
        s ∈ (generate_course p b brief target_audience course_duration).2
        ∧ is_Some (error (state_after s))) →
     ∃ message : str,
       (generate_course p b brief target_audience course_duration).1 = inr message).
Proof.
  rewrite generate_course_steps. cbn [fst snd]. split; [done|].
  pose proof state2 as H2. pose proof state3 as [H3 L3]. pose proof state4 as H4.
  pose proof no_error_before_structure as H1.
  destruct structure1 as [cs | e].
  - (* the structure was created: no error before the last stage *)
    split.
    + intros i j si sj Hij Hi Hj [x Hx].
      destruct i as [|[|[|[|i]]]]; cbn in Hi; simplify_eq;
        try (rewrite ?H1, ?H2, ?H3 in Hx; discriminate).
      destruct j as [|[|[|[|j]]]]; cbn in Hj; simplify_eq; lia.
    + intros (s & Hs & [x Hx]). rewrite inspect_last_state. cbn zeta in H4.
      case_bool_decide.
      * destruct H4 as [-> _]. by eexists.
      * exfalso. rewrite !elem_of_cons in Hs.
        destruct Hs as [-> | [-> | [-> | [-> | Hs]]]];
          rewrite ?H1, ?H2, ?H3, ?H4 in Hx; try discriminate.
        by apply elem_of_nil in Hs.
  - (* the structure agent raised: the later stages only report *)
    destruct H4 as [H4 L4]. specialize (L3 e eq_refl). split.
    + intros i j si sj Hij Hi Hj [x Hx].
      destruct i as [|[|[|[|i]]]]; cbn in Hi; simplify_eq;
        try (rewrite H1 in Hx; discriminate);
        destruct j as [|[|[|[|j]]]]; cbn in Hj; simplify_eq; try lia;
        rewrite ?H3, ?H4, ?L3, ?L4; by cbn.
    + intros _. rewrite inspect_last_state, H4. by eexists.
Qed.

End Request.

End GraphRun.

(** ** Failures of the generation service *)

Module Failures.

Import Orchestrator LangGraph Run Samples.

(** C1: the claim fails on the code at the request of [research_fails],
    whose research chain raises ["boom"].  [research_topic] catches the
    exception and returns the dictionary [{"error": "Research failed:
    boom"}], where its sibling [create_structure] lets the exception of
    its chain through.  The Research stage stores the dictionary as
    [research_data] and leaves [error] unset; the Structure stage is
    invoked and invokes its chain, so does the Content stage; and
    [generate_course] raises nothing: it returns a course, in which the
    text of the failure occurs nowhere. *)
Lemma research_failure_goes_unreported :
  ∀ p : update_policy,
    ResearchAgent.research_topic research_fails (u "brief") [] []
    = (ResearchAgent.Failed (u "Research failed: boom"), [mkCall AResearch 0])
    ∧ StructureAgent.create_structure structure_fails (u "brief")
        (ResearchAgent.Parsed ResearchAgent.initial) [] []
      = (inr (u "boom"), [mkCall AStructure 0])
    ∧ research_data
        (state_after (Run.step1 p research_fails (u "brief") None None))
      = Some (ResearchAgent.Failed (u "Research failed: boom"))
    ∧ error (state_after (Run.step1 p research_fails (u "brief") None None))
      = None
    ∧ summary_of (generate_course p research_fails (u "brief") None None).2
      = [(Research, [mkCall AResearch 0], None);
         (Structure, [mkCall AStructure 0], None);
         (Content, [mkCall AContent 0], None);
         (Finalize, [], None)]
    ∧ (generate_course p research_fails (u "brief") None None).1
      = inl (Models.mkCourseResponse (u "T") []
               [Models.mkCourseModule (u "MODULE 1: A")
                  [Models.mkLesson (u "L1") (u "Hello") [u "A"]]] []).
Proof.
  intros []; repeat split; by vm_compute.
Qed.

(** What a raising chain leads to.  When the research chain raises, the
    Structure stage is invoked all the same, it invokes its chain, and
    [generate_course] raises nothing: it returns a course.  When the
    structure chain raises, the Structure stage returns a state with
    [error] set, yet the Content and Finalize stage functions run, and
    the failure that [generate_course] raises carries the message of
    the Finalize stage, in which the original text ["boom"] does not
    occur. *)
Lemma error_short_circuit_counterexample :
  (∀ p : update_policy,
     (generate_course p research_fails (u "brief") None None).1
     = inl (Models.mkCourseResponse (u "T") []
              [Models.mkCourseModule (u "MODULE 1: A")
                 [Models.mkLesson (u "L1") (u "Hello") [u "A"]]] [])
     ∧ summary_of (generate_course p research_fails (u "brief") None None).2
       = [(Research, [mkCall AResearch 0], None);
          (Structure, [mkCall AStructure 0], None);
          (Content, [mkCall AContent 0], None);
          (Finalize, [], None)])
  ∧ (∀ p : update_policy,
       (generate_course p structure_fails (u "brief") None None).1
       = inr (u "Course generation failed: Missing course structure for finalizing the course")
       ∧ contains
           (u "Course generation failed: Missing course structure for finalizing the course")
           (u "boom") = false
       ∧ summary_of (generate_course p structure_fails (u "brief") None None).2
         = [(Research, [mkCall AResearch 0], None);
            (Structure, [mkCall AStructure 0],
             Some (u "Structure creation error: boom"));
            (Content, [],
             Some (u "No course structure available for generating content"));
            (Finalize, [],
             Some (u "Missing course structure for finalizing the course"))]).
Proof.
  split; intros []; repeat split; by vm_compute.
Qed.

Lemma error_stops_later_work_witness :
  logged (Run.step3 WriteSet structure_fails (u "brief") None None) = []
  ∧ is_Some (error (state_after
                      (Run.step3 WriteSet structure_fails (u "brief") None None)))
  ∧ course_structure
      (state_after (Run.step3 WriteSet structure_fails (u "brief") None None))
    = None
  ∧ content_data
      (state_after (Run.step3 WriteSet structure_fails (u "brief") None None))
    = None
  ∧ final_course
      (state_after (Run.step3 WriteSet structure_fails (u "brief") None None))
    = None.
Proof.
  apply (proj1 (proj2 (GraphRun.error_stops_later_work WriteSet structure_fails
                         (u "brief") None None))
           1%nat 2%nat
           (Run.step2 WriteSet structure_fails (u "brief") None None)
           (Run.step3 WriteSet structure_fails (u "brief") None None)).
  - lia.
  - rewrite GraphRun.generate_course_steps. reflexivity.
  - rewrite GraphRun.generate_course_steps. reflexivity.
  - eexists. vm_compute. reflexivity.
Defined.

End Failures.

(** ** The fan-out of the Content stage *)

Module FanOut.

Import Orchestrator LangGraph Entries.

Section Content.

Variable b : Backend.
Variable state : AgentState.
Variable cs : StructureAgent.CourseStructure.

Local Abbreviation calls_per_lesson := (Entries.calls_per_lesson state).
Local Abbreviation lesson_result := (Entries.lesson_result b state cs).
Local Abbreviation module_entries := (Entries.module_entries b state cs).
Local Abbreviation filled := (Entries.filled b state cs).

Lemma alter_present {A : Type} (f : A → A) (m : gmap str A) (i : str) (x : A) :
  m !! i = Some x → alter f i m = <[i := f x]> m.
Proof.
  intros H. apply map_eq. intros j. destruct (decide (i = j)) as [<- | Hne].
  - by rewrite lookup_alter_eq, lookup_insert_eq, H.
  - by rewrite lookup_alter_ne, lookup_insert_ne.
Qed.

Lemma generate_lesson_content_calls (k : nat) (mt lt : str) :
  length (ContentAgent.generate_lesson_content b k
            (StructureAgent.course_title cs) (StructureAgent.course_description cs)
            mt lt (research_data state)
            (or_empty (target_audience state))
            (or_empty (course_duration state))).2
  = calls_per_lesson.
Proof.
  unfold ContentAgent.generate_lesson_content, calls_per_lesson.
  destruct (research_data state); [|done].
  unfold run. by destruct (chain b AContent k _).
Qed.

(** The loop over the lessons of a module appends their entries. *)
Lemma lessons_loop (mt : str) (lessons : list StructureAgent.LessonSkeleton)
    (cd : gmap str (list LessonDict)) (k : nat) (log : list call)
    (entries : list LessonDict) :
  cd !! mt = Some entries →
  ∃ log' : list call,
    fold_left
      (lesson_step b state (StructureAgent.course_title cs)
         (StructureAgent.course_description cs) mt)
      lessons (cd, k, log)
    = (<[mt := entries
              ++ imap (fun j lesson =>
                         lesson_entry (StructureAgent.lesson_title lesson)
                           (lesson_result mt (k + j * calls_per_lesson) lesson))
                   lessons]> cd,
       (k + length lessons * calls_per_lesson)%nat, log').
Proof.
  revert cd k log entries.
  induction lessons as [|lesson lessons IH]; intros cd k log entries Hcd.
  - exists log. cbn [fold_left imap length]. rewrite app_nil_r, insert_id by done.
    by rewrite Nat.mul_0_l, Nat.add_0_r.
  - cbn [fold_left]. unfold lesson_step at 2.
    pose proof (generate_lesson_content_calls k mt
                  (StructureAgent.lesson_title lesson)) as Hcalls.
    assert (lesson_result mt k lesson
            = (ContentAgent.generate_lesson_content b k
                 (StructureAgent.course_title cs)
                 (StructureAgent.course_description cs) mt
                 (StructureAgent.lesson_title lesson) (research_data state)
                 (or_empty (target_audience state))
                 (or_empty (course_duration state))).1) as Hres by done.
    destruct (ContentAgent.generate_lesson_content _ _ _ _ _ _ _ _ _)
      as [r calls]. cbn [fst snd] in *. rewrite Hcalls.
    rewrite (alter_present _ _ _ entries) by done.
    edestruct (IH (<[mt := entries
                          ++ [lesson_entry (StructureAgent.lesson_title lesson) r]]> cd)
                 (k + calls_per_lesson)%nat (log ++ calls)) as [log' ->];
      [apply lookup_insert_eq|].
    exists log'. rewrite insert_insert_eq, <- app_assoc. cbn [imap app length].
    rewrite Nat.mul_0_l, Nat.add_0_r, <- Hres.
    replace (k + calls_per_lesson + length lessons * calls_per_lesson)%nat
      with (k + S (length lessons) * calls_per_lesson)%nat by lia.
    erewrite imap_ext; [reflexivity|].
    intros j x _. cbn. do 2 f_equal. lia.
Qed.

(** The loop over the modules fills the dictionary as [filled] says. *)
Lemma modules_loop (modules : list StructureAgent.ModuleSkeleton)
    (cd : gmap str (list LessonDict)) (k : nat) (log : list call) :
  ∃ log' : list call,
    fold_left
      (module_step b state (StructureAgent.course_title cs)
         (StructureAgent.course_description cs))
      modules (cd, k, log)
    = (filled modules k cd, (k + lessons_in modules * calls_per_lesson)%nat, log').
Proof.
  revert cd k log. induction modules as [|m modules IH]; intros cd k log.
  - exists log. cbn. by rewrite Nat.add_0_r.
  - cbn [fold_left]. unfold module_step at 2.
    edestruct (lessons_loop (StructureAgent.module_title m)
                 (StructureAgent.module_lessons m)
                 (<[StructureAgent.module_title m := []]> cd) k log [])
      as [log1 ->]; [apply lookup_insert_eq|].
    rewrite insert_insert_eq, app_nil_l.
    edestruct IH as [log' ->]. exists log'. cbn [filled].
    do 2 f_equal. unfold lessons_in. cbn [List.map concat].
    rewrite length_app. lia.
Qed.

(** Modules with other titles leave an entry alone. *)
Lemma filled_lookup_other (modules : list StructureAgent.ModuleSkeleton)
    (k : nat) (cd : gmap str (list LessonDict)) (t : str) :
  Forall (fun m => StructureAgent.module_title m ≠ t) modules →
  filled modules k cd !! t = cd !! t.
Proof.
  revert k cd. induction modules as [|m modules IH]; intros k cd Hne.
  - done.
  - inversion_clear Hne as [|? ? Hm Hms]. cbn [filled].
    rewrite IH by done. by rewrite lookup_insert_ne.
Qed.

(** The entry under a title is that of the last module with it. *)
Lemma filled_lookup_last (before : list StructureAgent.ModuleSkeleton)
    (m : StructureAgent.ModuleSkeleton)
    (after : list StructureAgent.ModuleSkeleton)
    (k : nat) (cd : gmap str (list LessonDict)) :
  Forall (fun m' => StructureAgent.module_title m'
                    ≠ StructureAgent.module_title m) after →
  filled (before ++ m :: after) k cd !! StructureAgent.module_title m
  = Some (module_entries (k + lessons_in before * calls_per_lesson) m).
Proof.
  revert k cd. induction before as [|m0 before IH]; intros k cd Hne.
  - cbn [app filled]. rewrite filled_lookup_other by done.
    rewrite lookup_insert_eq. cbn. by rewrite Nat.add_0_r.
  - cbn [app filled]. rewrite IH by done. do 2 f_equal.
    unfold lessons_in. cbn [List.map concat]. rewrite length_app. lia.
Qed.

Lemma filled_non_empty (modules : list StructureAgent.ModuleSkeleton) (k : nat) :
  modules ≠ [] → filled modules k ∅ ≠ ∅.
Proof.
  intros Hne Hempty.
  destruct (exists_last Hne) as (before & m & ->).
  pose proof (filled_lookup_last before m [] k ∅ (Forall_nil_2 _)) as H.
  by rewrite Hempty, lookup_empty in H.
Qed.

(** The Content stage on a state with a course structure: no error,
    and the dictionary of the fan-out. *)
Lemma generate_course_content_filled :
  course_structure state = Some cs →
  (generate_course_content b state).1
  = mkAgentState (brief state) (target_audience state) (course_duration state)
      (research_data state) (Some cs)
      (Some (filled (StructureAgent.modules cs) 0 ∅)) None None.
Proof.
  intros Hcs. rewrite (GraphRun.generate_course_content_some b state cs Hcs).
  cbn [fst]. unfold Run.fanout_of.
  by destruct (modules_loop (StructureAgent.modules cs) ∅ 0 []) as [log' ->].
Qed.

End Content.

Lemma lookup_map {A B : Type} (f : A → B) (l : list A) (i : nat) :
  List.map f l !! i = f <$> l !! i.
Proof. exact (list_lookup_fmap f l i). Qed.

(** Among the modules with a given title there is a last one. *)
Lemma last_with_title (modules : list StructureAgent.ModuleSkeleton) (t : str) :
  Exists (fun m => StructureAgent.module_title m = t) modules →
  ∃ (before : list StructureAgent.ModuleSkeleton)
    (m : StructureAgent.ModuleSkeleton)
    (after : list StructureAgent.ModuleSkeleton),
    modules = before ++ m :: after
    ∧ StructureAgent.module_title m = t
    ∧ Forall (fun m' => StructureAgent.module_title m' ≠ t) after.
Proof.
  induction modules as [|m0 modules IH]; intros Hex.
  - by apply Exists_nil in Hex.
  - destruct (decide (Exists (fun m => StructureAgent.module_title m = t) modules))
      as [Hin | Hout].
    + destruct (IH Hin) as (before & m & after & -> & Ht & Hafter).
      by exists (m0 :: before), m, after.
    + apply Exists_cons in Hex as [Ht | Hin]; [|done].
      exists [], m0, modules. repeat split; [done|].
      apply Forall_forall. intros m' Hm' Heq. apply Hout.
      apply Exists_exists. by exists m'.
Qed.

(** The final course of a state with a course structure, after the
    Content and the Finalize stage. *)
Lemma content_then_finalize (p : update_policy) (b : Backend)
    (state : AgentState) (cs : StructureAgent.CourseStructure) :
  course_structure state = Some cs →
  StructureAgent.modules cs ≠ [] →
  content_data (apply_update p state (generate_course_content b state).1)
  = Some (filled b state cs (StructureAgent.modules cs) 0 ∅)
  ∧ ∃ refs : list str,
      final_course
        (finalize_course
           (apply_update p state (generate_course_content b state).1)).1
      = Some (mkCourseDict (StructureAgent.course_title cs)
                (StructureAgent.course_description cs)
                (List.map
                   (finalize_module
                      (filled b state cs (StructureAgent.modules cs) 0 ∅))
                   (StructureAgent.modules cs))
                refs).
Proof.
  intros Hcs Hne. rewrite (generate_course_content_filled b state cs Hcs).
  assert (content_data
            (apply_update p state
               (mkAgentState (brief state) (target_audience state)
                  (course_duration state) (research_data state) (Some cs)
                  (Some (filled b state cs (StructureAgent.modules cs) 0 ∅))
                  None None))
          = Some (filled b state cs (StructureAgent.modules cs) 0 ∅)) as Hcd
    by (by destruct p).
  split; [done|].
  erewrite FinalizeStage.finalize_course_ok;
    [by eexists | by destruct p | done | by apply filled_non_empty].
Qed.

(** C10: when two modules of [course_structure] have the same title,
    [content_data] keeps under that title only the lessons generated
    for the last module with it (the entry is reset when the fan-out of
    each module begins), and after Finalize both modules of the final
    course carry that same lesson list. *)
Theorem duplicate_titles_share_lessons (p : update_policy) (b : Backend)
    (state : AgentState) (cs : StructureAgent.CourseStructure)
    (i j : nat) (m1 m2 : StructureAgent.ModuleSkeleton) :
  course_structure state = Some cs →
  StructureAgent.modules cs !! i = Some m1 →
  StructureAgent.modules cs !! j = Some m2 →
  i ≠ j →
  StructureAgent.module_title m1 = StructureAgent.module_title m2 →
  ∃ (last : nat) (mlast : StructureAgent.ModuleSkeleton)
    (entries : list LessonDict) (cd : gmap str (list LessonDict))
    (fc : CourseDict),
    StructureAgent.modules cs !! last = Some mlast
    ∧ StructureAgent.module_title mlast = StructureAgent.module_title m1
    ∧ (∀ (n : nat) (m' : StructureAgent.ModuleSkeleton),
         (last < n)%nat → StructureAgent.modules cs !! n = Some m' →
         StructureAgent.module_title m' ≠ StructureAgent.module_title m1)
    ∧ entries
      = module_entries b state cs
          (lessons_in (take last (StructureAgent.modules cs))
           * calls_per_lesson state) mlast
    ∧ content_data (apply_update p state (generate_course_content b state).1)
      = Some cd
    ∧ cd !! StructureAgent.module_title m1 = Some entries
    ∧ final_course
        (finalize_course
           (apply_update p state (generate_course_content b state).1)).1
      = Some fc
    ∧ modules fc !! i = Some (mkModuleDict (StructureAgent.module_title m1) entries)
    ∧ modules fc !! j = Some (mkModuleDict (StructureAgent.module_title m2) entries).
Proof.
  intros Hcs Hi Hj Hij Ht.
  assert (StructureAgent.modules cs ≠ []) as Hne by (by intros E; rewrite E in Hi).
  destruct (last_with_title (StructureAgent.modules cs)
              (StructureAgent.module_title m1))
    as (before & mlast & after & Hmods & Hlast & Hafter).
  { apply Exists_exists. exists m1. split; [|done].
    by eapply list_elem_of_lookup_2. }
  destruct (content_then_finalize p b state cs Hcs Hne) as (Hcd & refs & Hfc).
  assert (filled b state cs (StructureAgent.modules cs) 0 ∅
            !! StructureAgent.module_title m1
          = Some (module_entries b state cs
                    (lessons_in before * calls_per_lesson state) mlast)) as Hlook.
  { rewrite Hmods, <- Hlast. rewrite filled_lookup_last; [done|].
    by rewrite Hlast. }
  exists (length before), mlast. do 3 eexists.
  split; [by rewrite Hmods, list_lookup_middle|]. split; [done|].
  split.
  { intros n m' Hn Hm'. rewrite Hmods in Hm'.
    rewrite lookup_app_r in Hm' by lia.
    destruct (n - length before)%nat as [|n'] eqn:En; [lia|]. cbn in Hm'.
    rewrite Forall_forall in Hafter. apply Hafter.
    by eapply list_elem_of_lookup_2. }
  split; [reflexivity|]. split; [exact Hcd|].
  split.
  { rewrite Hlook. do 3 f_equal. by rewrite Hmods, take_app_length. }
  split; [exact Hfc|]. cbn [modules].
  rewrite !lookup_map, Hi, Hj. cbn. unfold finalize_module, get_lessons.
  rewrite <- Ht, Hlook. cbn. rewrite FinalizeStage.copy_lessons_id.
  rewrite Hmods, take_app_length. by rewrite Ht.
Qed.

End FanOut.

(** ** One failing lesson *)

Module Isolation.

Import Orchestrator LangGraph Run Entries FanOut Samples.

Section Request.

Variable p : update_policy.
Variable b : Backend.
Variable brief : str.
Variables target_audience course_duration : option str.

Local Abbreviation reply_for :=
  (Run.reply_for b brief target_audience course_duration).

Lemma structure_succeeded (cs : StructureAgent.CourseStructure) :
  course_structure (state_after (Run.step2 p b brief target_audience course_duration))
  = Some cs →
  Run.structure1 b brief target_audience course_duration = inl cs.
Proof.
  rewrite GraphRun.state2.
  destruct (Run.structure1 _ _ _ _) as [cs' | e]; cbn; by intros [= ->].
Qed.

(** The course a request returns once the structure agent has given
    a structure with at least one module. *)
Lemma course_of_structure (cs : StructureAgent.CourseStructure) :
  Run.structure1 b brief target_audience course_duration = inl cs →
  StructureAgent.modules cs ≠ [] →
  (generate_course p b brief target_audience course_duration).1
  = inl (to_course_response
           (Run.assembled b brief target_audience course_duration cs
              (filled b
                 (Run.known b brief target_audience course_duration
                    (Some cs) None None None)
                 cs (StructureAgent.modules cs) 0 ∅))).
Proof.
  intros Hs Hne. rewrite GraphRun.generate_course_steps. cbn [fst].
  pose proof (GraphRun.state4 p b brief target_audience course_duration) as H4.
  rewrite Hs in H4. cbn zeta in H4.
  assert ((Run.fanout_of b
             (Run.known b brief target_audience course_duration
                (Some cs) None None None) cs).1.1
          = filled b
              (Run.known b brief target_audience course_duration
                 (Some cs) None None None)
              cs (StructureAgent.modules cs) 0 ∅) as Hfill.
  { unfold Run.fanout_of.
    by destruct (modules_loop b
                   (Run.known b brief target_audience course_duration
                      (Some cs) None None None)
                   cs (StructureAgent.modules cs) ∅ 0 []) as [log' ->]. }
  rewrite Hfill in H4. rewrite bool_decide_false in H4
    by (by apply filled_non_empty).
  by rewrite H4.
Qed.


End Request.



Lemma duplicate_titles_share_lessons_witness :
  ∃ (last : nat) (mlast : StructureAgent.ModuleSkeleton)
    (entries : list LessonDict) (cd : gmap str (list LessonDict))
    (fc : CourseDict),
    [StructureAgent.mkModuleSkeleton (u "MODULE X")
       [StructureAgent.mkLessonSkeleton (u "a") []];
     StructureAgent.mkModuleSkeleton (u "MODULE X")
       [StructureAgent.mkLessonSkeleton (u "b") []]] !! last = Some mlast
    ∧ StructureAgent.module_title mlast = u "MODULE X"
    ∧ (∀ (n : nat) (m' : StructureAgent.ModuleSkeleton),
         (last < n)%nat →
         [StructureAgent.mkModuleSkeleton (u "MODULE X")
            [StructureAgent.mkLessonSkeleton (u "a") []];
          StructureAgent.mkModuleSkeleton (u "MODULE X")
            [StructureAgent.mkLessonSkeleton (u "b") []]] !! n = Some m' →
         StructureAgent.module_title m' ≠ u "MODULE X")
    ∧ entries
      = module_entries twin_titles twins
          (StructureAgent.mkCourseStructure [] []
             [StructureAgent.mkModuleSkeleton (u "MODULE X")
                [StructureAgent.mkLessonSkeleton (u "a") []];
              StructureAgent.mkModuleSkeleton (u "MODULE X")
                [StructureAgent.mkLessonSkeleton (u "b") []]] [])
          (lessons_in
             (take last
                [StructureAgent.mkModuleSkeleton (u "MODULE X")
                   [StructureAgent.mkLessonSkeleton (u "a") []];
                 StructureAgent.mkModuleSkeleton (u "MODULE X")
                   [StructureAgent.mkLessonSkeleton (u "b") []]])
           * calls_per_lesson twins) mlast
    ∧ content_data
        (apply_update WriteAll twins (generate_course_content twin_titles twins).1)
      = Some cd
    ∧ cd !! u "MODULE X" = Some entries
    ∧ final_course
        (finalize_course
           (apply_update WriteAll twins
              (generate_course_content twin_titles twins).1)).1
      = Some fc
    ∧ modules fc !! 0%nat = Some (mkModuleDict (u "MODULE X") entries)
    ∧ modules fc !! 1%nat = Some (mkModuleDict (u "MODULE X") entries).
Proof.
  apply (duplicate_titles_share_lessons WriteAll twin_titles twins
           (StructureAgent.mkCourseStructure [] []
              [StructureAgent.mkModuleSkeleton (u "MODULE X")
                 [StructureAgent.mkLessonSkeleton (u "a") []];
               StructureAgent.mkModuleSkeleton (u "MODULE X")
                 [StructureAgent.mkLessonSkeleton (u "b") []]] [])
           0 1
           (StructureAgent.mkModuleSkeleton (u "MODULE X")
              [StructureAgent.mkLessonSkeleton (u "a") []])
           (StructureAgent.mkModuleSkeleton (u "MODULE X")
              [StructureAgent.mkLessonSkeleton (u "b") []])).
  - reflexivity.
  - reflexivity.
  - reflexivity.
  - lia.
  - reflexivity.
Defined.

End Isolation.

(** ** More facts about the string operations *)

Module PyStrMore.

Import Shape.

Lemma occurs_in_app_l (sub s t : str) : occurs_in sub s → occurs_in sub (s ++ t).
Proof. intros (a & b & ->). exists a, (b ++ t). by rewrite <- !app_assoc. Qed.

Lemma occurs_in_app_r (sub s t : str) : occurs_in sub s → occurs_in sub (t ++ s).
Proof. intros (a & b & ->). exists (t ++ a), b. by rewrite <- !app_assoc. Qed.

Lemma free_of_not_occurs (sub s : str) :
  free_of sub s = true ↔ ¬ occurs_in sub s.
Proof. unfold free_of. rewrite negb_true_iff. apply contains_false. Qed.

Lemma startswith_app (p rest : str) : startswith (p ++ rest) p = true.
Proof. apply startswith_true. by exists rest. Qed.

(** The characters of a separator just matched are passed over. *)
Lemma split_go_skip (sep : str) (count : option nat) (p cur rest : str) :
  split_go sep count (length p) cur (p ++ rest) = split_go sep count O cur rest.
Proof.
  induction p as [|c p IH]; [done|]. cbn [length app split_go]. exact IH.
Qed.

Lemma replace_go_skip (old new : str) (count : option nat) (p rest : str) :
  replace_go old new count (length p) (p ++ rest) = replace_go old new count O rest.
Proof.
  induction p as [|c p IH]; [done|]. cbn [length app replace_go]. exact IH.
Qed.

(** A text without the separator is one piece. *)
Lemma split_go_no_match (sep cur s : str) :
  ¬ occurs_in sep s → split_go sep None O cur s = [cur ++ s].
Proof.
  revert cur. induction s as [|c s IH]; intros cur Hno.
  - cbn. by rewrite app_nil_r.
  - cbn [split_go may andb].
    destruct (startswith (c :: s) sep) eqn:E.
    + exfalso. apply Hno. apply startswith_true in E as [b ->]. by exists [], b.
    + rewrite IH, <- app_assoc; [done|].
      intros H. apply Hno. by apply (occurs_in_app_r _ _ [c]).
Qed.

Lemma replace_go_no_match (old new s : str) :
  ¬ occurs_in old s → replace_go old new None O s = s.
Proof.
  induction s as [|c s IH]; intros Hno; [done|].
  cbn [replace_go may andb].
  destruct (startswith (c :: s) old) eqn:E.
  - exfalso. apply Hno. apply startswith_true in E as [b ->]. by exists [], b.
  - rewrite IH; [done|]. intros H. apply Hno. by apply (occurs_in_app_r _ _ [c]).
Qed.

Lemma removelast_snoc (sep : str) :
  sep ≠ [] → ∃ c : N, sep = removelast sep ++ [c].
Proof.
  intros Hne. exists (List.last sep 0). by apply app_removelast_last.
Qed.

(** A separator found at the head of [a ++ sep ++ rest] with [a] not
    empty begins inside [a]. *)
Lemma match_inside (sep a rest : str) :
  sep ≠ [] → a ≠ [] →
  startswith (a ++ sep ++ rest) sep = true →
  occurs_in sep (a ++ removelast sep).
Proof.
  intros Hsep Ha H. apply startswith_true in H as [b Hb].
  destruct (removelast_snoc sep Hsep) as [c Hc].
  assert (length sep ≤ length (a ++ removelast sep))%nat as Hlen.
  { rewrite Hc at 1. rewrite !length_app. destruct a; [done|]. cbn. lia. }
  assert (take (length sep) (a ++ removelast sep) = sep) as Htake.
  { rewrite <- (take_app_le _ ([c] ++ rest)) by done.
    rewrite <- !app_assoc, (app_assoc (removelast sep)), <- Hc, Hb.
    by rewrite take_app_length. }
  exists [], (drop (length sep) (a ++ removelast sep)).
  cbn [app]. rewrite <- Htake at 2. by rewrite take_drop.
Qed.

(** The first piece of a split ends where the separator first begins. *)
Lemma split_go_first (sep cur a rest : str) :
  sep ≠ [] →
  ¬ occurs_in sep (a ++ removelast sep) →
  split_go sep None O cur (a ++ sep ++ rest)
  = (cur ++ a) :: split_go sep None O [] rest.
Proof.
  intros Hsep. revert cur. induction a as [|x a IH]; intros cur Hno.
  - destruct sep as [|c sep]; [done|].
    pose proof (startswith_app (c :: sep) rest) as Hs. cbn [app] in Hs.
    cbn [app split_go may andb]. rewrite Hs.
    cbn [length Nat.pred]. by rewrite split_go_skip, app_nil_r.
  - cbn [app split_go may andb].
    destruct (startswith (x :: a ++ sep ++ rest) sep) eqn:E.
    + exfalso. apply Hno. by apply (match_inside sep (x :: a) rest).
    + rewrite IH, <- app_assoc; [done|].
      intros H. apply Hno. by apply (occurs_in_app_r _ _ [x]).
Qed.

Lemma split_first (sep a rest : str) :
  sep ≠ [] →
  closed_for sep a = true →
  split (a ++ sep ++ rest) sep = a :: split rest sep.
Proof.
  intros Hsep Ha. apply free_of_not_occurs in Ha.
  unfold split. by rewrite split_go_first.
Qed.

Lemma split_whole (sep s : str) :
  free_of sep s = true → split s sep = [s].
Proof.
  intros Hs. apply free_of_not_occurs in Hs. unfold split.
  by rewrite split_go_no_match.
Qed.

Lemma closed_for_free (sep s : str) :
  closed_for sep s = true → free_of sep s = true.
Proof.
  unfold closed_for. rewrite !free_of_not_occurs. intros H Hs. apply H.
  by apply occurs_in_app_l.
Qed.

(** Joining pieces and splitting again gives the pieces back. *)
Lemma split_join (sep : str) (pieces : list str) :
  sep ≠ [] → pieces ≠ [] →
  Forall (fun piece => closed_for sep piece = true) pieces →
  split (join sep pieces) sep = pieces.
Proof.
  intros Hsep Hne Hall. induction Hall as [|piece pieces Hp Hall IH]; [done|].
  destruct pieces as [|piece' pieces].
  - cbn [join]. by apply split_whole, closed_for_free.
  - change (join sep (piece :: piece' :: pieces))
      with (piece ++ sep ++ join sep (piece' :: pieces)).
    rewrite split_first by done. by rewrite IH.
Qed.

(** Replacing from a text that begins with the marker. *)
Lemma replace_head (old new rest : str) :
  old ≠ [] →
  replace (old ++ rest) old new = new ++ replace rest old new.
Proof.
  intros Hold. destruct old as [|c old]; [done|]. unfold replace.
  pose proof (startswith_app (c :: old) rest) as Hs. cbn [app] in Hs.
  cbn [app replace_go may andb]. rewrite Hs.
  cbn [length Nat.pred]. by rewrite replace_go_skip.
Qed.

Lemma replace_absent (s old new : str) :
  free_of old s = true → replace s old new = s.
Proof.
  intros H. apply free_of_not_occurs in H. by apply replace_go_no_match.
Qed.

(** No piece of a split contains the separator. *)
Lemma split_go_pieces_free (sep : str) (skip : nat) (cur s p : str) :
  sep ≠ [] →
  skip = O ∨ cur = [] →
  (∀ a b : str, cur = a ++ b → b ≠ [] → startswith (b ++ s) sep = false) →
  p ∈ split_go sep None skip cur s → ¬ occurs_in sep p.
Proof.
  intros Hsep. revert skip cur.
  assert (∀ cur t : str,
            (∀ a b : str, cur = a ++ b → b ≠ [] → startswith (b ++ t) sep = false) →
            ¬ occurs_in sep cur) as Hcur.
  { intros cur t Hinv (a & b & ->).
    specialize (Hinv a (sep ++ b) eq_refl).
    rewrite <- app_assoc, startswith_app in Hinv.
    assert (sep ++ b ≠ []) by (by destruct sep). by specialize (Hinv H). }
  induction s as [|c s IH]; intros skip cur Hs Hinv Hp.
  - cbn in Hp. apply list_elem_of_singleton in Hp as ->. by eapply Hcur.
  - destruct skip as [|k].
    + cbn [split_go may andb] in Hp.
      destruct (startswith (c :: s) sep) eqn:E.
      * apply elem_of_cons in Hp as [-> | Hp]; [by eapply Hcur|].
        eapply IH; [by right | | exact Hp].
        intros a b Hab Hb. by destruct a, b.
      * eapply IH; [by left | | exact Hp].
        intros a b Hab Hb.
        destruct (exists_last Hb) as (b0 & c' & ->).
        rewrite app_assoc in Hab. apply app_inj_tail in Hab as [-> ->].
        rewrite <- app_assoc. cbn [app].
        destruct b0 as [|x b0]; [exact E|]. by apply (Hinv a (x :: b0)).
    + destruct Hs as [? | ->]; [done|]. cbn [split_go] in Hp.
      eapply IH; [by right | | exact Hp].
      intros a b Hab Hb. by destruct a, b.
Qed.

Lemma split_pieces_free (s sep p : str) :
  sep ≠ [] → p ∈ split s sep → free_of sep p = true.
Proof.
  intros Hsep Hp. apply free_of_not_occurs.
  eapply (split_go_pieces_free sep O [] s p); [done | by left | | exact Hp].
  intros a b Hab Hb. by destruct a, b.
Qed.

(** *** White space at the ends *)

Lemma lstrip_spaces (ws s : str) :
  Forall (fun c => isspace c = true) ws → lstrip (ws ++ s) = lstrip s.
Proof. induction 1 as [|c ws Hc _ IH]; [done|]. cbn [app lstrip]. by rewrite Hc. Qed.

Lemma lstrip_parts (s : str) :
  ∃ ws : str, s = ws ++ lstrip s ∧ Forall (fun c => isspace c = true) ws.
Proof.
  induction s as [|c s (ws & Hs & Hws)]; [by exists []|].
  cbn [lstrip]. destruct (isspace c) eqn:E.
  - exists (c :: ws). split; [by rewrite Hs at 1 | by constructor].
  - by exists [].
Qed.

Lemma lstrip_head (s : str) (c : N) (rest : str) :
  lstrip s = c :: rest → isspace c = false.
Proof.
  induction s as [|x s IH]; [done|]. cbn [lstrip].
  destruct (isspace x) eqn:E; [done|]. by intros [= <- _].
Qed.

Lemma lstrip_fixed (c : N) (s : str) :
  isspace c = false → lstrip (c :: s) = c :: s.
Proof. intros H. cbn [lstrip]. by rewrite H. Qed.

Lemma rstrip_spaces (ws s : str) :
  Forall (fun c => isspace c = true) ws → rstrip (s ++ ws) = rstrip s.
Proof.
  intros Hws. unfold rstrip. rewrite rev_app_distr, lstrip_spaces; [done|].
  apply Forall_forall. intros c Hc. rewrite Forall_forall in Hws. apply Hws.
  apply list_elem_of_In. apply list_elem_of_In in Hc. by apply in_rev.
Qed.

Lemma rstrip_parts (s : str) :
  ∃ ws : str, s = rstrip s ++ ws ∧ Forall (fun c => isspace c = true) ws.
Proof.
  destruct (lstrip_parts (rev s)) as (ws & Hs & Hws).
  exists (rev ws). split.
  - unfold rstrip. rewrite <- rev_app_distr, <- Hs. by rewrite rev_involutive.
  - apply Forall_forall. intros c Hc. rewrite Forall_forall in Hws. apply Hws.
    apply list_elem_of_In. apply list_elem_of_In in Hc. by apply in_rev in Hc.
Qed.

Lemma last_rev (s : str) : last (rev s) = head s.
Proof. destruct s as [|c s]; [done|]. cbn [rev head]. apply last_snoc. Qed.

Lemma rstrip_last (s : str) (c : N) :
  last (rstrip s) = Some c → isspace c = false.
Proof.
  unfold rstrip. rewrite last_rev.
  destruct (lstrip (rev s)) as [|x rest] eqn:E; [done|].
  intros [= <-]. by eapply lstrip_head.
Qed.

Lemma rstrip_fixed (s : str) (c : N) :
  last s = Some c → isspace c = false → rstrip s = s.
Proof.
  intros Hlast Hc. unfold rstrip.
  assert (head (rev s) = Some c) as Hhead.
  { by rewrite <- last_rev, rev_involutive. }
  destruct (rev s) as [|x rest] eqn:E; [done|]. injection Hhead as ->.
  by rewrite lstrip_fixed, <- E, rev_involutive.
Qed.

(** A trimmed text is left alone, also between white space. *)
Lemma strip_trimmed (s : str) : trimmed s = true → strip s = s.
Proof.
  unfold trimmed, strip. destruct s as [|c s]; [done|].
  rewrite andb_true_iff, negb_true_iff. intros [Hc Hl].
  rewrite lstrip_fixed by done.
  destruct (last (c :: s)) as [x|] eqn:E.
  - eapply rstrip_fixed; [done | by apply negb_true_iff].
  - by apply last_None in E.
Qed.

Lemma strip_padded (ws1 s ws2 : str) :
  Forall (fun c => isspace c = true) ws1 →
  Forall (fun c => isspace c = true) ws2 →
  trimmed s = true →
  strip (ws1 ++ s ++ ws2) = s.
Proof.
  intros H1 H2 Hs. unfold strip. rewrite lstrip_spaces by done.
  destruct s as [|c s].
  - cbn [app]. destruct (lstrip_parts ws2) as (ws & Hws & _).
    destruct (lstrip ws2) as [|x rest] eqn:E; [done|].
    apply lstrip_head in E. rewrite Forall_forall in H2.
    rewrite (H2 x) in E; [done|]. rewrite Hws. set_solver.
  - pose proof Hs as Hs'. unfold trimmed in Hs'.
    rewrite andb_true_iff, negb_true_iff in Hs'. destruct Hs' as [Hc _].
    cbn [app]. rewrite lstrip_fixed by done.
    change (c :: s ++ ws2) with ((c :: s) ++ ws2).
    rewrite rstrip_spaces by done.
    apply strip_trimmed in Hs. unfold strip in Hs.
    by rewrite lstrip_fixed in Hs.
Qed.

(** What [strip] returns is trimmed and is a part of the text. *)
Lemma strip_is_trimmed (s : str) : trimmed (strip s) = true.
Proof.
  unfold trimmed, strip. apply andb_true_iff. split.
  - destruct (rstrip (lstrip s)) as [|c rest] eqn:E; [done|].
    destruct (rstrip_parts (lstrip s)) as (ws & Hs & _). rewrite E in Hs.
    apply negb_true_iff. by eapply lstrip_head.
  - destruct (last (rstrip (lstrip s))) as [c|] eqn:E; [|done].
    apply negb_true_iff. by eapply rstrip_last.
Qed.

Lemma strip_part (s : str) : occurs_in (strip s) s.
Proof.
  destruct (lstrip_parts s) as (ws1 & H1 & _).
  destruct (rstrip_parts (lstrip s)) as (ws2 & H2 & _).
  exists ws1, ws2. unfold strip. by rewrite <- H2.
Qed.

Lemma strip_free (sub s : str) :
  free_of sub s = true → free_of sub (strip s) = true.
Proof.
  rewrite !free_of_not_occurs. intros H Hs. apply H.
  eapply occurs_in_trans; [exact Hs | apply strip_part].
Qed.

Lemma truthy_non_empty (s : str) : truthy s = true ↔ s ≠ [].
Proof. by destruct s. Qed.

(** *** Trimmed texts *)

Lemma trimmed_head (c : N) (s : str) : trimmed (c :: s) = true → isspace c = false.
Proof.
  unfold trimmed. rewrite andb_true_iff, negb_true_iff. by intros [? _].
Qed.

Lemma trimmed_last (s : str) (c : N) :
  trimmed s = true → last s = Some c → isspace c = false.
Proof.
  unfold trimmed. rewrite andb_true_iff. intros [_ H] E. rewrite E in H.
  by apply negb_true_iff.
Qed.

Lemma trimmed_intro (s : str) :
  (∀ c, head s = Some c → isspace c = false) →
  (∀ c, last s = Some c → isspace c = false) →
  trimmed s = true.
Proof.
  intros Hh Hl. unfold trimmed. apply andb_true_iff. split.
  - destruct s as [|c s]; [done|]. apply negb_true_iff. by apply Hh.
  - destruct (last s) as [c|]; [|done]. apply negb_true_iff. by apply Hl.
Qed.

Lemma trimmed_wrap (a m b : str) :
  a ≠ [] → b ≠ [] → trimmed a = true → trimmed b = true →
  trimmed (a ++ m ++ b) = true.
Proof.
  intros Ha Hb Hta Htb. apply trimmed_intro.
  - destruct a as [|x a]; [done|]. cbn [app head]. intros c [= <-].
    by eapply trimmed_head.
  - intros c. rewrite app_assoc, last_app.
    destruct (last b) as [y|] eqn:E; [|by apply last_None in E].
    intros [= <-]. by eapply trimmed_last.
Qed.

Lemma trimmed_join (items : list str) :
  Forall (fun x => x ≠ [] ∧ trimmed x = true) items →
  trimmed (join nl items) = true ∧ (items ≠ [] → join nl items ≠ []).
Proof.
  induction 1 as [|x items [Hx Ht] Hall [IH1 IH2]]; [done|].
  destruct items as [|y items]; [done|].
  change (join nl (x :: y :: items)) with (x ++ nl ++ join nl (y :: items)).
  split.
  - apply trimmed_wrap; [done | by apply IH2 | done | done].
  - intros _. by destruct x.
Qed.

(** *** Where a marker can occur *)

(** A marker without the character [c] does not reach across [c]. *)
Lemma startswith_cut (c : N) (m a b : str) :
  c ∉ m → startswith (a ++ c :: b) m = true → startswith a m = true.
Proof.
  revert a. induction m as [|h m IH]; intros a Hc H.
  - by destruct a.
  - destruct a as [|x a]; cbn [app startswith] in *.
    + apply andb_true_iff in H as [H _]. apply N.eqb_eq in H. set_solver.
    + apply andb_true_iff in H as [-> H]. cbn [andb]. apply IH; [set_solver | done].
Qed.

Lemma free_of_cut (c : N) (m a b : str) :
  c ∉ m → m ≠ [] →
  free_of m a = true → free_of m b = true → free_of m (a ++ c :: b) = true.
Proof.
  intros Hc Hm Ha Hb. unfold free_of in *. rewrite negb_true_iff in *.
  induction a as [|x a IH].
  - cbn [app contains]. rewrite Hb, orb_false_r.
    destruct (startswith (c :: b) m) eqn:E; [|done].
    apply (startswith_cut c m [] b Hc) in E. by destruct m.
  - cbn [app contains] in *. apply orb_false_iff in Ha as [Hs Ha].
    rewrite (IH Ha), orb_false_r.
    destruct (startswith (x :: a ++ c :: b) m) eqn:E; [|done].
    apply (startswith_cut c m (x :: a) b Hc) in E. congruence.
Qed.

Lemma free_of_nil (m : str) : m ≠ [] → free_of m [] = true.
Proof. by destruct m. Qed.

Lemma free_of_join (m : str) (items : list str) :
  10 ∉ m → m ≠ [] →
  Forall (fun x => free_of m x = true) items →
  free_of m (join nl items) = true.
Proof.
  intros Hc Hm. induction 1 as [|x items Hx Hall IH]; [by apply free_of_nil|].
  destruct items as [|y items]; [done|].
  change (join nl (x :: y :: items)) with (x ++ 10 :: join nl (y :: items)).
  by apply free_of_cut.
Qed.

(** *** Blank lines *)

Lemma contains_nlnl_cons (x : N) (s : str) :
  contains (x :: s) nlnl
  = (10 =? x) && match s with y :: _ => 10 =? y | [] => false end
    || contains s nlnl.
Proof.
  cbn [contains]. f_equal. change nlnl with [10; 10].
  destruct s as [|y [|z s]]; cbn [startswith]; by rewrite ?andb_true_r.
Qed.

(** Two texts without a blank line, joined where not both have a line
    feed, have no blank line. *)
Lemma no_blank_app (a b : str) :
  free_of nlnl a = true → free_of nlnl b = true →
  last a ≠ Some 10 ∨ head b ≠ Some 10 →
  free_of nlnl (a ++ b) = true.
Proof.
  unfold free_of. rewrite !negb_true_iff. intros Ha Hb Hj.
  induction a as [|x a IH]; [done|].
  cbn [app]. rewrite contains_nlnl_cons in *.
  apply orb_false_iff in Ha as [Hx Ha].
  assert (last a ≠ Some 10 ∨ head b ≠ Some 10) as Hj'.
  { destruct Hj as [Hj|]; [|by right]. destruct a as [|y a]; [by left|].
    left. by rewrite last_cons_cons in Hj. }
  rewrite (IH Ha Hj'), orb_false_r.
  destruct a as [|y a]; [|exact Hx]. cbn [app].
  destruct b as [|y b]; [done|].
  destruct (10 =? x) eqn:Ex; [|done]. destruct (10 =? y) eqn:Ey; [|done].
  apply N.eqb_eq in Ex, Ey. subst. by destruct Hj.
Qed.

(** *** The non-empty trimmed lines of a text *)

(** A line of a list field: not empty, trimmed, without a line feed. *)
Lemma stripped_lines_items (text x : str) :
  x ∈ stripped_lines text →
  x ≠ [] ∧ trimmed x = true ∧ single_line x = true.
Proof.
  unfold stripped_lines. intros Hx. apply list_elem_of_In in Hx.
  apply in_map_iff in Hx as (line & <- & Hline).
  apply filter_In in Hline as [Hline Ht].
  split; [by apply truthy_non_empty|]. split; [apply strip_is_trimmed|].
  apply strip_free. apply (split_pieces_free text); [done|].
  by apply list_elem_of_In.
Qed.

Lemma stripped_lines_join (items : list str) :
  Forall (fun x => x ≠ [] ∧ trimmed x = true ∧ single_line x = true) items →
  stripped_lines (join nl items) = items.
Proof.
  intros Hall. unfold stripped_lines.
  destruct items as [|x0 items0] eqn:E; [done|]. rewrite <- E in *.
  rewrite split_join; [|done|by rewrite E|].
  - clear E. induction Hall as [|x items (Hx & Ht & _) Hall IH]; [done|].
    cbn [List.filter]. rewrite (strip_trimmed x Ht).
    destruct x as [|c x]; [done|]. cbn [truthy List.map].
    by rewrite (strip_trimmed _ Ht), IH.
  - eapply Forall_impl; [exact Hall|]. intros x (_ & _ & Hs).
    unfold closed_for. cbn [removelast nl]. by rewrite app_nil_r.
Qed.

End PyStrMore.

(** ** Replies in the requested format are parsed back *)

Module RoundTrips.

Import Shape Replies PyStrMore.

(** A character that is not in a marker. *)
Ltac not_in_marker :=
  let H := fresh in
  intros H; apply list_elem_of_In in H; vm_compute in H;
  repeat (destruct H as [H | H]; [discriminate H|]); exact H.

Lemma nl_spaces : Forall (fun c => isspace c = true) nl.
Proof. by repeat constructor. Qed.

Lemma nlnl_spaces : Forall (fun c => isspace c = true) nlnl.
Proof. by repeat constructor. Qed.

Lemma list_line_ok_spec (x : str) :
  list_line_ok x = true ↔ x ≠ [] ∧ trimmed x = true ∧ single_line x = true.
Proof.
  unfold list_line_ok. rewrite !andb_true_iff, truthy_non_empty. tauto.
Qed.

Lemma list_lines_join (items : list str) :
  Forall (fun x => list_line_ok x = true) items →
  stripped_lines (strip (nl ++ join nl items)) = items.
Proof.
  intros Hall.
  assert (Forall (fun x => x ≠ [] ∧ trimmed x = true ∧ single_line x = true) items)
    as Hall' by (eapply Forall_impl; [exact Hall | by intros x ?%list_line_ok_spec]).
  rewrite <- (app_nil_r (join nl items)) at 1.
  rewrite strip_padded; [by apply stripped_lines_join | apply nl_spaces | done |].
  apply trimmed_join. eapply Forall_impl; [exact Hall'|]. by intros z (? & ? & _).
Qed.

(** A content reply in the requested format is read back. *)
Lemma content_reply_parsed (body : str) (items : list str) :
  content_body_ok body = true →
  Forall (fun x => content_resource_ok x = true) items →
  ContentAgent._parse_content_result (content_reply_of body items)
  = ContentAgent.mkContentDict body items.
Proof.
  unfold content_body_ok, content_resource_ok.
  rewrite !andb_true_iff. intros [[Ht Hc] Hr] Hitems.
  assert (Forall (fun x => list_line_ok x = true) items
          ∧ Forall (fun x => free_of (u "RESOURCES:") x = true) items) as [Hl Hf].
  { split; (eapply Forall_impl; [exact Hitems|]); intros x Hx;
      by apply andb_true_iff in Hx as [? ?]. }
  set (before := u "CONTENT:" ++ nl ++ body ++ nlnl).
  set (after := nl ++ join nl items).
  assert (content_reply_of body items = before ++ u "RESOURCES:" ++ after) as Htext.
  { unfold content_reply_of, before, after. by rewrite <- !app_assoc. }
  assert (free_of (u "RESOURCES:") after = true) as Hafter.
  { apply (free_of_cut 10 _ []); [not_in_marker | done | done |].
    apply free_of_join; [not_in_marker | done | done]. }
  assert (closed_for (u "RESOURCES:") before = true) as Hbefore.
  { unfold closed_for, before. rewrite <- !app_assoc.
    apply free_of_cut; [not_in_marker | done | by vm_compute |].
    apply free_of_cut; [not_in_marker | done | done |].
    apply (free_of_cut 10 _ []); [not_in_marker | done | done |].
    by vm_compute. }
  unfold ContentAgent._parse_content_result.
  assert (contains (content_reply_of body items) (u "CONTENT:") = true) as ->.
  { apply contains_true. unfold content_reply_of. by eexists [], _. }
  assert (contains (content_reply_of body items) (u "RESOURCES:") = true) as ->.
  { apply contains_true. rewrite Htext. by eexists _, _. }
  cbn [andb]. rewrite Htext, split_first, split_whole by done.
  f_equal.
  - unfold before. rewrite replace_head by done. cbn [app].
    rewrite replace_absent.
    + by apply strip_padded; [apply nl_spaces | apply nlnl_spaces |].
    + apply (free_of_cut 10 _ []); [not_in_marker | done | done |].
      apply free_of_cut; [not_in_marker | done | done |].
      apply (free_of_cut 10 _ []); [not_in_marker | done | done | done].
  - by apply list_lines_join.
Qed.

(** X1: the content parser gives back the body and the resources of a
    reply in the requested format. *)
Theorem parse_content_reply (body : str) (items : list str) :
  content_body_ok body = true →
  Forall (fun x => content_resource_ok x = true) items →
  ContentAgent._parse_content_result (content_reply_of body items)
  = ContentAgent.mkContentDict body items.
Proof. apply content_reply_parsed. Qed.

Lemma parse_content_reply_witness :
  ContentAgent._parse_content_result
    (content_reply_of (u "Two lines" ++ nl ++ u "of text.") [u "Book A"; u "Site B"])
  = ContentAgent.mkContentDict (u "Two lines" ++ nl ++ u "of text.")
      [u "Book A"; u "Site B"].
Proof.
  apply parse_content_reply.
  - vm_compute. reflexivity.
  - repeat constructor.
Defined.

(** *** Blocks *)

Lemma free_of_nlnl_single (x : str) :
  single_line x = true → free_of nlnl x = true.
Proof.
  unfold single_line. rewrite !free_of_not_occurs. intros H (a & b & ->).
  apply H. exists a, (nl ++ b). reflexivity.
Qed.

Lemma not_space_not_nl (c : N) : isspace c = false → Some c ≠ Some 10.
Proof. intros H [= ->]. by vm_compute in H. Qed.

Lemma trimmed_head_not_nl (x : str) :
  trimmed x = true → head x ≠ Some 10.
Proof.
  destruct x as [|c x]; [done|]. intros H%trimmed_head. by apply not_space_not_nl.
Qed.

Lemma trimmed_last_not_nl (x : str) :
  trimmed x = true → last x ≠ Some 10.
Proof.
  intros H. destruct (last x) as [c|] eqn:E; [|done].
  apply not_space_not_nl. by eapply trimmed_last.
Qed.

(** Lines joined by single line feeds have no blank line. *)
Lemma no_blank_join (items : list str) :
  Forall (fun x => list_line_ok x = true) items →
  free_of nlnl (join nl items) = true.
Proof.
  induction 1 as [|x items Hx Hall IH]; [done|].
  apply list_line_ok_spec in Hx as (Hne & Ht & Hs).
  destruct items as [|y items]; [by apply free_of_nlnl_single|].
  change (join nl (x :: y :: items)) with (x ++ nl ++ join nl (y :: items)).
  apply no_blank_app; [by apply free_of_nlnl_single | | left; by apply trimmed_last_not_nl].
  apply no_blank_app; [done | done | right].
  apply trimmed_head_not_nl, trimmed_join.
  eapply Forall_impl; [exact Hall|]. by intros z (? & ? & _)%list_line_ok_spec.
Qed.

(** A header line followed by a body is a block that a blank line
    closes. *)
Lemma block_closed (header body : str) :
  free_of nlnl header = true → last header ≠ Some 10 →
  body ≠ [] → trimmed body = true → free_of nlnl body = true →
  closed_for nlnl (header ++ nl ++ body) = true.
Proof.
  intros Hh Hl Hne Ht Hb. unfold closed_for. change (removelast nlnl) with nl.
  rewrite <- !app_assoc.
  apply no_blank_app; [done | | by left].
  apply no_blank_app; [done | | right].
  - apply no_blank_app; [done | done | left; by apply trimmed_last_not_nl].
  - destruct body as [|c body]; [done|]. by apply (trimmed_head_not_nl (c :: body)).
Qed.

(** The body of a block, once its header is removed. *)
Lemma block_body (header body : str) :
  header ≠ [] → 10 ∉ header →
  free_of header body = true → trimmed body = true →
  strip (replace (header ++ nl ++ body) header []) = body.
Proof.
  intros Hne Hnl Hf Ht. rewrite replace_head by done. cbn [app].
  rewrite replace_absent
    by (apply (free_of_cut 10 _ []); [done | done | by apply free_of_nil | done]).
  rewrite <- (app_nil_r body) at 1.
  by apply strip_padded; [apply nl_spaces | |].
Qed.

Lemma block_in (header body : str) : contains (header ++ nl ++ body) header = true.
Proof. apply contains_true. by eexists [], _. Qed.

Lemma block_out (other header body : str) :
  other ≠ [] → 10 ∉ other →
  free_of other header = true → free_of other body = true →
  contains (header ++ nl ++ body) other = false.
Proof.
  intros Hne Hnl Hh Hb. apply negb_true_iff.
  by apply (free_of_cut 10 other header body).
Qed.

Lemma list_block_body (header : str) (items : list str) :
  header ≠ [] → 10 ∉ header →
  Forall (fun x => list_line_ok x = true) items →
  Forall (fun x => free_of header x = true) items →
  stripped_lines (strip (replace (header ++ nl ++ join nl items) header [])) = items.
Proof.
  intros Hne Hnl Hl Hf.
  rewrite block_body; [| done | done | by apply free_of_join |].
  - apply stripped_lines_join. eapply Forall_impl; [exact Hl|].
    by intros x ?%list_line_ok_spec.
  - apply trimmed_join. eapply Forall_impl; [exact Hl|].
    by intros x (? & ? & _)%list_line_ok_spec.
Qed.

Lemma join_non_empty (items : list str) :
  items ≠ [] → Forall (fun x => list_line_ok x = true) items →
  join nl items ≠ [] ∧ trimmed (join nl items) = true.
Proof.
  intros Hne Hl.
  assert (Forall (fun x => x ≠ [] ∧ trimmed x = true) items) as H.
  { eapply Forall_impl; [exact Hl|]. by intros x (? & ? & _)%list_line_ok_spec. }
  destruct (trimmed_join items H) as [Ht Hn]. split; [by apply Hn | done].
Qed.

Lemma research_lines_split (items : list str) :
  Forall (fun x => research_line_ok x = true) items →
  Forall (fun x => list_line_ok x = true) items
  ∧ Forall (fun x => free_of (u "RESEARCH SUMMARY:") x = true) items
  ∧ Forall (fun x => free_of (u "KEY CONCEPTS:") x = true) items
  ∧ Forall (fun x => free_of (u "RESOURCES:") x = true) items
  ∧ Forall (fun x => free_of (u "INSIGHTS:") x = true) items.
Proof.
  intros H. repeat split; (eapply Forall_impl; [exact H|]); intros x Hx;
    unfold research_line_ok, research_header_free in Hx;
    rewrite !andb_true_iff in Hx; tauto.
Qed.

(** A research reply in the requested format is read back. *)
Lemma research_reply_parsed (summary : str) (key_concepts resources : list str)
    (insights : str) :
  research_prose_ok summary = true →
  key_concepts ≠ [] →
  Forall (fun x => research_line_ok x = true) key_concepts →
  resources ≠ [] →
  Forall (fun x => research_line_ok x = true) resources →
  research_prose_ok insights = true →
  ResearchAgent._parse_research_result
    (research_reply_of summary key_concepts resources insights)
  = ResearchAgent.mkResearchData summary key_concepts resources insights.
Proof.
  unfold research_prose_ok, research_header_free. rewrite !andb_true_iff.
  intros (((Hs1 & Hs2) & Hs3) & ((Hs4 & Hs5) & Hs6) & Hs7) Hk0 Hk Hr0 Hr
         (((Hi1 & Hi2) & Hi3) & ((Hi4 & Hi5) & Hi6) & Hi7).
  apply truthy_non_empty in Hs1, Hi1.
  destruct (research_lines_split _ Hk) as (Hkl & Hk1 & Hk2 & Hk3 & Hk4).
  destruct (research_lines_split _ Hr) as (Hrl & Hr1 & Hr2 & Hr3 & Hr4).
  destruct (join_non_empty _ Hk0 Hkl) as [Hkn Hkt].
  destruct (join_non_empty _ Hr0 Hrl) as [Hrn Hrt].
  unfold ResearchAgent._parse_research_result, research_reply_of.
  rewrite split_join; [|done|done|].
  2: { repeat constructor; apply block_closed; try done;
         by apply no_blank_join. }
  unfold ResearchAgent.parse_sections. cbn [fold_left].
  unfold ResearchAgent.parse_section at 4. rewrite block_in.
  unfold ResearchAgent.parse_section at 3.
  rewrite block_out by (first [done | not_in_marker | by apply free_of_join; [not_in_marker|..]]).
  rewrite block_in.
  unfold ResearchAgent.parse_section at 2.
  rewrite !block_out by (first [done | not_in_marker | by apply free_of_join; [not_in_marker|..]]).
  rewrite block_in.
  unfold ResearchAgent.parse_section at 1.
  rewrite !block_out by (first [done | not_in_marker]).
  rewrite block_in. cbn [fst].
  rewrite (block_body _ summary) by (first [done | not_in_marker]).
  rewrite (block_body _ insights) by (first [done | not_in_marker]).
  rewrite (list_block_body _ key_concepts) by (first [done | not_in_marker]).
  rewrite (list_block_body _ resources) by (first [done | not_in_marker]).
  reflexivity.
Qed.

(** X2: the research parser gives back the four fields of a reply in the
    requested format. *)
Theorem parse_research_reply (summary : str) (key_concepts resources : list str)
    (insights : str) :
  research_prose_ok summary = true →
  key_concepts ≠ [] →
  Forall (fun x => research_line_ok x = true) key_concepts →
  resources ≠ [] →
  Forall (fun x => research_line_ok x = true) resources →
  research_prose_ok insights = true →
  ResearchAgent._parse_research_result
    (research_reply_of summary key_concepts resources insights)
  = ResearchAgent.mkResearchData summary key_concepts resources insights.
Proof. apply research_reply_parsed. Qed.

Lemma parse_research_reply_witness :
  ResearchAgent._parse_research_result
    (research_reply_of (u "Microfinance serves" ++ nl ++ u "small borrowers.")
       [u "Group lending"; u "Microsavings"] [u "World Bank report"]
       (u "Demand is growing."))
  = ResearchAgent.mkResearchData
      (u "Microfinance serves" ++ nl ++ u "small borrowers.")
      [u "Group lending"; u "Microsavings"] [u "World Bank report"]
      (u "Demand is growing.").
Proof.
  apply parse_research_reply.
  - vm_compute. reflexivity.
  - discriminate.
  - repeat constructor.
  - discriminate.
  - repeat constructor.
  - vm_compute. reflexivity.
Defined.

End RoundTrips.

(** ** The structure reply read back *)

Module StructureReply.

Import Shape Replies PyStrMore RoundTrips StructureAgent StructureSpec.

Lemma free_of_single (c : N) (s : str) : free_of [c] s = true ↔ c ∉ s.
Proof.
  rewrite free_of_not_occurs. split.
  - intros H Hin. apply H. apply list_elem_of_split in Hin as (a & b & ->).
    by exists a, b.
  - intros H (a & b & ->). apply H. rewrite !elem_of_app. right. left.
    by apply list_elem_of_singleton.
Qed.

Lemma single_line_app (a b : str) :
  single_line a = true → single_line b = true → single_line (a ++ b) = true.
Proof.
  unfold single_line. change nl with [10]. rewrite !free_of_single, elem_of_app.
  tauto.
Qed.

Lemma after_first_colon_app (pre rest : str) :
  58 ∉ pre → after_first_colon (pre ++ 58 :: rest) = Some rest.
Proof.
  induction pre as [|c pre IH]; intros H; [done|].
  apply not_elem_of_cons in H as [Hc Hpre]. cbn [app after_first_colon].
  destruct (N.eqb_spec c 58) as [->|_]; [done | by apply IH].
Qed.

Lemma lesson_ok_spec (l : str * str) :
  lesson_ok l = true →
  (58 ∉ l.1) ∧ single_line l.1 = true ∧ list_line_ok l.2 = true
  ∧ structure_marker_free (lesson_line l) = true.
Proof.
  unfold lesson_ok. rewrite !andb_true_iff. change (u ":") with [58].
  rewrite free_of_single. tauto.
Qed.

Lemma lesson_line_ok (l : str * str) :
  lesson_ok l = true → list_line_ok (lesson_line l) = true.
Proof.
  intros (Hc & Hl & Ht & _)%lesson_ok_spec.
  apply list_line_ok_spec in Ht as (Hne & Htr & Hs).
  apply list_line_ok_spec. unfold lesson_line. repeat split.
  - done.
  - apply trimmed_intro.
    + intros c Hc'. change (Some 45 = Some c) in Hc'. by injection Hc' as <-.
    + intros c. rewrite !app_assoc, last_app.
      destruct (last l.2) as [c'|] eqn:E.
      * intros [= <-]. by apply (trimmed_last l.2).
      * by apply last_None in E.
  - repeat apply single_line_app; done.
Qed.

Lemma lesson_title_read (l : str * str) :
  lesson_ok l = true → lesson_title_of (lesson_line l) = l.2.
Proof.
  intros (Hc & _ & Ht & _)%lesson_ok_spec.
  apply list_line_ok_spec in Ht as (_ & Htr & _).
  unfold lesson_title_of, lesson_line.
  change (u "- " ++ l.1 ++ u ": " ++ l.2) with ((u "- " ++ l.1) ++ 58 :: 32 :: l.2).
  rewrite after_first_colon_app.
  - pose proof (strip_padded [32] l.2 []) as H. rewrite app_nil_r in H.
    apply H; [by repeat constructor | done | done].
  - rewrite not_elem_of_app. split; [not_in_marker | done].
Qed.

Lemma lesson_lines_read (ls : list (str * str)) :
  Forall (fun l => lesson_ok l = true) ls →
  List.map (fun line => mkLessonSkeleton (lesson_title_of line) [])
    (List.filter is_lesson_line (List.map strip (List.map lesson_line ls)))
  = List.map (fun l => mkLessonSkeleton l.2 []) ls.
Proof.
  induction 1 as [|l ls Hl _ IH]; [done|]. cbn [List.map].
  pose proof (lesson_line_ok l Hl) as (_ & Htr & _)%list_line_ok_spec.
  rewrite (strip_trimmed (lesson_line l)) by done. cbn [List.filter].
  replace (is_lesson_line (lesson_line l)) with true
    by (symmetry; apply (startswith_app (u "- "))).
  cbn [List.map]. by rewrite IH, lesson_title_read.
Qed.

Lemma forallb_Forall {A : Type} (f : A → bool) (l : list A) :
  forallb f l = true ↔ Forall (fun x => f x = true) l.
Proof.
  induction l as [|x l IH]; cbn [forallb]; [by split|].
  by rewrite andb_true_iff, Forall_cons, IH.
Qed.

Lemma Forall_map_intro {A B : Type} (f : A → B) (P : B → Prop) (l : list A) :
  Forall (fun x => P (f x)) l → Forall P (List.map f l).
Proof. induction 1; by constructor. Qed.

Lemma module_ok_spec (m : str * list (str * str)) :
  module_ok m = true →
  startswith m.1 (u "MODULE ") = true ∧ list_line_ok m.1 = true
  ∧ structure_marker_free m.1 = true
  ∧ Forall (fun l => lesson_ok l = true) m.2.
Proof.
  unfold module_ok. rewrite !andb_true_iff, forallb_Forall.
  intros ((((Hs & Ht) & Hl) & Hf) & Hls). repeat split; try done.
  apply list_line_ok_spec. repeat split; try done.
  apply startswith_true in Hs as [rest ->]. done.
Qed.

Lemma module_lines_ok (m : str * list (str * str)) :
  module_ok m = true →
  Forall (fun x => list_line_ok x = true) (m.1 :: List.map lesson_line m.2).
Proof.
  intros (_ & Hh & _ & Hls)%module_ok_spec. constructor; [done|].
  apply Forall_map_intro. eapply Forall_impl; [exact Hls|].
  intros l. apply lesson_line_ok.
Qed.

Lemma module_lines_free (m : str * list (str * str)) :
  module_ok m = true →
  Forall (fun x => structure_marker_free x = true)
    (m.1 :: List.map lesson_line m.2).
Proof.
  intros (_ & _ & Hf & Hls)%module_ok_spec. constructor; [done|].
  apply Forall_map_intro. eapply Forall_impl; [exact Hls|].
  by intros l (_ & _ & _ & ?)%lesson_ok_spec.
Qed.

Lemma module_block_split (m : str * list (str * str)) :
  module_ok m = true →
  split (module_block m) nl = m.1 :: List.map lesson_line m.2.
Proof.
  intros H. unfold module_block. apply split_join; [done | done |].
  eapply Forall_impl; [by apply module_lines_ok|].
  intros x (_ & _ & Hs)%list_line_ok_spec. unfold closed_for.
  change (removelast nl) with (@nil N). by rewrite app_nil_r.
Qed.

Lemma module_block_trimmed (m : str * list (str * str)) :
  module_ok m = true →
  module_block m ≠ [] ∧ trimmed (module_block m) = true.
Proof.
  intros H. apply join_non_empty; [done | by apply module_lines_ok].
Qed.

Lemma module_block_free (m : str * list (str * str)) :
  module_ok m = true → structure_marker_free (module_block m) = true.
Proof.
  intros H%module_lines_free. unfold structure_marker_free, module_block.
  rewrite !andb_true_iff. repeat split;
    (apply free_of_join; [not_in_marker | done |]);
    (eapply Forall_impl; [exact H|]); intros x;
    unfold structure_marker_free; rewrite !andb_true_iff; tauto.
Qed.

Lemma module_block_starts (m : str * list (str * str)) :
  module_ok m = true → startswith (module_block m) (u "MODULE ") = true.
Proof.
  intros (Hs & _)%module_ok_spec. apply startswith_true in Hs as [rest Hs].
  unfold module_block. rewrite Hs.
  destruct (List.map lesson_line m.2) as [|y ys]; cbn [join].
  - apply startswith_app.
  - rewrite <- app_assoc. apply startswith_app.
Qed.

Lemma module_block_closed (m : str * list (str * str)) :
  module_ok m = true → closed_for nlnl (module_block m) = true.
Proof.
  intros H. unfold closed_for. change (removelast nlnl) with nl.
  apply no_blank_app.
  - apply no_blank_join. by apply module_lines_ok.
  - done.
  - left. apply trimmed_last_not_nl. by apply module_block_trimmed.
Qed.

Lemma module_of_block (m : str * list (str * str)) :
  module_ok m = true → module_of (module_block m) = skeleton_of m.
Proof.
  intros H. unfold module_of. rewrite module_block_split by done.
  cbn [List.hd List.tl]. unfold skeleton_of.
  destruct (module_ok_spec m H) as (_ & (_ & Ht & _)%list_line_ok_spec & _ & Hls).
  by rewrite strip_trimmed, lesson_lines_read.
Qed.

Lemma free_of_contains (sub s : str) :
  free_of sub s = true → contains s sub = false.
Proof. unfold free_of. by rewrite negb_true_iff. Qed.

Lemma parse_section_module (d : CourseStructure) (m : str * list (str * str)) :
  module_ok m = true →
  parse_section d (module_block m)
  = mkCourseStructure (course_title d) (course_description d)
      (modules d ++ [skeleton_of m]) (rationale d).
Proof.
  intros H. unfold parse_section. cbv zeta.
  rewrite strip_trimmed by (by apply module_block_trimmed).
  pose proof (module_block_free m H) as Hf. unfold structure_marker_free in Hf.
  rewrite !andb_true_iff in Hf. destruct Hf as ((H1 & H2) & H3).
  rewrite !free_of_contains by done.
  rewrite module_block_starts by done.
  by rewrite StructureParsing.parse_module_spec, module_of_block.
Qed.

Lemma parse_sections_module_blocks (ms : list (str * list (str * str)))
    (d : CourseStructure) :
  Forall (fun m => module_ok m = true) ms →
  fold_left parse_section (List.map module_block ms) d
  = mkCourseStructure (course_title d) (course_description d)
      (modules d ++ List.map skeleton_of ms) (rationale d).
Proof.
  intros H. revert d. induction H as [|m ms Hm _ IH]; intros d.
  - cbn [List.map fold_left]. rewrite app_nil_r. by destruct d.
  - cbn [List.map fold_left]. rewrite parse_section_module, IH by done.
    cbn [course_title course_description modules rationale].
    by rewrite <- app_assoc.
Qed.

Lemma prose_ok_spec (x : str) :
  prose_ok x = true ↔ x ≠ [] ∧ trimmed x = true ∧ free_of nlnl x = true.
Proof.
  unfold prose_ok. rewrite !andb_true_iff, truthy_non_empty. tauto.
Qed.

Lemma prose_block_trimmed (header body : str) :
  header ≠ [] → trimmed header = true → prose_ok body = true →
  strip (header ++ nl ++ body) = header ++ nl ++ body.
Proof.
  intros Hh Ht (Hne & Htr & _)%prose_ok_spec.
  apply strip_trimmed. by apply trimmed_wrap.
Qed.

Lemma prose_block_closed (header body : str) :
  free_of nlnl header = true → last header ≠ Some 10 →
  prose_ok body = true →
  closed_for nlnl (header ++ nl ++ body) = true.
Proof.
  intros Hh Hl (Hne & Htr & Hf)%prose_ok_spec. by apply block_closed.
Qed.

Lemma parse_section_title (d : CourseStructure) (t : str) :
  course_title_ok t = true →
  parse_section d (u "COURSE TITLE:" ++ nl ++ t)
  = mkCourseStructure t (course_description d) (modules d) (rationale d).
Proof.
  unfold course_title_ok. rewrite andb_true_iff. intros [Hp Hf].
  unfold parse_section. cbv zeta. rewrite prose_block_trimmed by done.
  rewrite block_in. rewrite block_body; [done | done | not_in_marker | done |].
  by apply prose_ok_spec in Hp as (_ & ? & _).
Qed.

Lemma parse_section_description (d : CourseStructure) (t : str) :
  course_description_ok t = true →
  parse_section d (u "COURSE DESCRIPTION:" ++ nl ++ t)
  = mkCourseStructure (course_title d) t (modules d) (rationale d).
Proof.
  unfold course_description_ok. rewrite !andb_true_iff. intros [[Hp Hf1] Hf2].
  unfold parse_section. cbv zeta. rewrite prose_block_trimmed by done.
  rewrite block_out by (first [done | not_in_marker]).
  rewrite block_in. rewrite block_body; [done | done | not_in_marker | done |].
  by apply prose_ok_spec in Hp as (_ & ? & _).
Qed.

Lemma parse_section_rationale (d : CourseStructure) (t : str) :
  rationale_ok t = true →
  parse_section d (u "RATIONALE:" ++ nl ++ t)
  = mkCourseStructure (course_title d) (course_description d) (modules d) t.
Proof.
  unfold rationale_ok, structure_marker_free. rewrite !andb_true_iff.
  intros [Hp [[Hf1 Hf2] Hf3]].
  unfold parse_section. cbv zeta. rewrite prose_block_trimmed by done.
  rewrite !block_out by (first [done | not_in_marker]).
  rewrite block_in. rewrite block_body; [done | done | not_in_marker | done |].
  by apply prose_ok_spec in Hp as (_ & ? & _).
Qed.

(** A structure reply in the requested format is read back. *)
Lemma structure_reply_parsed (title description : str)
    (modules : list (str * list (str * str))) (rationale : str) :
  course_title_ok title = true →
  course_description_ok description = true →
  Forall (fun m => module_ok m = true) modules →
  rationale_ok rationale = true →
  _parse_structure_result (structure_reply_of title description modules rationale)
  = mkCourseStructure title description (List.map skeleton_of modules) rationale.
Proof.
  intros Ht Hd Hm Hr.
  unfold _parse_structure_result, structure_reply_of.
  rewrite split_join; [| done | done |].
  - cbn [app fold_left]. rewrite fold_left_app. cbn [fold_left].
    rewrite parse_section_title, parse_section_description by done.
    rewrite parse_sections_module_blocks by done.
    by rewrite parse_section_rationale.
  - unfold course_title_ok, course_description_ok, rationale_ok in *.
    rewrite !andb_true_iff in *.
    destruct Ht as [Ht _], Hd as [[Hd _] _], Hr as [Hr _].
    repeat (apply Forall_cons; split); [| | apply Forall_app; split].
    + by apply prose_block_closed.
    + by apply prose_block_closed.
    + apply Forall_map_intro. eapply Forall_impl; [exact Hm|].
      intros m. apply module_block_closed.
    + repeat constructor. by apply prose_block_closed.
Qed.

(** X3: the structure parser gives back the title, the description, the
    modules with their lessons and the rationale of a reply in the
    requested format. *)
Theorem parse_structure_reply (title description : str)
    (modules : list (str * list (str * str))) (rationale : str) :
  course_title_ok title = true →
  course_description_ok description = true →
  Forall (fun m => module_ok m = true) modules →
  rationale_ok rationale = true →
  _parse_structure_result (structure_reply_of title description modules rationale)
  = mkCourseStructure title description (List.map skeleton_of modules) rationale.
Proof. apply structure_reply_parsed. Qed.

Lemma parse_structure_reply_witness :
  _parse_structure_result
    (structure_reply_of (u "Microfinance") (u "How small loans work.")
       [(u "MODULE 1: Basics",
         [(u "Lesson 1.1", u "What it is"); (u "Lesson 1.2", u "Who borrows")]);
        (u "MODULE 2: Practice", [(u "Lesson 2.1", u "Group lending")])]
       (u "From simple to applied."))
  = mkCourseStructure (u "Microfinance") (u "How small loans work.")
      [mkModuleSkeleton (u "MODULE 1: Basics")
         [mkLessonSkeleton (u "What it is") [];
          mkLessonSkeleton (u "Who borrows") []];
       mkModuleSkeleton (u "MODULE 2: Practice")
         [mkLessonSkeleton (u "Group lending") []]]
      (u "From simple to applied.").
Proof.
  apply (parse_structure_reply (u "Microfinance") (u "How small loans work.")
           [(u "MODULE 1: Basics",
             [(u "Lesson 1.1", u "What it is"); (u "Lesson 1.2", u "Who borrows")]);
            (u "MODULE 2: Practice", [(u "Lesson 2.1", u "Group lending")])]
           (u "From simple to applied.")).
  - vm_compute. reflexivity.
  - vm_compute. reflexivity.
  - repeat constructor.
  - vm_compute. reflexivity.
Defined.

End StructureReply.

(** ** The shape of what the parsers return *)

Module ParsedShape.

Import Shape Replies PyStrMore RoundTrips.

Lemma stripped_lines_clean (text : str) :
  Forall (fun x => list_line_ok x = true) (stripped_lines text).
Proof.
  apply Forall_forall. intros x Hx. apply list_line_ok_spec.
  by apply stripped_lines_items with text.
Qed.

Lemma research_lists_step (acc : ResearchAgent.ResearchData * option ResearchAgent.section_name)
    (section : str) :
  Forall (fun x => list_line_ok x = true) (ResearchAgent.key_concepts acc.1)
  ∧ Forall (fun x => list_line_ok x = true) (ResearchAgent.resources acc.1) →
  Forall (fun x => list_line_ok x = true)
    (ResearchAgent.key_concepts (ResearchAgent.parse_section acc section).1)
  ∧ Forall (fun x => list_line_ok x = true)
      (ResearchAgent.resources (ResearchAgent.parse_section acc section).1).
Proof.
  destruct acc as [d cur]. unfold ResearchAgent.parse_section.
  cbn [fst]. intros [Hk Hr].
  repeat case_match;
    cbn [fst ResearchAgent.key_concepts ResearchAgent.resources];
    (split;
     first [done | apply stripped_lines_clean
           | apply Forall_app; split; [done | apply stripped_lines_clean]]).
Qed.

Lemma research_lists_fold (sections : list str)
    (acc : ResearchAgent.ResearchData * option ResearchAgent.section_name) :
  Forall (fun x => list_line_ok x = true) (ResearchAgent.key_concepts acc.1)
  ∧ Forall (fun x => list_line_ok x = true) (ResearchAgent.resources acc.1) →
  Forall (fun x => list_line_ok x = true)
    (ResearchAgent.key_concepts (fold_left ResearchAgent.parse_section sections acc).1)
  ∧ Forall (fun x => list_line_ok x = true)
      (ResearchAgent.resources (fold_left ResearchAgent.parse_section sections acc).1).
Proof.
  revert acc. induction sections as [|s sections IH]; intros acc H; [done|].
  cbn [fold_left]. apply IH. by apply research_lists_step.
Qed.

(** X4: whatever the reply is, the key concepts and the resources the
    parsers return are lines: not empty, without white space at the
    ends, without a line feed. *)
Theorem parsed_lists_are_lines (text : str) :
  Forall (fun x => list_line_ok x = true)
    (ResearchAgent.key_concepts (ResearchAgent._parse_research_result text))
  ∧ Forall (fun x => list_line_ok x = true)
      (ResearchAgent.resources (ResearchAgent._parse_research_result text))
  ∧ Forall (fun x => list_line_ok x = true)
      (ContentAgent.resources (ContentAgent._parse_content_result text)).
Proof.
  pose proof (research_lists_fold (split text nlnl) (ResearchAgent.initial, None))
    as [Hk Hr]; [by split|].
  split; [exact Hk|]. split; [exact Hr|].
  unfold ContentAgent._parse_content_result.
  repeat case_match; cbn [ContentAgent.resources];
    first [apply stripped_lines_clean | constructor].
Qed.

End ParsedShape.

(** ** The fields of a structure that a reply does not give *)

Module StructureFields.

Import Shape PyStrFacts PyStrMore StructureAgent.

Lemma block_without (text marker p : str) :
  ¬ occurs_in marker text → p ∈ split text nlnl →
  contains (strip p) marker = false.
Proof.
  intros H Hp. apply contains_false. intros Ho. apply H.
  eapply occurs_in_trans; [exact Ho|].
  eapply occurs_in_trans; [apply strip_part | by apply split_pieces with nlnl].
Qed.

Lemma fold_kept {A : Type} (f : CourseStructure → A) (sections : list str)
    (d : CourseStructure) :
  Forall (fun s => ∀ d', f (parse_section d' s) = f d') sections →
  f (fold_left parse_section sections d) = f d.
Proof.
  intros H. revert d. induction H as [|s sections Hs _ IH]; intros d; [done|].
  cbn [fold_left]. by rewrite IH, Hs.
Qed.

Lemma title_kept (d : CourseStructure) (section : str) :
  contains (strip section) (u "COURSE TITLE:") = false →
  course_title (parse_section d section) = course_title d.
Proof.
  intros H. unfold parse_section. cbv zeta. rewrite H. by repeat case_match.
Qed.

Lemma description_kept (d : CourseStructure) (section : str) :
  contains (strip section) (u "COURSE DESCRIPTION:") = false →
  course_description (parse_section d section) = course_description d.
Proof.
  intros H. unfold parse_section. cbv zeta. rewrite H. by repeat case_match.
Qed.

Lemma rationale_kept (d : CourseStructure) (section : str) :
  contains (strip section) (u "RATIONALE:") = false →
  rationale (parse_section d section) = rationale d.
Proof.
  intros H. unfold parse_section. cbv zeta. rewrite H. by repeat case_match.
Qed.

Lemma modules_kept (d : CourseStructure) (section : str) :
  contains (strip section) (u "MODULE ") = false →
  modules (parse_section d section) = modules d.
Proof.
  intros H. unfold parse_section. cbv zeta.
  assert (startswith (strip section) (u "MODULE ") = false) as ->.
  { apply not_true_is_false. intros [b Hb]%startswith_true.
    apply contains_false in H. apply H. exists [], b. by rewrite Hb. }
  by repeat case_match.
Qed.

(** X5: a field whose marker does not occur in the reply keeps its initial
    value: the empty string, or no module at all. *)
Theorem parse_structure_result_defaults (text : str) :
  (¬ occurs_in (u "COURSE TITLE:") text →
     course_title (_parse_structure_result text) = [])
  ∧ (¬ occurs_in (u "COURSE DESCRIPTION:") text →
     course_description (_parse_structure_result text) = [])
  ∧ (¬ occurs_in (u "RATIONALE:") text →
     rationale (_parse_structure_result text) = [])
  ∧ (¬ occurs_in (u "MODULE ") text →
     modules (_parse_structure_result text) = []).
Proof.
  unfold _parse_structure_result.
  repeat split; intros H;
    (rewrite fold_kept; [done|]); apply Forall_forall; intros p Hp d.
  - apply title_kept. by apply block_without with text.
  - apply description_kept. by apply block_without with text.
  - apply rationale_kept. by apply block_without with text.
  - apply modules_kept. by apply block_without with text.
Qed.

Lemma parse_structure_result_defaults_witness :
  course_title
    (_parse_structure_result (u "MODULE 1: A" ++ nl ++ u "- Lesson 1.1: B")) = []
  ∧ rationale
      (_parse_structure_result (u "MODULE 1: A" ++ nl ++ u "- Lesson 1.1: B")) = []
  ∧ modules (_parse_structure_result (u "Module 1: A")) = [].
Proof.
  pose proof (parse_structure_result_defaults
                (u "MODULE 1: A" ++ nl ++ u "- Lesson 1.1: B")) as (H1 & _ & H3 & _).
  pose proof (parse_structure_result_defaults (u "Module 1: A")) as (_ & _ & _ & H4).
  split; [|split]; [apply H1 | apply H3 | apply H4];
    apply contains_false; vm_compute; reflexivity.
Defined.

End StructureFields.

(** ** The shape of the parsed modules *)

Module StructureShape.

Import Shape PyStrFacts PyStrMore RoundTrips StructureAgent StructureSpec.

Lemma split_go_single_prefix (x : N) (pre cur rest : str) :
  x ∉ pre →
  split_go [x] None O cur (pre ++ rest) = split_go [x] None O (cur ++ pre) rest.
Proof.
  revert cur. induction pre as [|c pre IH]; intros cur H.
  - by rewrite app_nil_r.
  - apply not_elem_of_cons in H as [Hc Hpre].
    cbn [app split_go may andb startswith].
    destruct (N.eqb_spec x c) as [->|_]; [done|]. cbn [andb].
    rewrite IH by done. by rewrite <- app_assoc.
Qed.

Lemma split_go_head (sep : str) (count : option nat) (skip : nat) (cur s : str) :
  ∃ (t : str) (l : list str), split_go sep count skip cur s = (cur ++ t) :: l.
Proof.
  revert count skip cur. induction s as [|c s IH]; intros count skip cur.
  - exists [], []. by rewrite app_nil_r.
  - cbn [split_go]. destruct skip; [|apply IH].
    destruct (may count && startswith (c :: s) sep).
    + eexists [], _. by rewrite app_nil_r.
    + destruct (IH count O (cur ++ [c])) as (t & l & ->).
      exists (c :: t), l. by rewrite <- app_assoc.
Qed.

(** The first line of a text begins with what the text begins with, up
    to its first line feed. *)
Lemma first_line_prefix (pre rest : str) :
  10 ∉ pre → ∃ t : str, List.hd [] (split (pre ++ rest) nl) = pre ++ t.
Proof.
  intros H. unfold split. change nl with [10].
  rewrite split_go_single_prefix by done.
  destruct (split_go_head [10] None 0 ([] ++ pre) rest) as (t & l & ->).
  by exists t.
Qed.

Lemma rstrip_keeps_prefix (pre rest : str) :
  Forall (fun c => isspace c = false) pre →
  ∃ r : str, rstrip (pre ++ rest) = pre ++ r.
Proof.
  intros Hpre. destruct (rstrip_parts (pre ++ rest)) as (ws & Hs & Hws).
  revert Hs. generalize (rstrip (pre ++ rest)) as r.
  induction Hpre as [|c pre Hc _ IH]; intros r Hs; [by exists r|].
  destruct r as [|c' r].
  - cbn [app] in Hs. subst ws. inversion_clear Hws as [|? ? Hc' _]. congruence.
  - cbn [app] in Hs. injection Hs as <- Hs.
    destruct (IH r Hs) as [r' ->]. by exists r'.
Qed.

(** The title of a block that begins with ["MODULE "]. *)
Lemma module_title_shape (blk : str) :
  startswith blk (u "MODULE ") = true →
  startswith (module_title (module_of blk)) (u "MODULE") = true
  ∧ trimmed (module_title (module_of blk)) = true.
Proof.
  intros [rest ->]%startswith_true. split; [|apply strip_is_trimmed].
  unfold module_of. cbv zeta. cbn [module_title].
  destruct (first_line_prefix (u "MODULE ") rest) as [t ->]; [not_in_marker|].
  unfold strip. change (u "MODULE " ++ t) with (77 :: (u "ODULE " ++ t)).
  rewrite (lstrip_fixed 77) by done.
  destruct (rstrip_keeps_prefix (u "MODULE") (32 :: t)) as [r Hr];
    [by repeat constructor|].
  change (77 :: (u "ODULE " ++ t)) with (u "MODULE" ++ 32 :: t). rewrite Hr.
  apply startswith_app.
Qed.

Lemma lesson_title_trimmed (line : str) : trimmed (lesson_title_of line) = true.
Proof.
  unfold lesson_title_of. destruct (after_first_colon line); apply strip_is_trimmed.
Qed.

(** X6: whatever the reply is, the title of every parsed module begins
    with [MODULE], the markers' own word, and has no white space at its
    ends; the title of every lesson has none either, and the content of
    every lesson is the empty placeholder. *)
Theorem parsed_modules_shape (text : str) :
  Forall
    (fun m =>
       startswith (module_title m) (u "MODULE") = true
       ∧ trimmed (module_title m) = true
       ∧ Forall (fun l => lesson_content l = [] ∧ trimmed (lesson_title l) = true)
           (module_lessons m))
    (modules (_parse_structure_result text)).
Proof.
  unfold _parse_structure_result.
  rewrite StructureParsing.parse_sections_modules. cbn [modules initial app].
  apply Forall_forall. intros m Hm.
  apply list_elem_of_In, in_map_iff in Hm as (blk & <- & Hblk).
  apply filter_In in Hblk as [_ Hblk]. unfold is_module_block in Hblk.
  rewrite !andb_true_iff in Hblk. destruct Hblk as [_ Hstart].
  destruct (module_title_shape blk Hstart) as [H1 H2].
  split; [done|]. split; [done|].
  unfold module_of. cbv zeta. cbn [module_lessons].
  apply Forall_forall. intros l Hl.
  apply list_elem_of_In, in_map_iff in Hl as (line & <- & _).
  split; [done | apply lesson_title_trimmed].
Qed.

End StructureShape.

(** ** The invocations and the outline of a request *)

Module Pipeline.

Import Orchestrator LangGraph Run Entries Outline.

Lemma content_calls_app (k n1 n2 : nat) :
  content_calls k (n1 + n2) = content_calls k n1 ++ content_calls (k + n1) n2.
Proof. unfold content_calls. by rewrite seq_app, map_app. Qed.

Lemma content_calls_length (k n : nat) : length (content_calls k n) = n.
Proof. unfold content_calls. by rewrite length_map, length_seq. Qed.

Section Content.

Variable b : Backend.
Variable state : AgentState.
Variable cs : StructureAgent.CourseStructure.

Local Abbreviation calls_per_lesson := (Entries.calls_per_lesson state).
Local Abbreviation filled := (Entries.filled b state cs).
Local Abbreviation module_entries := (Entries.module_entries b state cs).

Lemma generate_lesson_content_log (k : nat) (mt lt : str) :
  (ContentAgent.generate_lesson_content b k
     (StructureAgent.course_title cs) (StructureAgent.course_description cs)
     mt lt (research_data state)
     (or_empty (target_audience state))
     (or_empty (course_duration state))).2
  = content_calls k calls_per_lesson.
Proof.
  unfold ContentAgent.generate_lesson_content, Entries.calls_per_lesson.
  destruct (research_data state); [|done].
  unfold run. by destruct (chain b AContent k _).
Qed.

(** The loop over the lessons of a module invokes the content chain
    once per lesson, with consecutive numbers. *)
Lemma lessons_log (mt : str) (lessons : list StructureAgent.LessonSkeleton)
    (cd : gmap str (list LessonDict)) (k : nat) (log : list call) :
  ∃ cd' : gmap str (list LessonDict),
    fold_left
      (lesson_step b state (StructureAgent.course_title cs)
         (StructureAgent.course_description cs) mt)
      lessons (cd, k, log)
    = (cd', (k + length lessons * calls_per_lesson)%nat,
       log ++ content_calls k (length lessons * calls_per_lesson)).
Proof.
  revert cd k log. induction lessons as [|lesson lessons IH]; intros cd k log.
  - exists cd. cbn [fold_left length]. rewrite Nat.mul_0_l, Nat.add_0_r.
    by rewrite app_nil_r.
  - cbn [fold_left]. unfold lesson_step at 2.
    pose proof (generate_lesson_content_log k mt
                  (StructureAgent.lesson_title lesson)) as Hlog.
    destruct (ContentAgent.generate_lesson_content _ _ _ _ _ _ _ _ _)
      as [r calls]. cbn [snd] in Hlog. subst calls.
    rewrite content_calls_length.
    edestruct IH as [cd' ->]. exists cd'. cbn [length].
    rewrite <- app_assoc, <- content_calls_app.
    change (S (length lessons) * calls_per_lesson)%nat
      with (calls_per_lesson + length lessons * calls_per_lesson)%nat.
    by rewrite Nat.add_assoc.
Qed.

Lemma modules_log (modules : list StructureAgent.ModuleSkeleton)
    (cd : gmap str (list LessonDict)) (k : nat) (log : list call) :
  ∃ cd' : gmap str (list LessonDict),
    fold_left
      (module_step b state (StructureAgent.course_title cs)
         (StructureAgent.course_description cs))
      modules (cd, k, log)
    = (cd', (k + lessons_in modules * calls_per_lesson)%nat,
       log ++ content_calls k (lessons_in modules * calls_per_lesson)).
Proof.
  revert cd k log. induction modules as [|m modules IH]; intros cd k log.
  - exists cd. cbn [fold_left]. unfold lessons_in. cbn [List.map concat length].
    rewrite Nat.mul_0_l, Nat.add_0_r. by rewrite app_nil_r.
  - cbn [fold_left]. unfold module_step at 2.
    edestruct (lessons_log (StructureAgent.module_title m)
                 (StructureAgent.module_lessons m)) as [cd1 ->].
    edestruct IH as [cd' ->]. exists cd'.
    unfold lessons_in. cbn [List.map concat]. rewrite length_app.
    rewrite <- app_assoc, <- content_calls_app.
    by rewrite Nat.mul_add_distr_r, Nat.add_assoc.
Qed.

(** A title is a key of the filled dictionary when it was one before or
    a module has it. *)
Lemma filled_is_Some (modules : list StructureAgent.ModuleSkeleton) (k : nat)
    (cd : gmap str (list LessonDict)) (t : str) :
  is_Some (filled modules k cd !! t)
  ↔ is_Some (cd !! t)
    ∨ Exists (fun m => StructureAgent.module_title m = t) modules.
Proof.
  revert k cd. induction modules as [|m modules IH]; intros k cd.
  - cbn [Entries.filled]. rewrite Exists_nil. tauto.
  - cbn [Entries.filled]. rewrite IH, Exists_cons, lookup_insert_is_Some.
    destruct (decide (StructureAgent.module_title m = t)); tauto.
Qed.

Lemma imap_entry_titles
    (f : nat → StructureAgent.LessonSkeleton → ContentAgent.ContentDict + str)
    (lessons : list StructureAgent.LessonSkeleton) :
  entry_titles
    (imap (fun j lesson =>
             lesson_entry (StructureAgent.lesson_title lesson) (f j lesson))
       lessons)
  = List.map StructureAgent.lesson_title lessons.
Proof.
  unfold entry_titles. revert f.
  induction lessons as [|lesson lessons IH]; intros f; [done|].
  cbn [imap List.map]. f_equal.
  - by destruct (f 0%nat lesson).
  - apply (IH (fun j => f (S j))).
Qed.

Lemma module_entries_titles (k : nat) (m : StructureAgent.ModuleSkeleton) :
  entry_titles (module_entries k m)
  = List.map StructureAgent.lesson_title (StructureAgent.module_lessons m).
Proof.
  unfold Entries.module_entries.
  apply (imap_entry_titles
           (fun j lesson =>
              Entries.lesson_result b state cs (StructureAgent.module_title m)
                (k + j * calls_per_lesson) lesson)).
Qed.

Lemma fanout_log :
  (Run.fanout_of b state cs).2
  = content_calls 0 (lessons_in (StructureAgent.modules cs) * calls_per_lesson).
Proof.
  unfold Run.fanout_of.
  by destruct (modules_log (StructureAgent.modules cs) ∅ 0 []) as [cd' ->].
Qed.

Lemma fanout_filled :
  (Run.fanout_of b state cs).1.1 = filled (StructureAgent.modules cs) 0 ∅.
Proof.
  unfold Run.fanout_of.
  by destruct (FanOut.modules_loop b state cs (StructureAgent.modules cs) ∅ 0 [])
    as [log' ->].
Qed.

(** The titles of the entries under the title of a module that no later
    module repeats. *)
Lemma filled_titles (before : list StructureAgent.ModuleSkeleton)
    (m : StructureAgent.ModuleSkeleton)
    (after : list StructureAgent.ModuleSkeleton) :
  Forall (fun m' => StructureAgent.module_title m'
                    ≠ StructureAgent.module_title m) after →
  entry_titles
    (get_lessons (filled (before ++ m :: after) 0 ∅) (StructureAgent.module_title m))
  = List.map StructureAgent.lesson_title (StructureAgent.module_lessons m).
Proof.
  intros H. unfold get_lessons.
  rewrite (FanOut.filled_lookup_last b state cs before m after 0 ∅ H).
  apply module_entries_titles.
Qed.

End Content.

Lemma research_topic_log (b : Backend) (topic audience duration : str) :
  (ResearchAgent.research_topic b topic audience duration).2 = [mkCall AResearch 0].
Proof.
  unfold ResearchAgent.research_topic, run. by destruct (chain b AResearch 0 _).
Qed.

Lemma create_structure_log (b : Backend) (topic : str)
    (rd : ResearchAgent.ResearchDict) (audience duration : str) :
  (StructureAgent.create_structure b topic rd audience duration).2
  = [mkCall AStructure 0].
Proof.
  unfold StructureAgent.create_structure, run. by destruct (chain b AStructure 0 _).
Qed.

Lemma finalize_course_log (state : AgentState) : (finalize_course state).2 = [].
Proof. unfold finalize_course. by repeat case_match. Qed.

Lemma references_of_research (rd : ResearchAgent.ResearchDict) :
  gather_references (Some rd) = ResearchAgent.get_resources rd.
Proof. by destruct rd. Qed.

Lemma titles_after (before : list StructureAgent.ModuleSkeleton)
    (m : StructureAgent.ModuleSkeleton)
    (after : list StructureAgent.ModuleSkeleton) :
  NoDup (List.map StructureAgent.module_title (before ++ m :: after)) →
  Forall (fun m' => StructureAgent.module_title m'
                    ≠ StructureAgent.module_title m) after.
Proof.
  rewrite map_app. cbn [List.map].
  intros (_ & _ & [Hnot _]%NoDup_cons)%NoDup_app.
  apply Forall_forall. intros m' Hin Heq. apply Hnot. rewrite <- Heq.
  apply list_elem_of_In, in_map. by apply list_elem_of_In.
Qed.

(** The entry of a lesson of a module whose title no later module
    repeats is made from the reply to the invocation that has the
    lesson's number, on the lesson's own inputs. *)
Lemma numbered_entry (b : Backend) (state : AgentState)
    (cs : StructureAgent.CourseStructure) (rd : ResearchAgent.ResearchDict)
    (i j : nat) (m : StructureAgent.ModuleSkeleton)
    (lesson : StructureAgent.LessonSkeleton) :
  research_data state = Some rd →
  StructureAgent.modules cs !! i = Some m →
  StructureAgent.module_lessons m !! j = Some lesson →
  (∀ (n : nat) (m' : StructureAgent.ModuleSkeleton),
     (i < n)%nat → StructureAgent.modules cs !! n = Some m' →
     StructureAgent.module_title m' ≠ StructureAgent.module_title m) →
  ∃ entries : list LessonDict,
    Entries.filled b state cs (StructureAgent.modules cs) 0 ∅
      !! StructureAgent.module_title m = Some entries
    ∧ entries !! j
      = Some (lesson_entry (StructureAgent.lesson_title lesson)
                match chain b AContent
                        (lessons_in (take i (StructureAgent.modules cs)) + j)
                        (ContentAgent.lesson_inputs b
                           (StructureAgent.course_title cs)
                           (StructureAgent.course_description cs)
                           (StructureAgent.module_title m)
                           (StructureAgent.lesson_title lesson) rd
                           (or_empty (target_audience state))
                           (or_empty (course_duration state))
                         ++ [(u "context", [])]) with
                | Returns text => inl (ContentAgent._parse_content_result text)
                | Raises e => inr e
                end).
Proof.
  intros Hrd Hm Hl Hlater.
  exists (Entries.module_entries b state cs
            (lessons_in (take i (StructureAgent.modules cs))) m).
  split.
  - rewrite <- (take_drop_middle _ i m Hm) at 1.
    rewrite FanOut.filled_lookup_last.
    + do 2 f_equal. unfold Entries.calls_per_lesson. rewrite Hrd. lia.
    + apply Forall_forall. intros m' Hm' Heq.
      apply list_elem_of_lookup_1 in Hm' as [n Hn].
      rewrite lookup_drop in Hn. by eapply (Hlater (S i + n)%nat m'); [lia|..].
  - unfold Entries.module_entries. rewrite list_lookup_imap, Hl.
    cbn [fmap option_fmap option_map]. do 2 f_equal.
    unfold Entries.lesson_result, Entries.calls_per_lesson. rewrite Hrd.
    rewrite Nat.mul_1_r.
    unfold ContentAgent.generate_lesson_content, run.
    by destruct (chain b AContent _ _).
Qed.

(** X7: the Content stage invokes the content chain once per lesson of the
    structure and numbers the invocations from 0; the invocation
    numbered [k] is the one made for the [k]-th lesson, counting through
    the modules in their order and through the lessons of each in
    theirs: the entry of a lesson is made from the reply to the
    invocation that has the lesson's number, on the lesson's own inputs
    (stated for a module whose title no later module repeats, whose
    entries are the ones kept).  Without a structure, or without
    research data, the stage invokes nothing. *)
Theorem content_stage_calls (b : Backend) (state : AgentState) :
  (generate_course_content b state).2
  = match course_structure state, research_data state with
    | Some cs, Some _ => content_calls 0 (lessons_in (StructureAgent.modules cs))
    | _, _ => []
    end
  ∧ ∀ (cs : StructureAgent.CourseStructure) (rd : ResearchAgent.ResearchDict)
      (i j : nat) (m : StructureAgent.ModuleSkeleton)
      (lesson : StructureAgent.LessonSkeleton),
      course_structure state = Some cs →
      research_data state = Some rd →
      StructureAgent.modules cs !! i = Some m →
      StructureAgent.module_lessons m !! j = Some lesson →
      (∀ (n : nat) (m' : StructureAgent.ModuleSkeleton),
         (i < n)%nat → StructureAgent.modules cs !! n = Some m' →
         StructureAgent.module_title m' ≠ StructureAgent.module_title m) →
      ∃ (cd : gmap str (list LessonDict)) (entries : list LessonDict),
        content_data (generate_course_content b state).1 = Some cd
        ∧ cd !! StructureAgent.module_title m = Some entries
        ∧ entries !! j
          = Some (lesson_entry (StructureAgent.lesson_title lesson)
                    match chain b AContent
                            (lessons_in (take i (StructureAgent.modules cs)) + j)
                            (ContentAgent.lesson_inputs b
                               (StructureAgent.course_title cs)
                               (StructureAgent.course_description cs)
                               (StructureAgent.module_title m)
                               (StructureAgent.lesson_title lesson) rd
                               (or_empty (target_audience state))
                               (or_empty (course_duration state))
                             ++ [(u "context", [])]) with
                    | Returns text => inl (ContentAgent._parse_content_result text)
                    | Raises e => inr e
                    end).
Proof.
  split.
  - destruct (course_structure state) as [cs|] eqn:Hcs.
    + rewrite (GraphRun.generate_course_content_some b state cs Hcs). cbn [snd].
      rewrite fanout_log. unfold Entries.calls_per_lesson.
      destruct (research_data state).
      * by rewrite Nat.mul_1_r.
      * by rewrite Nat.mul_0_r.
    + unfold generate_course_content. by rewrite Hcs.
  - intros cs rd i j m lesson Hcs Hrd Hm Hl Hlater.
    destruct (numbered_entry b state cs rd i j m lesson Hrd Hm Hl Hlater)
      as (entries & Hlook & Hentry).
    exists (Entries.filled b state cs (StructureAgent.modules cs) 0 ∅), entries.
    split; [|done].
    by rewrite (FanOut.generate_course_content_filled b state cs Hcs).
Qed.

Lemma content_stage_calls_witness :
  ∃ (cd : gmap str (list LessonDict)) (entries : list LessonDict),
    content_data
      (generate_course_content Samples.twin_titles Samples.twins).1 = Some cd
    ∧ cd !! u "MODULE X" = Some entries
    ∧ entries !! 0%nat
      = Some (lesson_entry (u "b")
                match chain Samples.twin_titles AContent 1
                        (ContentAgent.lesson_inputs Samples.twin_titles [] []
                           (u "MODULE X") (u "b")
                           (ResearchAgent.Parsed ResearchAgent.initial) [] []
                         ++ [(u "context", [])]) with
                | Returns text => inl (ContentAgent._parse_content_result text)
                | Raises e => inr e
                end).
Proof.
  apply (proj2 (content_stage_calls Samples.twin_titles Samples.twins)
           (StructureAgent.mkCourseStructure [] []
              [StructureAgent.mkModuleSkeleton (u "MODULE X")
                 [StructureAgent.mkLessonSkeleton (u "a") []];
               StructureAgent.mkModuleSkeleton (u "MODULE X")
                 [StructureAgent.mkLessonSkeleton (u "b") []]] [])
           (ResearchAgent.Parsed ResearchAgent.initial) 1%nat 0%nat
           (StructureAgent.mkModuleSkeleton (u "MODULE X")
              [StructureAgent.mkLessonSkeleton (u "b") []])
           (StructureAgent.mkLessonSkeleton (u "b") [])).
  - reflexivity.
  - reflexivity.
  - reflexivity.
  - reflexivity.
  - intros n m' Hn Hm'. destruct n as [|[|n]]; [lia | lia | discriminate Hm'].
Defined.

(** X8: after the Content stage [content_data] has exactly the module
    titles of the structure as keys, and under each key one entry per
    lesson of a module with that title, in order and under the lesson's
    title. *)
Theorem content_data_shape (b : Backend) (state : AgentState)
    (cs : StructureAgent.CourseStructure) :
  course_structure state = Some cs →
  ∃ cd : gmap str (list LessonDict),
    content_data (generate_course_content b state).1 = Some cd
    ∧ (∀ t : str,
         is_Some (cd !! t)
         ↔ ∃ m, m ∈ StructureAgent.modules cs ∧ StructureAgent.module_title m = t)
    ∧ (∀ (t : str) (entries : list LessonDict),
         cd !! t = Some entries →
         ∃ m, m ∈ StructureAgent.modules cs
              ∧ StructureAgent.module_title m = t
              ∧ entry_titles entries
                = List.map StructureAgent.lesson_title
                    (StructureAgent.module_lessons m)).
Proof.
  intros Hcs. exists (Entries.filled b state cs (StructureAgent.modules cs) 0 ∅).
  assert (∀ t : str,
            is_Some (Entries.filled b state cs (StructureAgent.modules cs) 0 ∅ !! t)
            ↔ ∃ m, m ∈ StructureAgent.modules cs
                   ∧ StructureAgent.module_title m = t) as Hkeys.
  { intros t. rewrite filled_is_Some, Exists_exists.
    pose proof (lookup_empty_is_Some (M := gmap str) (A := list LessonDict) t).
    tauto. }
  split; [|split]; [| exact Hkeys |].
  - by rewrite (FanOut.generate_course_content_filled b state cs Hcs).
  - intros t entries Hlook.
    assert (Exists (fun m => StructureAgent.module_title m = t)
              (StructureAgent.modules cs)) as Hex.
    { apply Exists_exists, Hkeys. by rewrite Hlook. }
    destruct (FanOut.last_with_title _ _ Hex) as (before & m & after & Hm & Ht & Hafter).
    exists m. split; [|split; [done|]].
    + rewrite Hm. apply elem_of_app. right. apply list_elem_of_here.
    + rewrite <- Ht in Hafter.
      pose proof (filled_titles b state cs before m after Hafter) as Htitles.
      unfold get_lessons in Htitles. rewrite <- Hm, Ht, Hlook in Htitles.
      exact Htitles.
Qed.

Lemma content_data_shape_witness :
  ∃ cd : gmap str (list LessonDict),
    content_data (generate_course_content Samples.twin_titles Samples.twins).1
    = Some cd
    ∧ (∀ t : str,
         is_Some (cd !! t)
         ↔ ∃ m, m ∈ [StructureAgent.mkModuleSkeleton (u "MODULE X")
                       [StructureAgent.mkLessonSkeleton (u "a") []];
                     StructureAgent.mkModuleSkeleton (u "MODULE X")
                       [StructureAgent.mkLessonSkeleton (u "b") []]]
                ∧ StructureAgent.module_title m = t)
    ∧ (∀ (t : str) (entries : list LessonDict),
         cd !! t = Some entries →
         ∃ m, m ∈ [StructureAgent.mkModuleSkeleton (u "MODULE X")
                     [StructureAgent.mkLessonSkeleton (u "a") []];
                   StructureAgent.mkModuleSkeleton (u "MODULE X")
                     [StructureAgent.mkLessonSkeleton (u "b") []]]
              ∧ StructureAgent.module_title m = t
              ∧ entry_titles entries
                = List.map StructureAgent.lesson_title
                    (StructureAgent.module_lessons m)).
Proof.
  apply (content_data_shape Samples.twin_titles Samples.twins
           (StructureAgent.mkCourseStructure [] []
              [StructureAgent.mkModuleSkeleton (u "MODULE X")
                 [StructureAgent.mkLessonSkeleton (u "a") []];
               StructureAgent.mkModuleSkeleton (u "MODULE X")
                 [StructureAgent.mkLessonSkeleton (u "b") []]] [])).
  reflexivity.
Defined.

Section Request.

Variable p : update_policy.
Variable b : Backend.
Variable brief : str.
Variables target_audience course_duration : option str.

Local Abbreviation structure1 :=
  (Run.structure1 b brief target_audience course_duration).
Local Abbreviation rd1 := (Run.rd1 b brief target_audience course_duration).
Local Abbreviation known := (Run.known b brief target_audience course_duration).
Local Abbreviation step1 := (Run.step1 p b brief target_audience course_duration).
Local Abbreviation step2 := (Run.step2 p b brief target_audience course_duration).
Local Abbreviation step3 := (Run.step3 p b brief target_audience course_duration).
Local Abbreviation step4 := (Run.step4 p b brief target_audience course_duration).

(** The conversion of the assembled course, written out. *)
Lemma assembled_course (cs : StructureAgent.CourseStructure)
    (cd : gmap str (list LessonDict)) :
  to_course_response (Run.assembled b brief target_audience course_duration cs cd)
  = course_from cs cd (ResearchAgent.get_resources rd1).
Proof.
  unfold to_course_response, Run.assembled, course_from.
  cbn [course_title description modules references].
  rewrite references_of_research, map_map. f_equal.
  apply map_ext. intros m. unfold to_module, finalize_module, get_lessons.
  cbn [module_title lessons]. by rewrite map_map.
Qed.

(** The result of a request, by what the Structure stage did. *)
Lemma course_or_failure :
  (generate_course p b brief target_audience course_duration).1
  = match structure1 with
    | inr _ =>
        inr (u "Course generation failed: Missing course structure for finalizing the course")
    | inl cs =>
        match StructureAgent.modules cs with
        | [] =>
            inr (u "Course generation failed: Missing content data for finalizing the course")
        | _ :: _ =>
            inl (course_from cs
                   (Entries.filled b (known (Some cs) None None None) cs
                      (StructureAgent.modules cs) 0 ∅)
                   (ResearchAgent.get_resources rd1))
        end
    end.
Proof.
  destruct structure1 as [cs | e] eqn:Hs.
  - destruct (StructureAgent.modules cs) as [|m ms] eqn:Hm.
    + rewrite GraphRun.generate_course_steps. cbn [fst].
      rewrite GraphRun.inspect_last_state.
      pose proof (GraphRun.state4 p b brief target_audience course_duration) as H4.
      rewrite Hs in H4. cbn zeta in H4. rewrite fanout_filled, Hm in H4.
      cbn [Entries.filled] in H4. rewrite bool_decide_true in H4 by done.
      destruct H4 as [-> _]. reflexivity.
    + rewrite <- Hm, <- assembled_course.
      apply Isolation.course_of_structure; [done|]. by rewrite Hm.
  - rewrite GraphRun.generate_course_steps. cbn [fst].
    rewrite GraphRun.inspect_last_state.
    pose proof (GraphRun.state4 p b brief target_audience course_duration) as H4.
    rewrite Hs in H4. destruct H4 as [-> _]. reflexivity.
Qed.


(** X10: a failure of the research chain is swallowed and does not fail
    the request.  [research_topic] returns the dictionary [{"error":
    ...}]; the structure chain is asked with an empty research summary
    and no key concepts; and the request ends as that call decides: it
    fails when the structure chain raises or its reply has no module
    block, and in every other case it returns the course of that
    structure, with an empty list of references. *)
Theorem research_failure_is_silent (e : str) :
  (∀ inputs, chain b AResearch 0 inputs = Raises e) →
  rd1 = ResearchAgent.Failed (u "Research failed: " ++ e)
  ∧ (generate_course p b brief target_audience course_duration).1
    = match chain b AStructure 0
              [(u "system_prompt", system_prompt b AStructure);
               (u "topic", brief);
               (u "audience", or_empty target_audience);
               (u "duration", or_empty course_duration);
               (u "research_summary", []);
               (u "key_concepts", []);
               (u "context", [])] with
      | Raises _ =>
          inr (u "Course generation failed: Missing course structure for finalizing the course")
      | Returns text =>
          match StructureAgent.modules (StructureAgent._parse_structure_result text) with
          | [] =>
              inr (u "Course generation failed: Missing content data for finalizing the course")
          | _ :: _ =>
              inl (course_from (StructureAgent._parse_structure_result text)
                     (Entries.filled b
                        (known (Some (StructureAgent._parse_structure_result text))
                           None None None)
                        (StructureAgent._parse_structure_result text)
                        (StructureAgent.modules
                           (StructureAgent._parse_structure_result text)) 0 ∅)
                     [])
          end
      end.
Proof.
  intros Hr.
  assert (rd1 = ResearchAgent.Failed (u "Research failed: " ++ e)) as Hrd.
  { unfold Run.rd1, ResearchAgent.research_topic, run. by rewrite Hr. }
  split; [exact Hrd|].
  assert (structure1
          = match chain b AStructure 0
                    [(u "system_prompt", system_prompt b AStructure);
                     (u "topic", brief);
                     (u "audience", or_empty target_audience);
                     (u "duration", or_empty course_duration);
                     (u "research_summary", []);
                     (u "key_concepts", []);
                     (u "context", [])] with
            | Returns text => inl (StructureAgent._parse_structure_result text)
            | Raises e' => inr e'
            end) as Hs.
  { unfold Run.structure1. rewrite Hrd.
    unfold StructureAgent.create_structure, run.
    cbn [ResearchAgent.get_summary ResearchAgent.get_key_concepts List.map join app].
    by destruct (chain b AStructure 0 _). }
  rewrite course_or_failure, Hs.
  destruct (chain b AStructure 0 _) as [text | e']; [|done].
  destruct (StructureAgent.modules _); [done|].
  by rewrite Hrd.
Qed.


(** X12: when the structure has modules with distinct titles, the returned
    course has the title, the description and the outline of the
    structure (the same modules with the same lessons, in order), and
    its references are the resources of the research. *)
Theorem course_follows_structure (cs : StructureAgent.CourseStructure) :
  structure1 = inl cs →
  StructureAgent.modules cs ≠ [] →
  NoDup (List.map StructureAgent.module_title (StructureAgent.modules cs)) →
  ∃ course : Models.CourseResponse,
    (generate_course p b brief target_audience course_duration).1 = inl course
    ∧ Models.course_title course = StructureAgent.course_title cs
    ∧ Models.description course = StructureAgent.course_description cs
    ∧ course_outline course = structure_outline cs
    ∧ Models.references course = ResearchAgent.get_resources rd1.
Proof.
  intros Hs Hne Hnodup. eexists. split.
  { by apply Isolation.course_of_structure. }
  split; [done|]. split; [done|]. split; [|apply references_of_research].
  unfold course_outline, structure_outline, to_course_response, Run.assembled.
  cbn [Models.modules modules]. rewrite !map_map.
  apply map_ext_in. intros m Hin.
  destruct (in_split _ _ Hin) as (before & after & Hm).
  unfold to_module, finalize_module.
  cbn [Models.module_title Models.lessons module_title lessons]. f_equal.
  rewrite !map_map. rewrite Hm in Hnodup |- *.
  rewrite <- (filled_titles b (known (Some cs) None None None) cs before m after)
    by (by apply (titles_after before)).
  unfold entry_titles. by apply map_ext.
Qed.

End Request.

Lemma research_failure_is_silent_witness :
  Run.rd1 Samples.research_fails (u "brief") None None
  = ResearchAgent.Failed (u "Research failed: " ++ u "boom")
  ∧ (generate_course WriteAll Samples.research_fails (u "brief") None None).1
    = match chain Samples.research_fails AStructure 0
              [(u "system_prompt", system_prompt Samples.research_fails AStructure);
               (u "topic", u "brief");
               (u "audience", or_empty None);
               (u "duration", or_empty None);
               (u "research_summary", []);
               (u "key_concepts", []);
               (u "context", [])] with
      | Raises _ =>
          inr (u "Course generation failed: Missing course structure for finalizing the course")
      | Returns text =>
          match StructureAgent.modules (StructureAgent._parse_structure_result text) with
          | [] =>
              inr (u "Course generation failed: Missing content data for finalizing the course")
          | _ :: _ =>
              inl (course_from (StructureAgent._parse_structure_result text)
                     (Entries.filled Samples.research_fails
                        (Run.known Samples.research_fails (u "brief") None None
                           (Some (StructureAgent._parse_structure_result text))
                           None None None)
                        (StructureAgent._parse_structure_result text)
                        (StructureAgent.modules
                           (StructureAgent._parse_structure_result text)) 0 ∅)
                     [])
          end
      end.
Proof.
  apply (research_failure_is_silent WriteAll Samples.research_fails (u "brief")
           None None (u "boom")).
  intros inputs. reflexivity.
Defined.

Lemma course_follows_structure_witness :
  ∃ course : Models.CourseResponse,
    (generate_course WriteAll Samples.second_lesson_fails (u "brief") None None).1
    = inl course
    ∧ Models.course_title course = StructureAgent.course_title Samples.two_modules
    ∧ Models.description course
      = StructureAgent.course_description Samples.two_modules
    ∧ course_outline course = structure_outline Samples.two_modules
    ∧ Models.references course
      = ResearchAgent.get_resources
          (Run.rd1 Samples.second_lesson_fails (u "brief") None None).
Proof.
  apply (course_follows_structure WriteAll Samples.second_lesson_fails (u "brief")
           None None Samples.two_modules).
  - vm_compute. reflexivity.
  - discriminate.
  - apply (bool_decide_unpack _). vm_compute. exact I.
Defined.

End Pipeline.

(** ** A request served in the requested formats *)

Module EndToEnd.

Import Orchestrator LangGraph Run Entries Outline Shape Replies Service.

Lemma imap_map {A B C : Type} (f : nat → A → B) (g : C → A) (l : list C) :
  imap f (List.map g l) = imap (fun n x => f n (g x)) l.
Proof. exact (imap_fmap f g l). Qed.

Lemma map_imap {A B C : Type} (f : nat → A → B) (g : B → C) (l : list A) :
  List.map g (imap f l) = imap (fun n x => g (f n x)) l.
Proof. exact (fmap_imap f g l). Qed.

Lemma skeleton_titles (modules : list (str * list (str * str))) :
  List.map StructureAgent.module_title (List.map skeleton_of modules)
  = List.map fst modules.
Proof. rewrite map_map. by apply map_ext. Qed.

Lemma skeleton_lessons_in (modules : list (str * list (str * str)))
    (m : str * list (str * str)) :
  lessons_in (List.map skeleton_of (modules ++ [m]))
  = (lessons_in (List.map skeleton_of modules) + length m.2)%nat.
Proof.
  unfold lessons_in. rewrite !map_app, concat_app, length_app.
  cbn [List.map concat skeleton_of StructureAgent.module_lessons].
  by rewrite app_nil_r, length_map.
Qed.

Section Request.

Variable p : update_policy.
Variable b : Backend.
Variable brief : str.
Variables target_audience course_duration : option str.
Variables (summary : str) (key_concepts resources : list str) (insights : str).
Variables (title description : str) (modules : list (str * list (str * str))).
Variable rationale : str.
Variables (body : nat → str) (items : nat → list str).

Hypothesis service :
  answers_in_format b summary key_concepts resources insights
    title description modules rationale body items.
Hypothesis research_ok : research_parts_ok summary key_concepts resources insights.
Hypothesis structure_ok : structure_parts_ok title description modules rationale.
Hypothesis content_ok : ∀ k : nat, content_parts_ok (body k) (items k).

Local Abbreviation rd1 := (Run.rd1 b brief target_audience course_duration).
Local Abbreviation structure1 :=
  (Run.structure1 b brief target_audience course_duration).
Local Abbreviation known := (Run.known b brief target_audience course_duration).

(** The structure the Structure stage gets. *)
Local Abbreviation cs :=
  (StructureAgent.mkCourseStructure title description
     (List.map skeleton_of modules) rationale).

Local Abbreviation st := (known (Some cs) None None None).

Lemma research_parsed :
  rd1 = ResearchAgent.Parsed
          (ResearchAgent.mkResearchData summary key_concepts resources insights).
Proof.
  destruct service as (Hr & _). destruct research_ok as (? & ? & ? & ? & ? & ?).
  unfold Run.rd1, ResearchAgent.research_topic, run. rewrite Hr. cbn [fst].
  by rewrite RoundTrips.research_reply_parsed.
Qed.

Lemma structure_parsed : structure1 = inl cs.
Proof.
  destruct service as (_ & Hs & _). destruct structure_ok as (? & ? & ? & ? & _).
  unfold Run.structure1, StructureAgent.create_structure, run. rewrite Hs.
  cbn [fst]. by rewrite StructureReply.structure_reply_parsed.
Qed.

Lemma lesson_parsed (mt : str) (k : nat) (lesson : StructureAgent.LessonSkeleton) :
  Entries.lesson_result b st cs mt k lesson
  = inl (ContentAgent.mkContentDict (body k) (items k)).
Proof.
  destruct service as (_ & _ & Hc). destruct (content_ok k) as [? ?].
  unfold Entries.lesson_result, Run.known. cbn [research_data].
  unfold ContentAgent.generate_lesson_content, run. rewrite Hc. cbn [fst].
  by rewrite RoundTrips.content_reply_parsed.
Qed.

Lemma entries_of_module (k : nat) (m : str * list (str * str)) :
  Entries.module_entries b st cs k (skeleton_of m)
  = imap (fun j l => mkLessonDict l.2 (body (k + j)%nat) (items (k + j)%nat)) m.2.
Proof.
  unfold Entries.module_entries.
  cbn [skeleton_of StructureAgent.module_lessons StructureAgent.module_title].
  rewrite imap_map. apply imap_ext. intros j l _.
  cbn [StructureAgent.lesson_title]. rewrite lesson_parsed.
  unfold Entries.calls_per_lesson, Run.known. cbn [research_data lesson_entry
    ContentAgent.content ContentAgent.resources].
  by rewrite Nat.mul_1_r.
Qed.

Lemma modules_numbered (before after : list (str * list (str * str))) :
  modules = before ++ after →
  List.map
    (fun m => to_module
                (finalize_module
                   (Entries.filled b st cs (List.map skeleton_of modules) 0 ∅) m))
    (List.map skeleton_of after)
  = numbered_modules body items (lessons_in (List.map skeleton_of before)) after.
Proof.
  destruct structure_ok as (_ & _ & _ & _ & _ & Hnodup).
  revert before. induction after as [|m after IH]; intros before Hm; [done|].
  cbn [List.map numbered_modules]. f_equal.
  - assert (List.map skeleton_of modules
            = List.map skeleton_of before ++ skeleton_of m :: List.map skeleton_of after)
      as Heq by (by rewrite Hm, map_app).
    assert (Forall (fun m' => StructureAgent.module_title m'
                              ≠ StructureAgent.module_title (skeleton_of m))
              (List.map skeleton_of after)) as Hafter.
    { apply Pipeline.titles_after with (List.map skeleton_of before).
      by rewrite <- Heq, skeleton_titles. }
    pose proof (FanOut.filled_lookup_last b st cs (List.map skeleton_of before)
                  (skeleton_of m) (List.map skeleton_of after) 0 ∅ Hafter) as Hl.
    rewrite <- Heq in Hl.
    unfold to_module, finalize_module, get_lessons. rewrite Hl.
    cbn [default module_title lessons skeleton_of StructureAgent.module_title].
    rewrite entries_of_module. unfold id. rewrite !map_imap.
    unfold Entries.calls_per_lesson, Run.known. cbn [research_data].
    by rewrite Nat.mul_1_r, Nat.add_0_l.
  - rewrite <- skeleton_lessons_in. apply IH. by rewrite <- app_assoc.
Qed.

(** X13: when the three chains answer in the formats their prompts ask for,
    the request returns the course made of those answers: the title and
    the description of the structure reply, its modules under their
    headers, for each lesson line the lesson with the title of the
    line, the body and the resources of the reply to its own invocation
    (lessons are numbered through the modules), and the resources of
    the research reply as references. *)
Theorem generate_course_in_format :
  (generate_course p b brief target_audience course_duration).1
  = inl (Models.mkCourseResponse title description
           (numbered_modules body items 0 modules) resources).
Proof.
  destruct structure_ok as (_ & _ & _ & _ & Hne & _).
  rewrite (Isolation.course_of_structure p b brief target_audience course_duration cs
             structure_parsed) by (by destruct modules).
  f_equal. unfold to_course_response, Run.assembled.
  cbn [course_title Orchestrator.description Orchestrator.modules references
       StructureAgent.course_title StructureAgent.course_description
       StructureAgent.modules].
  rewrite map_map, (modules_numbered [] modules) by done.
  by rewrite research_parsed.
Qed.

End Request.

Lemma generate_course_in_format_witness :
  (generate_course WriteAll sample_service (u "microfinance") None None).1
  = inl (Models.mkCourseResponse (u "Microfinance") (u "How small loans work.")
           (numbered_modules (fun _ => u "Text.") sample_items 0 sample_modules)
           [u "World Bank report"]).
Proof.
  apply (generate_course_in_format WriteAll sample_service (u "microfinance")
           None None (u "Small loans.") [u "Group lending"]
           [u "World Bank report"] (u "Demand is growing.")
           (u "Microfinance") (u "How small loans work.") sample_modules
           (u "From simple to applied.") (fun _ => u "Text.") sample_items).
  - split; [|split]; intros; reflexivity.
  - unfold research_parts_ok.
    split; [reflexivity|]. split; [discriminate|]. split; [by repeat constructor|].
    split; [discriminate|]. split; [by repeat constructor | reflexivity].
  - unfold structure_parts_ok.
    split; [reflexivity|]. split; [reflexivity|]. split; [by repeat constructor|].
    split; [reflexivity|]. split; [discriminate|].
    apply (bool_decide_unpack _). vm_compute. exact I.
  - intros k. split; [reflexivity | by repeat constructor].
Defined.

End EndToEnd.

(** ** The quality review *)

Module Review.

Import Shape Reviews PyStrFacts PyStrMore RoundTrips QualityAgent.

Lemma split_go_non_empty (sep : str) (count : option nat) (skip : nat)
    (cur s : str) :
  split_go sep count skip cur s ≠ [].
Proof.
  revert count skip cur. induction s as [|c s IH]; intros count skip cur; [done|].
  cbn [split_go]. destruct skip; [|by apply IH].
  destruct (may count && startswith (c :: s) sep); [done | by apply IH].
Qed.

(** A text that contains the separator splits into two pieces at
    least. *)
Lemma split_go_two (sep cur s : str) :
  sep ≠ [] → contains s sep = true →
  ∃ (p0 p1 : str) (rest : list str),
    split_go sep None O cur s = p0 :: p1 :: rest.
Proof.
  intros Hsep. revert cur. induction s as [|c s IH]; intros cur Hc.
  - destruct sep; [done | discriminate Hc].
  - cbn [split_go may andb]. cbn [contains] in Hc.
    destruct (startswith (c :: s) sep) eqn:Hs.
    + pose proof (split_go_non_empty sep (used None) (Nat.pred (length sep)) [] s).
      destruct (split_go sep (used None) _ [] s) as [|p1 rest]; [done|].
      by exists cur, p1, rest.
    + by apply IH.
Qed.

Lemma index_head (x : str) (l : list str) : index (x :: l) 0 = inl x.
Proof. done. Qed.

Lemma index_second (x y : str) (l : list str) : index (x :: y :: l) 1 = inl y.
Proof. done. Qed.

Lemma between_returns (result first second : str) :
  first ≠ [] → contains result first = true →
  ∃ text : str, between result first second = inl text.
Proof.
  intros Hne Hc. unfold between, split.
  destruct (split_go_two first [] result Hne Hc) as (p0 & p1 & rest & ->).
  rewrite index_second.
  pose proof (split_go_non_empty second None 0 [] p1).
  destruct (split_go second None 0 [] p1) as [|x l]; [done|].
  rewrite index_head. by eexists.
Qed.

(** The parser raises nothing and leaves the title and the lessons of
    the module alone. *)
Lemma parse_review_result_returns (result : str) (m : ModuleDict) :
  ∃ r : ModuleDict,
    _parse_review_result result m = inl r
    ∧ module_title r = module_title m ∧ lessons r = lessons m.
Proof.
  unfold _parse_review_result. cbv zeta.
  destruct (contains result (u "REVISED CONTENT:")) eqn:Hrc; [|by exists m].
  destruct (split_go_two (u "REVISED CONTENT:") [] result) as (p0 & p1 & rest & Hp);
    [done | done |].
  unfold split at 1. rewrite Hp.
  assert (∃ t, (if contains result (u "MODULE REVIEW:")
                then between result (u "MODULE REVIEW:") (u "IMPROVEMENTS:")
                else inl []) = inl t) as [t1 ->].
  { destruct (contains result (u "MODULE REVIEW:")) eqn:E; [|by eexists].
    by apply between_returns. }
  assert (∃ t, (if contains result (u "IMPROVEMENTS:")
                then between result (u "IMPROVEMENTS:") (u "LESSON REVIEWS:")
                else inl []) = inl t) as [t2 ->].
  { destruct (contains result (u "IMPROVEMENTS:")) eqn:E; [|by eexists].
    by apply between_returns. }
  by eexists.
Qed.

(** X14: whatever the reply is, [_parse_review_result] returns: no index is
    out of range.  The module it returns has the title and the lessons
    of the original; it has a review attached when the reply contains
    ["REVISED CONTENT:"], and is the original otherwise. *)
Theorem parse_review_result_keeps_module (result : str) (m : ModuleDict) :
  ∃ r : ModuleDict,
    _parse_review_result result m = inl r
    ∧ module_title r = module_title m
    ∧ lessons r = lessons m
    ∧ (if contains result (u "REVISED CONTENT:")
       then is_Some (quality_review r)
       else r = m).
Proof.
  destruct (parse_review_result_returns result m) as (r & Hr & Ht & Hl).
  exists r. repeat split; try done.
  unfold _parse_review_result in Hr. cbv zeta in Hr.
  destruct (contains result (u "REVISED CONTENT:")) eqn:Hrc; [|by injection Hr].
  destruct (split_go_two (u "REVISED CONTENT:") [] result) as (p0 & p1 & rest & Hp);
    [done | done |].
  unfold split at 1 in Hr. rewrite Hp in Hr.
  repeat case_match; try discriminate Hr; injection Hr as <-; by eexists.
Qed.

(** No occurrence of a marker begins in a text cut at its line feeds
    into pieces that do not hold it. *)
Ltac cut_free :=
  lazymatch goal with
  | |- free_of ?m (nl ++ ?b) = true =>
      apply (free_of_cut 10 m [] b); [not_in_marker | done | done | cut_free]
  | |- free_of ?m (nlnl ++ ?b) = true =>
      apply (free_of_cut 10 m [] (nl ++ b));
      [not_in_marker | done | done | cut_free]
  | |- free_of ?m (?a ++ nl ++ ?b) = true =>
      apply (free_of_cut 10 m a b);
      [not_in_marker | done | first [assumption | vm_compute; reflexivity]
      | cut_free]
  | |- free_of ?m (?a ++ nlnl ++ ?b) = true =>
      apply (free_of_cut 10 m a (nl ++ b));
      [not_in_marker | done | first [assumption | vm_compute; reflexivity]
      | cut_free]
  | |- _ => first [assumption | vm_compute; reflexivity]
  end.

Section Reply.

Variables module_review improvements lesson_reviews revised_content : str.

Hypothesis module_review_ok : review_text_ok module_review = true.
Hypothesis improvements_ok : review_text_ok improvements = true.
Hypothesis lesson_reviews_ok : review_text_ok lesson_reviews = true.
Hypothesis revised_content_ok : review_text_ok revised_content = true.

Local Abbreviation reply :=
  (review_reply_of module_review improvements lesson_reviews revised_content).

Lemma review_text_ok_spec (x : str) :
  review_text_ok x = true →
  trimmed x = true ∧ free_of (u "MODULE REVIEW:") x = true
  ∧ free_of (u "IMPROVEMENTS:") x = true
  ∧ free_of (u "LESSON REVIEWS:") x = true
  ∧ free_of (u "REVISED CONTENT:") x = true.
Proof. unfold review_text_ok. rewrite !andb_true_iff. tauto. Qed.

Lemma reply_contains (marker : str) :
  marker ∈ [u "MODULE REVIEW:"; u "IMPROVEMENTS:"; u "REVISED CONTENT:"] →
  contains reply marker = true.
Proof.
  intros H. apply contains_true. unfold review_reply_of.
  repeat (apply elem_of_cons in H as [-> | H]).
  - by exists [], (nl ++ module_review ++ nlnl
                  ++ u "IMPROVEMENTS:" ++ nl ++ improvements ++ nlnl
                  ++ u "LESSON REVIEWS:" ++ nl ++ lesson_reviews ++ nlnl
                  ++ u "REVISED CONTENT:" ++ nl ++ revised_content).
  - exists (u "MODULE REVIEW:" ++ nl ++ module_review ++ nlnl),
      (nl ++ improvements ++ nlnl
       ++ u "LESSON REVIEWS:" ++ nl ++ lesson_reviews ++ nlnl
       ++ u "REVISED CONTENT:" ++ nl ++ revised_content).
    by rewrite <- !app_assoc.
  - exists (u "MODULE REVIEW:" ++ nl ++ module_review ++ nlnl
            ++ u "IMPROVEMENTS:" ++ nl ++ improvements ++ nlnl
            ++ u "LESSON REVIEWS:" ++ nl ++ lesson_reviews ++ nlnl),
      (nl ++ revised_content).
    by rewrite <- !app_assoc.
  - by apply elem_of_nil in H.
Qed.

Lemma reply_revised :
  ∃ before : str,
    split reply (u "REVISED CONTENT:") = [before; nl ++ revised_content].
Proof.
  destruct (review_text_ok_spec _ module_review_ok) as (_ & _ & _ & _ & ?).
  destruct (review_text_ok_spec _ improvements_ok) as (_ & _ & _ & _ & ?).
  destruct (review_text_ok_spec _ lesson_reviews_ok) as (_ & _ & _ & _ & ?).
  destruct (review_text_ok_spec _ revised_content_ok) as (_ & _ & _ & _ & ?).
  exists (u "MODULE REVIEW:" ++ nl ++ module_review ++ nlnl
          ++ u "IMPROVEMENTS:" ++ nl ++ improvements ++ nlnl
          ++ u "LESSON REVIEWS:" ++ nl ++ lesson_reviews ++ nlnl).
  assert (reply
          = (u "MODULE REVIEW:" ++ nl ++ module_review ++ nlnl
             ++ u "IMPROVEMENTS:" ++ nl ++ improvements ++ nlnl
             ++ u "LESSON REVIEWS:" ++ nl ++ lesson_reviews ++ nlnl)
            ++ u "REVISED CONTENT:" ++ nl ++ revised_content) as ->.
  { unfold review_reply_of. by rewrite <- !app_assoc. }
  rewrite split_first; [| done |].
  - rewrite split_whole; [done | cut_free].
  - unfold closed_for. rewrite <- !app_assoc. cut_free.
Qed.

Lemma reply_module_review :
  between reply (u "MODULE REVIEW:") (u "IMPROVEMENTS:") = inl module_review.
Proof.
  destruct (review_text_ok_spec _ module_review_ok) as (? & ? & ? & _).
  destruct (review_text_ok_spec _ improvements_ok) as (_ & ? & _).
  destruct (review_text_ok_spec _ lesson_reviews_ok) as (_ & ? & _).
  destruct (review_text_ok_spec _ revised_content_ok) as (_ & ? & _).
  unfold between.
  assert (reply
          = [] ++ u "MODULE REVIEW:"
            ++ ((nl ++ module_review ++ nlnl)
                ++ u "IMPROVEMENTS:"
                ++ (nl ++ improvements ++ nlnl
                    ++ u "LESSON REVIEWS:" ++ nl ++ lesson_reviews ++ nlnl
                    ++ u "REVISED CONTENT:" ++ nl ++ revised_content))) as ->.
  { unfold review_reply_of. by rewrite <- !app_assoc. }
  rewrite split_first; [| done | by vm_compute].
  rewrite split_whole by (rewrite <- !app_assoc; cut_free).
  rewrite index_second.
  rewrite split_first; [| done | unfold closed_for; rewrite <- !app_assoc; cut_free].
  rewrite index_head. f_equal.
  apply strip_padded; [apply nl_spaces | apply nlnl_spaces | done].
Qed.

Lemma reply_improvements :
  between reply (u "IMPROVEMENTS:") (u "LESSON REVIEWS:") = inl improvements.
Proof.
  destruct (review_text_ok_spec _ module_review_ok) as (_ & _ & ? & _).
  destruct (review_text_ok_spec _ improvements_ok) as (? & _ & ? & ? & _).
  destruct (review_text_ok_spec _ lesson_reviews_ok) as (_ & _ & ? & _).
  destruct (review_text_ok_spec _ revised_content_ok) as (_ & _ & ? & _).
  unfold between.
  assert (reply
          = (u "MODULE REVIEW:" ++ nl ++ module_review ++ nlnl)
            ++ u "IMPROVEMENTS:"
            ++ ((nl ++ improvements ++ nlnl)
                ++ u "LESSON REVIEWS:"
                ++ (nl ++ lesson_reviews ++ nlnl
                    ++ u "REVISED CONTENT:" ++ nl ++ revised_content))) as ->.
  { unfold review_reply_of. by rewrite <- !app_assoc. }
  rewrite split_first; [| done | unfold closed_for; rewrite <- !app_assoc; cut_free].
  rewrite split_whole by (rewrite <- !app_assoc; cut_free).
  rewrite index_second.
  rewrite split_first; [| done | unfold closed_for; rewrite <- !app_assoc; cut_free].
  rewrite index_head. f_equal.
  apply strip_padded; [apply nl_spaces | apply nlnl_spaces | done].
Qed.

End Reply.

(** X15: from a reply in the requested format the parser attaches the module
    review, the improvements and the revised content to the module; the
    lesson reviews are read by nothing, and the lessons of the module
    stay as they were. *)
Theorem parse_review_reply
    (module_review improvements lesson_reviews revised_content : str)
    (m : ModuleDict) :
  review_text_ok module_review = true →
  review_text_ok improvements = true →
  review_text_ok lesson_reviews = true →
  review_text_ok revised_content = true →
  _parse_review_result
    (review_reply_of module_review improvements lesson_reviews revised_content) m
  = inl (mkModuleDict (module_title m) (lessons m)
           (Some (mkQualityReview module_review improvements revised_content))).
Proof.
  intros H1 H2 H3 H4. unfold _parse_review_result. cbv zeta.
  rewrite !reply_contains by (rewrite !elem_of_cons; tauto).
  destruct (reply_revised _ _ _ _ H1 H2 H3 H4) as [before ->].
  rewrite reply_module_review, reply_improvements by done.
  pose proof (strip_padded nl revised_content []) as Hs.
  rewrite app_nil_r in Hs. rewrite Hs; [done | apply nl_spaces | done |].
  by apply review_text_ok_spec in H4 as (? & _).
Qed.

Lemma parse_review_reply_witness :
  _parse_review_result
    (review_reply_of (u "Sound overall.") (u "Add an example.")
       (u "Lesson 1: fine.") (u "A shorter" ++ nlnl ++ u "introduction."))
    (mkModuleDict (u "MODULE 1: Basics")
       [mkLessonDict (u "What it is") (u "Text") [u "Book A"]] None)
  = inl (mkModuleDict (u "MODULE 1: Basics")
           [mkLessonDict (u "What it is") (u "Text") [u "Book A"]]
           (Some (mkQualityReview (u "Sound overall.") (u "Add an example.")
                    (u "A shorter" ++ nlnl ++ u "introduction.")))).
Proof.
  apply (parse_review_reply (u "Sound overall.") (u "Add an example.")
           (u "Lesson 1: fine.") (u "A shorter" ++ nlnl ++ u "introduction.")
           (mkModuleDict (u "MODULE 1: Basics")
              [mkLessonDict (u "What it is") (u "Text") [u "Book A"]] None));
    vm_compute; reflexivity.
Defined.

Lemma to_lesson_to_dict (lessons : list Models.Lesson) :
  List.map to_lesson (List.map to_dict lessons) = lessons.
Proof.
  induction lessons as [|[t c r] lessons IH]; [done|].
  cbn [List.map]. by rewrite IH.
Qed.

Lemma to_module_of_dict (module : Models.CourseModule) (r : ModuleDict) :
  module_title r = module_title (module_dict module) →
  lessons r = lessons (module_dict module) →
  to_module r = module.
Proof.
  intros Ht Hl. unfold to_module. rewrite Ht, Hl. cbn [module_dict module_title lessons].
  rewrite to_lesson_to_dict. by destruct module.
Qed.

(** The loop over the modules gives the modules back, after one
    invocation each that returned, or stops at the first invocation
    that raises. *)
Lemma review_modules_spec (q : Service) (course : Models.CourseResponse)
    (audience duration : str) (modules : list Models.CourseModule) (k : nat) :
  match review_modules q (Models.course_title course) (Models.description course)
          audience duration modules k with
  | (inl improved_modules, calls) =>
      improved_modules = modules
      ∧ calls = seq k (length modules)
      ∧ ∀ (i : nat) (m : Models.CourseModule),
          modules !! i = Some m →
          ∃ text : str,
            chain q (k + i) (review_call q course audience duration m)
            = Returns text
  | (inr e, calls) =>
      ∃ (j : nat) (m : Models.CourseModule),
        modules !! j = Some m
        ∧ chain q (k + j) (review_call q course audience duration m) = Raises e
        ∧ (∀ (i : nat) (m' : Models.CourseModule),
             (i < j)%nat → modules !! i = Some m' →
             ∃ text : str,
               chain q (k + i) (review_call q course audience duration m')
               = Returns text)
        ∧ calls = seq k (S j)
  end.
Proof.
  revert k. induction modules as [|module modules IH]; intros k.
  - cbn [review_modules]. split; [done|]. split; [done|]. by intros i m.
  - cbn [review_modules]. unfold review_module, run.
    fold (review_call q course audience duration module).
    destruct (chain q k (review_call q course audience duration module))
      as [result | e] eqn:Hc.
    + destruct (parse_review_result_returns result (module_dict module))
        as (r & -> & Ht & Hl).
      cbn [length]. specialize (IH (k + 1)%nat).
      destruct (review_modules _ _ _ _ _ _ _) as [[ms | e] calls'].
      * destruct IH as (-> & -> & Hret). split; [|split].
        -- f_equal. by apply to_module_of_dict.
        -- cbn [app seq]. by rewrite Nat.add_1_r.
        -- intros [|i] m Hm.
           ++ injection Hm as <-. exists result. by rewrite Nat.add_0_r.
           ++ destruct (Hret i m Hm) as [text Htext]. exists text.
              by replace (k + S i)%nat with (k + 1 + i)%nat by lia.
      * destruct IH as (j & m & Hm & Hr & Hret & ->).
        exists (S j), m. split; [done|]. split; [|split].
        -- by replace (k + S j)%nat with (k + 1 + j)%nat by lia.
        -- intros [|i] m' Hi Hm'.
           ++ injection Hm' as <-. exists result. by rewrite Nat.add_0_r.
           ++ destruct (Hret i m') as [text Htext]; [lia | done |].
              exists text. by replace (k + S i)%nat with (k + 1 + i)%nat by lia.
        -- cbn [app seq]. by rewrite Nat.add_1_r.
    + exists 0%nat, module. split; [done|]. split; [by rewrite Nat.add_0_r|].
      split; [|done]. intros i m' Hi. lia.
Qed.

(** X16: [review_course] changes nothing.  It invokes the chain for the
    modules of the course in their order, one invocation per module,
    each on the template variables made from that module.  When all of
    them return, it returns the course it was given: title,
    description, modules, lessons and references (the reviews its
    parser attaches are dropped).  Otherwise it raises the exception of
    the first invocation that raised: the invocations for the modules
    before it returned, and none is made after it. *)
Theorem review_course_changes_nothing (q : Service)
    (course : Models.CourseResponse) (audience duration : str) :
  match review_course q course audience duration with
  | (inl improved_course, calls) =>
      improved_course = course
      ∧ calls = seq 0 (length (Models.modules course))
      ∧ ∀ (i : nat) (m : Models.CourseModule),
          Models.modules course !! i = Some m →
          ∃ text : str,
            chain q i (review_call q course audience duration m) = Returns text
  | (inr e, calls) =>
      ∃ (j : nat) (m : Models.CourseModule),
        Models.modules course !! j = Some m
        ∧ chain q j (review_call q course audience duration m) = Raises e
        ∧ (∀ (i : nat) (m' : Models.CourseModule),
             (i < j)%nat → Models.modules course !! i = Some m' →
             ∃ text : str,
               chain q i (review_call q course audience duration m')
               = Returns text)
        ∧ calls = seq 0 (S j)
  end.
Proof.
  unfold review_course.
  pose proof (review_modules_spec q course audience duration
                (Models.modules course) 0) as H.
  destruct (review_modules _ _ _ _ _ _ _) as [[ms | e] calls].
  - destruct H as (-> & -> & Hret). split; [by destruct course|]. split; [done|].
    exact Hret.
  - exact H.
Qed.

End Review.
